(** * Browser-Automation-Suite: court-record scrapers

    A shallow embedding of the extraction and persistence logic of the three
    Playwright scrapers

    - [NorthCarolina-Court-Records/northcarolina_scraper.py]   (module [NC])
    - [NewYork-Court-Records/AttorneyContactScraper/ny_attorney_details_scraper.py]
                                                               (module [NYAttorney])
    - [NewYork-Court-Records/newyork_court_scraper.py]         (module [NYCourt])

    together with the properties of these programs.

    Modelling conventions.
    - Python [str] values are Rocq [string]s; the models of [upper], [split]
      and [strip] cover the ASCII range.
    - The browser and the remote JSON endpoints are an oracle: a record of
      answers (each one a value or a raised exception) that the scraper
      functions take as an argument.
    - Every scraper function runs in the monad [M]: it threads the list of
      observable events (log lines, HTTP requests, file writes) and the
      mutable batch, and returns a value or a raised exception. *)

From Stdlib Require Import Ascii String List DecimalString DecimalNat Arith Lia.
From stdpp Require Import gmap strings list.

(** ** Python string primitives *)

Module Py.

(** [str.isspace] on one ASCII character: TAB, LF, VT, FF, CR, the four
    separators 0x1c-0x1f and the space. *)
Definition is_space (c : ascii) : bool :=
  let n := nat_of_ascii c in
  ((9 <=? n) && (n <=? 13)) || ((28 <=? n) && (n <=? 32)).

Definition upper_char (c : ascii) : ascii :=
  let n := nat_of_ascii c in
  if (97 <=? n) && (n <=? 122) then ascii_of_nat (n - 32) else c.

(** [s.upper()] of a [str] whose characters are all ASCII. On other
    characters Python's [upper] follows the Unicode case mapping, and its
    [split] and [strip] the Unicode white space, which [upper_char] and
    [is_space] do not model. *)
Fixpoint upper (s : string) : string :=
  match s with
  | EmptyString => EmptyString
  | String c s' => String (upper_char c) (upper s')
  end.


(** Truthiness of a [str]: the empty string is falsy. *)
Definition truthy (s : string) : bool :=
  match s with
  | EmptyString => false
  | String _ _ => true
  end.

Fixpoint lstrip (s : string) : string :=
  match s with
  | EmptyString => EmptyString
  | String c s' => if is_space c then lstrip s' else s
  end.

Fixpoint rstrip (s : string) : string :=
  match s with
  | EmptyString => EmptyString
  | String c s' =>
      let r := rstrip s' in
      if is_space c && negb (truthy r) then EmptyString else String c r
  end.

(** [s.strip()] *)
Definition strip (s : string) : string := rstrip (lstrip s).

(** [sub in s] *)
Fixpoint contains (sub s : string) : bool :=
  String.prefix sub s ||
  match s with
  | EmptyString => false
  | String _ s' => contains sub s'
  end.

(** [s.replace(old, new)] for a non-empty [old]: the occurrences are found
    left to right and do not overlap; [skip] counts the characters of the
    occurrence just replaced that are still to be dropped. *)
Fixpoint replace_go (old new : string) (skip : nat) (s : string) : string :=
  match s with
  | EmptyString => EmptyString
  | String c s' =>
      match skip with
      | S k => replace_go old new k s'
      | O =>
          if String.prefix old s
          then new +:+ replace_go old new (String.length old - 1) s'
          else String c (replace_go old new 0 s')
      end
  end.

Definition replace (old new s : string) : string := replace_go old new 0 s.

(** [s.split(sep)] for a non-empty [sep]: every occurrence of [sep] ends a
    field, empty fields are kept, and there is always at least one field. *)
Fixpoint split_go (sep cur : string) (skip : nat) (s : string) : list string :=
  match s with
  | EmptyString => [cur]
  | String c s' =>
      match skip with
      | S k => split_go sep cur k s'
      | O =>
          if String.prefix sep s
          then cur :: split_go sep EmptyString (String.length sep - 1) s'
          else split_go sep (cur +:+ String c EmptyString) 0 s'
      end
  end.

Definition split (sep s : string) : list string := split_go sep EmptyString 0 s.

(** [s.split()]: fields are maximal runs of non-space characters. *)
Fixpoint split_ws_go (cur s : string) : list string :=
  match s with
  | EmptyString => if truthy cur then [cur] else []
  | String c s' =>
      if is_space c
      then (if truthy cur then cur :: split_ws_go EmptyString s'
            else split_ws_go EmptyString s')
      else split_ws_go (cur +:+ String c EmptyString) s'
  end.

Definition split_ws (s : string) : list string := split_ws_go EmptyString s.

(** [sep.join(parts)] *)
Definition join (sep : string) (parts : list string) : string :=
  String.concat sep parts.

(** [str(n)] for a natural number. *)
Definition str_nat (n : nat) : string :=
  NilEmpty.string_of_uint (Nat.to_uint n).

(** [f"{n:02d}"]: decimal, padded with zeros on the left to width two. *)
Definition format_02d (n : nat) : string :=
  let s := str_nat n in
  if String.length s <? 2 then "0" +:+ s else s.

(** [x in l] for a list of strings. *)
Definition mem (x : string) (l : list string) : bool :=
  existsb (String.eqb x) l.

(** The exceptions the scrapers can meet, with the part of the class
    hierarchy their [except] clauses look at. *)
Inductive exn : Set :=
  | RequestException      (* requests: any other request failure *)
  | HTTPError             (* requests: raise_for_status *)
  | ConnectionError       (* requests *)
  | ChunkedEncodingError  (* requests *)
  | PlaywrightError       (* playwright.sync_api.Error *)
  | PlaywrightTimeout     (* playwright.sync_api.TimeoutError *)
  | BuiltinTimeoutError   (* the builtin TimeoutError, an OSError *)
  | AttributeError
  | TypeError
  | IndexError
  | KeyError
  | RecursionError
  | OSError.

(** [isinstance(e, requests.RequestException)] *)
Definition is_RequestException (e : exn) : bool :=
  match e with
  | RequestException | HTTPError | ConnectionError | ChunkedEncodingError => true
  | _ => false
  end.

(** [str(e)] is not modelled beyond the class name. *)
Definition exn_name (e : exn) : string :=
  match e with
  | RequestException => "RequestException"
  | HTTPError => "HTTPError"
  | ConnectionError => "ConnectionError"
  | ChunkedEncodingError => "ChunkedEncodingError"
  | PlaywrightError => "Error"
  | PlaywrightTimeout => "TimeoutError"
  | BuiltinTimeoutError => "TimeoutError"
  | AttributeError => "AttributeError"
  | TypeError => "TypeError"
  | IndexError => "IndexError"
  | KeyError => "KeyError"
  | RecursionError => "RecursionError"
  | OSError => "OSError"
  end.

Inductive result (A : Type) : Type :=
  | Ok (a : A)
  | Raise (e : exn).
Arguments Ok {A} a.
Arguments Raise {A} e.

(** The line feed that starts some messages. *)
Definition newline : string := String (ascii_of_nat 10) EmptyString.

(** [f"{x}"] of a value that may be [None]. *)
Definition fmt (x : option string) : string :=
  match x with
  | Some s => s
  | None => "None"
  end.

End Py.

(** ** Effects: an event trace, a mutable store and exceptions *)

Module Eff.
Import Py.

Inductive level : Set := INFO | WARNING | ERROR | CRITICAL.

(** One cell handed to [csv.writer]: a string, [None], or a list of strings
    (which the writer renders with [str]). *)
Inductive Cell : Type :=
  | CStr (s : string)
  | CNone
  | CList (l : list string).

(** What a run does to the outside world, in program order. *)
Inductive Event : Type :=
  | Log (lvl : level) (msg : string)        (* self.logger.<lvl>(msg) *)
  | Stdout (msg : string)                   (* print(msg) *)
  | HttpGet (url : string)                  (* requests.get(url, ...) *)
  | Fill (selector value : string)          (* fill, type, select_option *)
  | Click (target : string)                 (* locator.click *)
  | MakeDirs (path : string)                (* os.makedirs(path, exist_ok=True) *)
  | FileOpenWb (path : string)              (* open(path, "wb") *)
  | CsvOpen (path mode : string)            (* open(path, mode=..., newline="") *)
  | CsvRow (path : string) (row : list Cell). (* writer.writerow(row) *)

(** A computation over a store [S]: it extends the trace, updates the
    store, and returns a value or raises. *)
Definition M (S A : Type) : Type :=
  list Event * S -> (list Event * S) * result A.

Definition ret {S A} (a : A) : M S A := fun w => (w, Ok a).

Definition raise {S A} (e : exn) : M S A := fun w => (w, Raise e).

Definition bind {S A B} (m : M S A) (k : A -> M S B) : M S B :=
  fun w =>
    match m w with
    | (w', Ok a) => k a w'
    | (w', Raise e) => (w', Raise e)
    end.

(** An answer of the oracle, returned or raised. *)
Definition lift {S A} (r : result A) : M S A := fun w => (w, r).

Definition emit {S} (ev : Event) : M S unit :=
  fun w => ((fst w ++ [ev], snd w), Ok tt).

Definition get {S} : M S S := fun w => (w, Ok (snd w)).

Definition put {S} (s : S) : M S unit := fun w => ((fst w, s), Ok tt).

(** [try: m except <classes>: handler], where [catches e] says whether
    the clause matches [e]. *)
Definition try_except {S A} (m : M S A) (catches : exn -> bool)
    (handler : exn -> M S A) : M S A :=
  fun w =>
    match m w with
    | (w', Ok a) => (w', Ok a)
    | (w', Raise e) => if catches e then handler e w' else (w', Raise e)
    end.

(** [except Exception] matches every exception of the model. *)
Definition any_Exception (e : exn) : bool := true.

(** [for x in l: body(x)], where [continue] is the end of the body. *)
Fixpoint for_each {S X} (body : X -> M S unit) (l : list X) : M S unit :=
  match l with
  | [] => ret tt
  | x :: l' => bind (body x) (fun _ => for_each body l')
  end.

(** A [for] loop that carries local variables [a] from one iteration to
    the next. *)
Fixpoint for_fold {S X A} (body : A -> X -> M S A) (a : A) (l : list X) : M S A :=
  match l with
  | [] => ret a
  | x :: l' => bind (body a x) (fun a' => for_fold body a' l')
  end.

End Eff.

Declare Scope eff_scope.
Delimit Scope eff_scope with eff.
Notation "x <- m ;; k" := (Eff.bind m (fun x => k))
  (at level 100, m at next level, right associativity) : eff_scope.
Notation "m ;;; k" := (Eff.bind m (fun _ => k))
  (at level 100, right associativity) : eff_scope.

(** ** North Carolina portal: [northcarolina_scraper.py] *)

Module NC.
Import Py Eff.
Local Open Scope eff_scope.

Definition base_url : string := "https://portal-nc.tylertech.cloud".

(** *** The JSON payloads of the RegisterOfActionsService

    A missing key is the default the code passes to [dict.get]: the empty
    string for the address fields, the empty list for the lists, [None]
    elsewhere. Identifiers are held by their [str] rendering, and the
    address fields that are present are strings. *)

Record Address : Type := {
  AddressLine1 : string;
  AddressLine2 : string;
  AddressLine3 : string;
  AddressLine4 : string;
  City : string;
  State : string;
  PostalCode : string
}.

Record Attorney : Type := {
  FormattedName : option string;
  Addresses : list Address
}.

Record Party : Type := {
  CasePartyAttorneys : list Attorney
}.

Record ParentLink : Type := {
  NodeID : option string;
  ParentID : option string
}.

(** [DocumentVersions] holds, per version, the [DocumentFragmentID]s of its
    [DocumentFragments]; [DocTypeCodeID] and [DocTypeDescription] are the two
    fields read from [DocumentTypeID]. *)
Record Document : Type := {
  DocumentVersions : list (list (option string));
  DocTypeCodeID : option string;
  DocTypeDescription : option string;
  DocumentName : option string;
  ParentLinks : list ParentLink
}.

(** [EventTypeDescription] is [Event.TypeId.Description], [Documents] is
    [Event.Documents]. *)
Record CaseEvent : Type := {
  EventTypeDescription : option string;
  Documents : list Document
}.

(** *** The records the scraper builds *)

(** [attorney_complete_info] *)
Record AttorneyInfo : Type := {
  AttorneyName : option string;
  AttorneyAddress : Cell
}.

(** [new_dict] *)
Record CaseRecord : Type := {
  Case_Number : string;
  Case_Type : option string;
  Attorney_Info : list AttorneyInfo;
  PDF_File : string
}.

(** *** The oracle *)

(** One attempt of [download_file]: the request (or [raise_for_status])
    raises, the body stream raises after the file was opened, or the body
    is written. *)
Inductive DownloadOutcome : Type :=
  | GetFails (e : exn)
  | StreamFails (e : exn)
  | Downloaded.

(** The answers of the portal's endpoints, by URL. Each JSON answer stands
    for [requests.get(url)] followed by [.json()]; [DisplayDoc url attempt]
    is the outcome of the [attempt]-th try of one [download_file] call. *)
Record Portal : Type := {
  CaseSummariesSlim : string -> result (option string);
  Parties : string -> result (list Party);
  CaseEvents : string -> result (list CaseEvent);
  DisplayDoc : string -> nat -> DownloadOutcome
}.

(** A [.caseLink] anchor: its [data-url] attribute and its stripped text. *)
Record CaseLink : Type := {
  data_url : option string;
  link_text : string
}.

(** A [.k-master-row] of the results grid. *)
Record CaseRow : Type := {
  caseLink : option CaseLink
}.

(** What the browser and the captcha service answer for one search
    criterion.
    - [site_key]: lines 61-64, the [data-sitekey] of the [.g-recaptcha]
      element ([AttributeError] when the element is missing);
    - [fill]: line 68;
    - [solver]: line 27, the [code] of the answer of 2Captcha;
    - [submit]: lines 72-80, the token injected and the button clicked;
    - [current_url]: [page.url] after the click;
    - [banner]: lines 88-91 ([wait_for] may raise; [None] when the
      paragraph is not visible, else its inner text);
    - [rows]: line 102, the wait for the rows of the grid;
    - [page_size]: lines 104-127, [None] when the dropdown is not visible,
      else whether its "200" option was found and clicked;
    - [grid]: lines 132-134, the [.k-master-row] elements;
    - [go_back]: line 140. *)
Record SearchSession : Type := {
  site_key : result (option string);
  fill : result unit;
  solver : result (option string);
  submit : result unit;
  current_url : string;
  banner : result (option string);
  rows : result unit;
  page_size : result (option bool);
  grid : result (list CaseRow);
  go_back : result unit
}.

Definition Browser : Type := string -> SearchSession.

(** The store: [self.scraped_data]. *)
Definition Store : Type := list CaseRecord.

(** [os.path.join(a, b)] on POSIX. *)
Definition path_join (a b : string) : string :=
  if String.prefix "/" b then b
  else if negb (truthy a) then b
  else if String.eqb (String.substring (String.length a - 1) 1 a) "/" then a +:+ b
  else a +:+ "/" +:+ b.

(** *** [get_attorney_info], lines 316-396 *)

(** Lines 345-378: one address as a string. *)
Definition format_address (address : Address) : string :=
  let address_info1 := AddressLine1 address in
  let address_info2 := AddressLine2 address in
  let address_info3 := AddressLine3 address in
  let address_info4 := AddressLine4 address in
  let city := City address in
  let state := State address in
  let postal_code := PostalCode address in
  let location_parts := List.filter truthy [city; state; postal_code] in
  let location_block :=
    match location_parts with
    | _ :: _ =>
        let state_zip := join " " [state; postal_code] in
        join ", " [city; state_zip]
    | [] => ""
    end in
  let full_address_components :=
    [address_info1; address_info2; address_info3; address_info4; location_block] in
  let clean_parts := List.filter truthy full_address_components in
  join ", " clean_parts.

(** Lines 338-386. *)
Definition attorney_complete_info (info : Attorney) : AttorneyInfo :=
  let attorney_name := FormattedName info in
  let attorney_addresses := map format_address (Addresses info) in
  {| AttorneyName := attorney_name;
     AttorneyAddress :=
       match attorney_addresses with
       | _ :: _ => CList attorney_addresses
       | [] => CStr ""
       end |}.

Definition name_eqb (a b : option string) : bool := bool_decide (a = b).

(** Lines 387-391: append unless the name is already present. *)
Definition add_attorney (attorneys : list AttorneyInfo) (info : Attorney)
    : list AttorneyInfo :=
  let entry := attorney_complete_info info in
  if existsb (fun key => name_eqb (AttorneyName key) (AttorneyName entry)) attorneys
  then attorneys
  else attorneys ++ [entry].

(** Lines 333-391: one party; the pair is
    ([attorney_info_len], [attorneys]). *)
Definition scan_party (acc : nat * list AttorneyInfo) (party : Party)
    : nat * list AttorneyInfo :=
  let '(attorney_info_len, attorneys) := acc in
  let attorney_info := CasePartyAttorneys party in
  match attorney_info with
  | _ :: _ =>
      if attorney_info_len <? length attorney_info
      then (length attorney_info, fold_left add_attorney attorney_info attorneys)
      else acc
  | [] => acc
  end.

(** Lines 329-393. *)
Definition collect_attorneys (all_parties : list Party) : list AttorneyInfo :=
  snd (fold_left scan_party all_parties (0, [])).

Definition get_attorney_info (P : Portal) (case_url : string)
    : M Store (list AttorneyInfo) :=
  emit (Log INFO ("Sending Request to get attorney info from API: " +:+ case_url)) ;;;
  try_except
    (emit (HttpGet case_url) ;;;
     all_parties <- lift (Parties P case_url) ;;
     emit (Log INFO ("Request Successfull to attorney info API: " +:+ case_url)) ;;;
     ret (collect_attorneys all_parties))
    is_RequestException
    (fun e =>
       emit (Stdout ("Request error when fetching attorney info: " +:+ exn_name e)) ;;;
       ret []).

(** *** [download_file], lines 287-314 *)

Definition retried (e : exn) : bool :=
  match e with
  | ChunkedEncodingError | ConnectionError => true
  | _ => false
  end.

(** One pass of the body of [for attempt in range(retries)]; [true] is
    [return True]. *)
Definition download_attempt (P : Portal) (url filepath filename : string)
    (retries attempt : nat) : M Store bool :=
  try_except
    (emit (HttpGet url) ;;;
     match DisplayDoc P url attempt with
     | GetFails e => raise e
     | StreamFails e => emit (FileOpenWb filepath) ;;; raise e
     | Downloaded =>
         emit (FileOpenWb filepath) ;;;
         emit (Log INFO ("Successfully Downloaded file: " +:+ filename)) ;;;
         ret true
     end)
    retried
    (fun e =>
       emit (Log ERROR ("Download failed (" +:+ exn_name e +:+ "), retrying "
                        +:+ str_nat (attempt + 1) +:+ "/" +:+ str_nat retries +:+ "...")) ;;;
       ret false).

Fixpoint download_attempts (P : Portal) (url filepath filename : string)
    (retries : nat) (attempts : list nat) : M Store bool :=
  match attempts with
  | [] => ret false
  | attempt :: rest =>
      done <- download_attempt P url filepath filename retries attempt ;;
      if done then ret true
      else download_attempts P url filepath filename retries rest
  end.

Definition download_file (P : Portal) (url filepath filename : string) : M Store bool :=
  let retries := 2 in
  download_attempts P url filepath filename retries (seq 0 retries).

(** *** [get_pdf_files], lines 196-285 *)

(** Line 262. *)
Definition case_pdf_url (doc_id : option string) (case_no : string)
    (link : ParentLink) (doc_type_id doc_type doc_name : option string)
    (event_name : string) : string :=
  base_url +:+ "/Portal//DocumentViewer/DisplayDoc?documentID=" +:+ fmt doc_id
  +:+ "&caseNum=" +:+ case_no
  +:+ "&locationId=" +:+ fmt (NodeID link)
  +:+ "&caseId=" +:+ fmt (ParentID link)
  +:+ "&docTypeId=" +:+ fmt doc_type_id
  +:+ "&isVersionId=false&docType=" +:+ fmt doc_type
  +:+ "&docName=" +:+ fmt doc_name
  +:+ "&eventName=" +:+ event_name.

(** Lines 258-274: the loop over [parent_links]; the result is the value
    of [pdf_found] when the loop is left. *)
Fixpoint try_parent_links (P : Portal) (case_no : string) (doc_id : option string)
    (doc_type_id doc_type doc_name : option string) (event_name : string)
    (file_path filename : string) (pdf_found : bool) (parent_links : list ParentLink)
    : M Store bool :=
  match parent_links with
  | [] => ret pdf_found
  | link :: rest =>
      let url := case_pdf_url doc_id case_no link doc_type_id doc_type doc_name event_name in
      emit (Log INFO ("Using different document name, type, id's and case ids. We have successfully constructed the pdf URL: " +:+ url)) ;;;
      found <- download_file P url file_path filename ;;
      if found then ret true
      else
        emit (Log INFO ("File Not downloaded. Trying with case id: " +:+ fmt (ParentID link)
                        +:+ " and location id: " +:+ fmt (NodeID link) +:+ " now.")) ;;;
        try_parent_links P case_no doc_id doc_type_id doc_type doc_name event_name
          file_path filename false rest
  end.

(** Lines 229-231: [DocumentVersions[0].DocumentFragments[0].DocumentFragmentID]. *)
Definition first_fragment_id (event : Document) : result (option string) :=
  match DocumentVersions event with
  | [] => Raise IndexError
  | fragments :: _ =>
      match fragments with
      | [] => Raise IndexError
      | doc_id :: _ => Ok doc_id
      end
  end.

(** Lines 240-241. *)
Definition sanitized_event_name (event_name : string) : string :=
  replace "/" "-Or-" event_name.

Definition formatted_file_name (event_name : string) : string :=
  strip (replace " " "_" (sanitized_event_name event_name)).

(** Lines 219-274: the body of [for case_event in all_case_events]; the
    pair is ([pdf_found], [files_downloaded]). *)
Definition scan_case_event (P : Portal) (case_no : string)
    (acc : bool * list string) (case_event : CaseEvent) : M Store (bool * list string) :=
  let '(pdf_found, files_downloaded) := acc in
  match EventTypeDescription case_event with
  | None => raise TypeError
  | Some event_name =>
      if contains "Bond" event_name then
        match Documents case_event with
        | [] => ret acc
        | event :: _ =>
            doc_id <- lift (first_fragment_id event) ;;
            let doc_type_id := DocTypeCodeID event in
            let doc_type := DocTypeDescription event in
            let doc_name := DocumentName event in
            let event_name' := sanitized_event_name event_name in
            let file_name := formatted_file_name event_name in
            if mem file_name files_downloaded then
              emit (Log INFO (file_name +:+ " is already downloaded for case: "
                              +:+ case_no +:+ ". Skipping this file.")) ;;;
              ret acc
            else
              let files_downloaded' := files_downloaded ++ [file_name] in
              let folder_name := path_join "Scraped Data" "Scraped PDF's" in
              let business_folder := path_join folder_name case_no in
              emit (MakeDirs business_folder) ;;;
              let filename := file_name +:+ ".pdf" in
              let file_path := path_join business_folder filename in
              pdf_found' <- try_parent_links P case_no doc_id doc_type_id doc_type
                              doc_name event_name' file_path filename pdf_found
                              (ParentLinks event) ;;
              ret (pdf_found', files_downloaded')
        end
      else ret acc
  end.

(** Lines 207-279: the [try] block. *)
Definition find_pdf_files (P : Portal) (case_pdf_api case_no : string) : M Store bool :=
  emit (Log INFO ("For PDF URL info Sending Request to API: " +:+ case_pdf_api)) ;;;
  emit (HttpGet case_pdf_api) ;;;
  all_case_events <- lift (CaseEvents P case_pdf_api) ;;
  emit (Log INFO "Request Successful Now Extracting relevant document name, type, id's to construct the PDF URL.") ;;;
  acc <- for_fold (scan_case_event P case_no) (false, []) all_case_events ;;
  let pdf_found := fst acc in
  (if negb pdf_found
   then emit (Log INFO ("PDF not found for case: " +:+ case_no))
   else emit (Log INFO ("PDF found for case: " +:+ case_no))) ;;;
  ret pdf_found.

(** Lines 206-285: the [try] block with its [except requests.RequestException]. *)
Definition get_pdf_files (P : Portal) (case_pdf_api case_no : string) : M Store bool :=
  try_except (find_pdf_files P case_pdf_api case_no)
    is_RequestException
    (fun e =>
       emit (Log ERROR ("Request error when fetching case " +:+ case_no
                        +:+ " PDF info: " +:+ exn_name e +:+ ".")) ;;;
       ret false).

(** *** [scrape_cases], lines 146-194 *)

Definition small_estate : string := "Decedents' Estate - Small Estate".

(** Lines 156-158. *)
Definition case_identity (case : CaseRow) : result (string * string * string) :=
  match caseLink case with
  | None => Raise AttributeError
  | Some link =>
      let case_no := link_text link in
      match data_url link with
      | None => Raise AttributeError
      | Some case_url =>
          match split "?id=" case_url with
          | _ :: after :: _ =>
              match split "&" after with
              | case_api_id :: _ => Ok (case_url, case_no, case_api_id)
              | [] => Raise IndexError
              end
          | _ => Raise IndexError
          end
      end
  end.

Definition case_pdf_api_of (case_api_id : string) : string :=
  base_url +:+ "/app/RegisterOfActionsService/CaseEvents('" +:+ case_api_id
  +:+ "')?mode=portalembed&$top=50&$skip=0".

Definition complete_case_url_of (case_api_id : string) : string :=
  base_url +:+ "/app/RegisterOfActionsService/Parties('" +:+ case_api_id
  +:+ "')?mode=portalembed&$top=50&$skip=0".

Definition case_type_url_of (case_api_id : string) : string :=
  base_url +:+ "/app/RegisterOfActionsService/CaseSummariesSlim?key=" +:+ case_api_id.

(** The body of [for case in all_cases]. The [print(new_dict)] of line 192
    is not part of the trace. *)
Definition scrape_case (P : Portal) (case : CaseRow) : M Store unit :=
  ident <- lift (case_identity case) ;;
  let '(case_url, case_no, case_api_id) := ident in
  let case_pdf_api := case_pdf_api_of case_api_id in
  let complete_case_url := complete_case_url_of case_api_id in
  let case_type_url := case_type_url_of case_api_id in
  emit (Log INFO ("Sending Request to check case type from API: " +:+ case_type_url)) ;;;
  emit (HttpGet case_type_url) ;;;
  check_case_type <- lift (CaseSummariesSlim P case_type_url) ;;
  if bool_decide (check_case_type = Some small_estate) then
    emit (Log INFO ("Skipping the Case " +:+ case_no +:+ " because Case Type is: "
                    +:+ fmt check_case_type))
  else
    attorney_info <- get_attorney_info P complete_case_url ;;
    pdf_found <- get_pdf_files P case_pdf_api case_no ;;
    let new_dict :=
      {| Case_Number := case_no;
         Case_Type := check_case_type;
         Attorney_Info := attorney_info;
         PDF_File := if pdf_found then "Found" else "Not Found" |} in
    emit (Log INFO ("Successfully Scraped the case no: " +:+ case_no
                    +:+ " and its URL: " +:+ base_url +:+ "/" +:+ case_url)) ;;;
    scraped_data <- get ;;
    put (scraped_data ++ [new_dict]).

Definition scrape_cases (P : Portal) (all_cases : list CaseRow) : M Store unit :=
  for_each (scrape_case P) all_cases.

(** *** [save_to_csv], lines 398-467 *)

Definition get_max_attorneys_in_batch (scraped_data : list CaseRecord) : nat :=
  fold_left (fun max_attorneys item => Nat.max max_attorneys (length (Attorney_Info item)))
    scraped_data 0.

Definition base_headers : list Cell :=
  [CStr "Case Number"; CStr "Case Type"; CStr "PDF File"].

(** Lines 426-428. *)
Definition attorney_headers (max_attorneys : nat) : list Cell :=
  flat_map
    (fun i => [CStr ("Attorney Name " +:+ str_nat i);
               CStr ("Attorney Address " +:+ str_nat i)])
    (seq 1 max_attorneys).

Definition final_headers (scraped_data : list CaseRecord) : list Cell :=
  base_headers ++ attorney_headers (get_max_attorneys_in_batch scraped_data).

Definition cell_of (x : option string) : Cell :=
  match x with
  | Some s => CStr s
  | None => CNone
  end.

Definition flattened_attorneys (item : CaseRecord) : list Cell :=
  flat_map (fun attorney_dict =>
              [cell_of (AttorneyName attorney_dict); AttorneyAddress attorney_dict])
    (Attorney_Info item).

(** Lines 436-452. [padding_needed] is an [int] in the source, and
    [[""] * n] is empty for a negative [n], as [repeat] is on the truncated
    difference. *)
Definition data_row (required_attorney_cols : nat) (item : CaseRecord) : list Cell :=
  let row := [CStr (Case_Number item); cell_of (Case_Type item); CStr (PDF_File item)] in
  let padding_needed := required_attorney_cols - length (flattened_attorneys item) in
  row ++ flattened_attorneys item ++ repeat (CStr "") padding_needed.

Definition data_rows (scraped_data : list CaseRecord) : list (list Cell) :=
  let required_attorney_cols :=
    length (attorney_headers (get_max_attorneys_in_batch scraped_data)) in
  map (data_row required_attorney_cols) scraped_data.

Definition csv_path : string := path_join "Scraped Data" "scraped_data.csv".

(** The file is opened, the header and the rows are written; a failure of
    the file system itself is outside the model. *)
Definition save_to_csv (scraped_data : list CaseRecord) : M Store unit :=
  emit (MakeDirs "Scraped Data") ;;;
  emit (CsvOpen csv_path "w") ;;;
  emit (CsvRow csv_path (final_headers scraped_data)) ;;;
  for_each (fun row => emit (CsvRow csv_path row)) (data_rows scraped_data) ;;;
  emit (Log INFO ("Data successfully saved to " +:+ csv_path)) ;;;
  emit (Log INFO ("Total records saved: " +:+ str_nat (length (data_rows scraped_data)))).

(** *** [run], lines 34-144 *)

Definition record_number_of (record_num : nat) : string :=
  let foramtted_record_num := format_02d record_num in
  "24E00" +:+ foramtted_record_num +:+ "*".

Definition no_cases_message : string := "No cases match your search".

(** [solve_recaptcha_v2], lines 23-32. *)
Definition solve_recaptcha_v2 (session : SearchSession) : M Store (option string) :=
  emit (Log INFO "Sending reCAPTCHA V2 task to 2Captcha...") ;;;
  try_except
    (code <- lift (solver session) ;;
     emit (Log INFO "reCAPTCHA Solved. Token received.") ;;;
     ret code)
    any_Exception
    (fun e =>
       emit (Log ERROR ("Error solving reCAPTCHA: " +:+ exn_name e)) ;;;
       ret None).

(** Lines 104-131: the page size of the grid. *)
Definition set_page_size (session : SearchSession) (record_number : string)
    : M Store unit :=
  dropdown <- lift (page_size session) ;;
  match dropdown with
  | Some true =>
      emit (Log INFO "Pagination control interacted. Product view successfully updated to display the maximum capacity (200 items).")
  | Some false =>
      emit (Log ERROR "Pagination failure: Required element for setting '200 items per page' was not found on the current view.")
  | None =>
      emit (Log INFO ("Dropdown not found may be records are less than 10 for search query: "
                      +:+ record_number))
  end.

Definition search_page_url : string := base_url +:+ "/Portal/Home/Dashboard/29".

(** The [while True] loop of lines 57-142. [fuel] bounds the number of
    searches; the result is [true] when the loop was left by its [break] and
    [false] when the bound was reached first. *)
Fixpoint search_loop (P : Portal) (B : Browser) (fuel record_num : nat) : M Store bool :=
  match fuel with
  | O => ret false
  | S fuel' =>
      let record_number := record_number_of record_num in
      emit (Log INFO ("Searching Record Number " +:+ record_number)) ;;;
      let session := B record_number in
      lift (site_key session) ;;;
      emit (Fill "#caseCriteria_SearchCriteria" record_number) ;;;
      lift (fill session) ;;;
      solve_recaptcha_v2 session ;;;
      lift (submit session) ;;;
      emit (Click "#btnSSSubmit") ;;;
      let record_num := record_num + 2 in
      emit (Log INFO "Token injected successfully. Clicking on submit button") ;;;
      emit (Log INFO ("Navigation complete. Current URL: " +:+ current_url session)) ;;;
      message <- lift (banner session) ;;
      let no_cases :=
        match message with
        | Some inner_text => contains no_cases_message (strip inner_text)
        | None => false
        end in
      if no_cases then
        emit (Log INFO ("No cases found for search query: " +:+ record_number)) ;;;
        emit (Log INFO "Scraping process has completed. No further results are available.") ;;;
        ret true
      else
        lift (rows session) ;;;
        set_page_size session record_number ;;;
        all_cases <- lift (grid session) ;;
        scrape_cases P all_cases ;;;
        emit (Log INFO ("Successfully scraped complete data of search query: "
                        +:+ record_number +:+ ". Now saving the data in csv file.")) ;;;
        lift (go_back session) ;;;
        emit (Log INFO ("Navigated Back to: " +:+ search_page_url)) ;;;
        emit (Log INFO "Now searching next record number.") ;;;
        search_loop P B fuel' record_num
  end.

Definition run (P : Portal) (B : Browser) (fuel : nat) : M Store bool :=
  finished <- search_loop P B fuel 0 ;;
  if finished then
    scraped_data <- get ;;
    save_to_csv scraped_data ;;;
    ret true
  else ret false.

End NC.

(** ** New York attorney search: [ny_attorney_details_scraper.py] *)

Module NYAttorney.
Import Py Eff.
Local Open Scope eff_scope.

(** Lines 90-106. *)
Definition suffixes_and_prefixes : list string :=
  ["JR"; "SR"; "II"; "III"; "IV"; "V"; "ESQ"; "ESQUIRE";
   "VAN"; "DE"; "DEL"; "DI"; "LA"; "ST"; "VON"].

(** Lines 115-116: the loop variable [attorney] after the substitution. *)
Definition substituted (attorney : string) : string :=
  if contains "O Connor" attorney
  then replace "O Connor" "O'Connor" attorney
  else attorney.

(** Lines 117-123, on the substituted name. *)
Definition cleaned_name (attorney : string) : list string :=
  let attorney_name := split " " attorney in
  List.filter
    (fun p => truthy (strip p) && negb (mem (upper p) suffixes_and_prefixes))
    attorney_name.

Record NameParts : Type := {
  first_name : option string;
  middle_name : option string;
  last_name : option string
}.

(** Lines 112-131. *)
Definition name_parts (cleaned : list string) : NameParts :=
  let n0 := {| first_name := None; middle_name := None; last_name := None |} in
  let n1 :=
    if length cleaned =? 2
    then {| first_name := cleaned !! 0; middle_name := middle_name n0;
            last_name := cleaned !! 1 |}
    else n0 in
  if (length cleaned =? 3) || (length cleaned =? 4)
  then {| first_name := cleaned !! 0; middle_name := cleaned !! 1;
          last_name := cleaned !! 2 |}
  else n1.

(** The name typed into the form for one entry of [attorneys_list]. *)
Definition normalize (attorney : string) : NameParts :=
  name_parts (cleaned_name (substituted attorney)).

(** Lines 241-280: the four fields of [extract_attorney_details]; a field
    whose label or value cell is missing is the empty string. *)
Record AttorneyDetails : Type := {
  Estate_Attorney : string;
  Email : string;
  Address : string;
  Phone : string
}.

(** What the browser shows for one entry of [attorneys_list].
    - [typing]: lines 134-160, clearing and typing the name fields, taken
      as a whole: [Ok] when every [clear] and [press_sequentially] went
      through. The [Fill] events of a name are those of a filling that went
      through; what a filling that fails had typed before it failed is not
      recorded;
    - [captcha_visible]: line 163;
    - [search]: line 169, the click on the search button;
    - [no_results]: lines 172-176, [None] when the error box is absent or
      hidden, else its inner text;
    - [links]: lines 183-184, the inner texts of the [.STR_Visited] links in
      document order;
    - [details i]: lines 205-219, clicking link [i], waiting for the new
      page and reading it: its URL and the fields
      [extract_attorney_details] finds in it;
    - [close]: line 219;
    - [go_back]: line 222. *)
Record Session : Type := {
  typing : result unit;
  captcha_visible : bool;
  search : result unit;
  no_results : result (option string);
  links : result (list string);
  details : nat -> result (string * AttorneyDetails);
  close : result unit;
  go_back : result unit
}.

Definition Browser : Type := string -> Session.

(** The store: the rows of [attorney_details.csv], [None] while the file
    does not exist. *)
Definition Store : Type := option (list (list Cell)).

Definition csv_path : string := "attorney_details.csv".

Definition csv_header : list Cell :=
  [CStr "Estate Attorney"; CStr "Email"; CStr "Address"; CStr "Phone"].

Definition csv_row (item : AttorneyDetails) : list Cell :=
  [CStr (Estate_Attorney item); CStr (Email item); CStr (Address item); CStr (Phone item)].

(** Lines 282-315. A failure of the file system itself is outside the
    model. *)
Definition save_to_csv (scraped_data : list AttorneyDetails) : M Store unit :=
  file <- get ;;
  let file_exists := match file with Some _ => true | None => false end in
  let old := match file with Some rows => rows | None => [] end in
  emit (CsvOpen csv_path "a") ;;;
  (if negb file_exists then emit (CsvRow csv_path csv_header) else ret tt) ;;;
  for_each (fun item => emit (CsvRow csv_path (csv_row item))) scraped_data ;;;
  put (Some (old ++ (if file_exists then [] else [csv_header]) ++ map csv_row scraped_data)) ;;;
  emit (Log INFO "Data successfully saved to attorney_details.csv").

(** Lines 191-193: the token sets of the query and of one candidate. *)
Definition token_set (s : string) : gset string := list_to_set (split_ws s).

Definition is_exact_match (search_name_upper link_inner_text : string) : bool :=
  let link_text := upper link_inner_text in
  let attorney_name_parts := token_set search_name_upper in
  let link_text_parts := token_set (replace "," " " link_text) in
  bool_decide (attorney_name_parts = link_text_parts).

(** Lines 189-196: the index and text of the first exact match, scanning
    the candidates from index [i]. *)
Fixpoint find_target (search_name_upper : string) (i : nat) (links : list string)
    : option (nat * string) :=
  match links with
  | [] => None
  | link :: rest =>
      if is_exact_match search_name_upper link then Some (i, link)
      else find_target search_name_upper (i + 1) rest
  end.

Definition fallback_warning (attorney first : string) : string :=
  "No exact match found for " +:+ attorney +:+ ". Clicking first result: " +:+ first.

(** Lines 185-203: the index of [link_to_click]. *)
Definition choose_link (attorney : string) (links : list string) : M Store nat :=
  let search_name_upper := upper attorney in
  match find_target search_name_upper 0 links with
  | Some (i, link) =>
      emit (Log INFO ("Found exact match: " +:+ upper link)) ;;;
      ret i
  | None =>
      match links with
      | [] => raise IndexError
      | first :: _ =>
          emit (Log WARNING (fallback_warning attorney first)) ;;;
          ret 0
      end
  end.

Definition field_name (which : string) : string :=
  "wmcSearchTabs:pnlAttorneySearch:nameSearchPanel:" +:+ which.

Definition type_if_set (which : string) (value : option string) : M Store unit :=
  match value with
  | Some v => if truthy v then emit (Fill (field_name which) v) else ret tt
  | None => ret tt
  end.

Definition no_results_message : string := "Your Attorney search returned no results.".

(** Lines 111-226: the [try] block of one iteration. *)
Definition search_attorney (B : Browser) (attorney0 : string) : M Store unit :=
  emit (Log INFO ("Searching Details for attorney: " +:+ attorney0)) ;;;
  let attorney := substituted attorney0 in
  let names := name_parts (cleaned_name attorney) in
  let session := B attorney0 in
  lift (typing session) ;;;
  type_if_set "strFirstName" (first_name names) ;;;
  type_if_set "strLastName" (last_name names) ;;;
  type_if_set "strMiddleName" (middle_name names) ;;;
  (if captcha_visible session then
     emit (Log INFO "!!! CAPTCHA DETECTED !!!") ;;;
     emit (Log INFO "Please resolve the captcha and then click on search.")
   else ret tt) ;;;
  lift (search session) ;;;
  emit (Click "btnSubmit") ;;;
  box <- lift (no_results session) ;;
  let none_found :=
    match box with
    | Some inner_text => contains no_results_message inner_text
    | None => false
    end in
  if none_found then
    emit (Log WARNING ("No results found for attorney: " +:+ attorney
                       +:+ " . Skipping this attorney!"))
  else
    candidates <- lift (links session) ;;
    i <- choose_link attorney candidates ;;
    emit (Click (".STR_Visited:" +:+ str_nat i)) ;;;
    new_page <- lift (details session i) ;;
    let '(new_page_url, attorney_details) := new_page in
    emit (Log INFO ("Navigated to attorney details page URL: " +:+ new_page_url)) ;;;
    emit (Log INFO ("Extracted the attorney: " +:+ Estate_Attorney attorney_details
                    +:+ " complete details")) ;;;
    emit (Log INFO "Close the attorney details page.") ;;;
    lift (close session) ;;;
    emit (Log INFO "Successfully Extracted Attorney Details") ;;;
    let scraped_attorney := [attorney_details] in
    lift (go_back session) ;;;
    emit (Log INFO "Now Saving attorney details to CSV") ;;;
    save_to_csv scraped_attorney ;;;
    emit (Log INFO "Navigated back to the form page").

(** Lines 107-230: one iteration with its [except Exception]. *)
Definition process_attorney (B : Browser) (attorney : string) : M Store unit :=
  try_except (search_attorney B attorney) any_Exception
    (fun e =>
       emit (Log ERROR ("Error processing attorney " +:+ substituted attorney
                        +:+ ": " +:+ exn_name e))).

(** Lines 83-239, for the [attorneys_list] read from [scraped_data.csv],
    once the browser is connected and the search page is loaded. *)
Definition run (B : Browser) (attorneys_list : list string) : M Store unit :=
  emit (Log INFO "Starting the New York Court script...") ;;;
  try_except
    (for_each (process_attorney B) attorneys_list ;;;
     emit (Log INFO "No more Attorneys left. Successfully Scraped all the attorneys contact details and save to CSV file.") ;;;
     emit (Log INFO "Proccess Finished: Browser Closed. Complete data saved to CSV."))
    any_Exception
    (fun e => emit (Log ERROR (newline +:+ "FATAL ERROR during execution: " +:+ exn_name e))).

(** *** [get_attorneys_list], lines 42-66 *)

(** The names kept from the rows of [scraped_data.csv]. A row is given by
    what [row.get("Estate Attorney")] answers for it: [None] when the
    column or the cell is missing. *)
Definition attorney_names (reader : list (option string)) : gset string :=
  list_to_set
    (flat_map (fun cell =>
                 match cell with
                 | Some value => if truthy value then [strip value] else []
                 | None => []
                 end)
       reader).

(** [file] is [None] when [scraped_data.csv] does not exist. Python does
    not fix the order of [list(set)]; the model lists the set in the order
    of [elements]. A row that passes the filter has the column, so the
    [except KeyError] clause is never entered. *)
Definition get_attorneys_list (file : option (list (option string)))
    : M Store (list string) :=
  match file with
  | Some reader => ret (elements (attorney_names reader))
  | None =>
      emit (Stdout "Error: scraped_data.csv does not exist.") ;;;
      ret []
  end.

(** *** [extract_attorney_details], lines 241-280 *)

(** One element of [soup.select(".CONT_Default span")]: its stripped text
    and the text of its next sibling [span.CONT_Cell], when there is one. *)
Record Span : Type := {
  get_text : string;
  find_next_sibling : option string
}.

(** Lines 263-274: the value stored for the field labelled [label_text]. *)
Definition field_of (all_spans : list Span) (label_text : string) : string :=
  match List.find (fun s => String.eqb (get_text s) label_text) all_spans with
  | Some label_span =>
      match find_next_sibling label_span with
      | Some value_span => value_span
      | None => ""
      end
  | None => ""
  end.

Definition extract_attorney_details (all_spans : list Span) : M Store AttorneyDetails :=
  let details :=
    {| Estate_Attorney := field_of all_spans "Name:";
       Email := field_of all_spans "Email:";
       Address := field_of all_spans "Business Address:";
       Phone := field_of all_spans "Business Phone:" |} in
  emit (Log INFO ("Extracted the attorney: " +:+ Estate_Attorney details
                  +:+ " complete details")) ;;;
  ret details.

End NYAttorney.

(** ** New York surrogate's court search: [newyork_court_scraper.py] *)

Module NYCourt.
Import Py Eff.
Local Open Scope eff_scope.

Definition base_url : string := "https://websurrogates.nycourts.gov".
Definition search_url : string := "https://websurrogates.nycourts.gov/File/FileSearch".
Definition max_navigation_retries : nat := 3.

(** [attorney_info], lines 124-130. *)
Record FilingRecord : Type := {
  County : option string;
  File_Number : option string;
  Proceeding_Type : option string;
  Estate_Attorney : option string;
  Estate_Attorney_Firm : option string
}.

(** One [.ButtonAsLink] of a results table.
    - [link_visible]: line 69;
    - [text_content]: line 70;
    - [click_nav]: lines 79-80;
    - [content]: line 87;
    - [fields]: the [try] block of lines 94-116;
    - [back]: line 138. *)
Record LinkSession : Type := {
  link_visible : result unit;
  text_content : option string;
  click_nav : result unit;
  content : result unit;
  fields : result FilingRecord;
  back : result unit
}.

(** One non-active [a.page-link] of the pagination control.
    - [page_link_visible]: line 171;
    - [href]: line 172;
    - [page_click]: lines 179-180;
    - [page_back]: line 188. *)
Record PageLinkSession : Type := {
  page_link_visible : result unit;
  href : option string;
  page_click : result unit;
  page_back : result unit
}.

(** One results page.
    - [table]: line 47;
    - [link_count]: lines 56-58;
    - [link i]: the [i]-th file link;
    - [pagination]: lines 163-164, [None] when the first page link is not
      visible, else the number of page links;
    - [page_link i]: the [i]-th page link. *)
Record PageView : Type := {
  table : result unit;
  link_count : result nat;
  link : nat -> LinkSession;
  pagination : result (option nat);
  page_link : nat -> PageLinkSession
}.

(** The result pages of one search: the page reached from the first one
    by clicking the page links of the given indices, innermost first. *)
Definition Site : Type := list nat -> PageView.

(** One filled-in search form.
    - [goto attempt]: lines 269-273, the page URL being the one asked for;
    - [form]: lines 294-311, the two selections, the two dates typed and
      the click on the search button;
    - [no_results_found]: lines 313-318;
    - [results_url]: [page.url] of the results page;
    - [site]: the result pages. *)
Record SearchSession : Type := {
  goto : nat -> result unit;
  form : result unit;
  no_results_found : result bool;
  results_url : string;
  site : Site
}.

(** Searches by proceeding type, county value and month name. *)
Definition Browser : Type := string -> string -> string -> SearchSession.

(** The store: the list object bound to [scraped_data] in [run] and the
    rows of [scraped_data.csv] ([None] while the file does not exist). *)
Record Store : Type := {
  scraped_data : list FilingRecord;
  csv_file : option (list (list Cell))
}.

Definition append_record (r : FilingRecord) : M Store unit :=
  st <- get ;;
  put {| scraped_data := scraped_data st ++ [r]; csv_file := csv_file st |}.

Definition csv_path : string := "scraped_data.csv".

Definition csv_header : list Cell :=
  [CStr "County"; CStr "File Number"; CStr "Proceeding Type";
   CStr "Estate Attorney"; CStr "Estate Attorney Firm"].

Definition cell_of (x : option string) : Cell :=
  match x with
  | Some s => CStr s
  | None => CNone
  end.

Definition csv_row (item : FilingRecord) : list Cell :=
  [cell_of (County item); cell_of (File_Number item); cell_of (Proceeding_Type item);
   cell_of (Estate_Attorney item); cell_of (Estate_Attorney_Firm item)].

(** Lines 360-395. A failure of the file system itself is outside the
    model. *)
Definition save_to_csv (batch : list FilingRecord) : M Store unit :=
  st <- get ;;
  let file_exists := match csv_file st with Some _ => true | None => false end in
  let old := match csv_file st with Some rows => rows | None => [] end in
  emit (CsvOpen csv_path "a") ;;;
  (if negb file_exists then emit (CsvRow csv_path csv_header) else ret tt) ;;;
  for_each (fun item => emit (CsvRow csv_path (csv_row item))) batch ;;;
  put {| scraped_data := scraped_data st;
         csv_file := Some (old ++ (if file_exists then [] else [csv_header])
                               ++ map csv_row batch) |} ;;;
  emit (Log INFO "Data successfully saved to scraped_data.csv").

(** Lines 68-138: the body of [for i in range(link_count)]. *)
Definition scrape_link (view : PageView) (county_name month_name : string) (i : nat)
    : M Store unit :=
  let current_link := link view i in
  lift (link_visible current_link) ;;;
  let file_number := match text_content current_link with Some t => t | None => "" end in
  if negb (truthy file_number) then
    emit (Log WARNING ("File Link not found for index " +:+ str_nat (i + 1)
                       +:+ " of county: " +:+ county_name +:+ " and month " +:+ month_name
                       +:+ ". Skipping this file."))
  else
    emit (Log INFO ("Clicking link for File #: " +:+ strip file_number)) ;;;
    navigated <- try_except
      (lift (click_nav current_link) ;;;
       emit (Click ("#NameResultsTable .ButtonAsLink:" +:+ str_nat i)) ;;;
       ret true)
      any_Exception
      (fun e =>
         emit (Log ERROR ("Failed to click/navigate for File #: " +:+ strip file_number
                          +:+ " of county: " +:+ county_name +:+ " and month is: "
                          +:+ month_name +:+ ". Skipping. Error: " +:+ exn_name e)) ;;;
         ret false) ;;
    if negb navigated then ret tt
    else
      lift (content current_link) ;;;
      extracted <- try_except
        (attorney_info <- lift (fields current_link) ;; ret (Some attorney_info))
        any_Exception
        (fun e =>
           emit (Log ERROR ("Data extraction failed for File #: " +:+ strip file_number
                            +:+ " of county: " +:+ county_name +:+ " and month: "
                            +:+ month_name +:+ ". Error: " +:+ exn_name e)) ;;;
           ret None) ;;
      match extracted with
      | None => ret tt
      | Some attorney_info =>
          emit (Log INFO ("Successfully Scraped Attorney Info for file #: "
                          +:+ fmt (File_Number attorney_info))) ;;;
          append_record attorney_info ;;;
          emit (Log INFO "Navigating back to the file search result page...") ;;;
          lift (back current_link)
      end.

(** Lines 169-188: the body of [for i in range(total_pages_to_scrape)];
    [visit] is the call of [get_attorney_info] on the page reached. *)
Definition scrape_page_link (view : PageView) (visit : nat -> M Store unit)
    (county_name month_name : string) (i : nat) : M Store unit :=
  let next_page_link := page_link view i in
  lift (page_link_visible next_page_link) ;;;
  let next_page_url := base_url +:+ fmt (href next_page_link) in
  emit (Log INFO ("Navigating to page " +:+ strip next_page_url
                  +:+ " for county: " +:+ county_name +:+ " and month: " +:+ month_name
                  +:+ ".")) ;;;
  navigated <- try_except
    (lift (page_click next_page_link) ;;;
     emit (Click ("ul.pagination a.page-link:" +:+ str_nat i)) ;;;
     ret true)
    any_Exception
    (fun e =>
       emit (Log ERROR ("Failed to navigate to page " +:+ strip next_page_url
                        +:+ " for county: " +:+ county_name +:+ " and month: "
                        +:+ month_name +:+ ". Skipping. Error: " +:+ exn_name e)) ;;;
       ret false) ;;
  if negb navigated then ret tt
  else
    visit i ;;;
    lift (page_back next_page_link).

(** Lines 145-195. *)
Definition get_next_page (view : PageView) (visit : nat -> M Store unit)
    (county_name month_name : string) : M Store unit :=
  emit (Log INFO "Checking pagination to see if there are additional pages to process") ;;;
  pages <- lift (pagination view) ;;
  match pages with
  | Some total_pages_to_scrape =>
      emit (Log INFO ("Found " +:+ str_nat total_pages_to_scrape
                      +:+ " subsequent pages for county: " +:+ county_name
                      +:+ " and month: " +:+ month_name +:+ ".")) ;;;
      for_each (scrape_page_link view visit county_name month_name)
        (seq 0 total_pages_to_scrape)
  | None =>
      emit (Log INFO ("Next pages not found for the county: " +:+ county_name
                      +:+ " and month: " +:+ month_name))
  end.

Definition is_builtin_TimeoutError (e : exn) : bool :=
  match e with
  | BuiltinTimeoutError => true
  | _ => false
  end.

(** Lines 33-143. [get_attorney_info] and [get_next_page] call each other
    and nothing in them bounds the nesting: Python ends it with
    [RecursionError] when the interpreter's limit is exceeded. [depth] is
    the number of nested calls that the limit leaves room for, and
    [beyond here] is what the call that exceeds it does on the page [here]:
    the error is raised somewhere inside that call, and one of its
    [except Exception] clauses may catch it, so that the call can log and
    return as well as raise. [here] is the page the browser is on. *)
Fixpoint get_attorney_info_within (beyond : list nat -> M Store unit) (depth : nat)
    (pages : Site) (here : list nat) (county_name month_name : string) : M Store unit :=
  match depth with
  | O => beyond here
  | S depth' =>
      let view := pages here in
      found <- try_except (lift (table view) ;;; ret true) any_Exception
        (fun _ =>
           emit (Log WARNING "File Search results table not found. Cannot proceed with scraping details.") ;;;
           ret false) ;;
      if negb found then ret tt
      else
        counted <- try_except
          (n <- lift (link_count view) ;;
           emit (Log INFO ("Found " +:+ str_nat n +:+ " file result links to process.")) ;;;
           ret (Some n))
          is_builtin_TimeoutError
          (fun e =>
             emit (Log ERROR ("Timed out waiting for file result links: " +:+ exn_name e
                              +:+ " (Selector: #NameResultsTable .ButtonAsLink). Skipping this result set.")) ;;;
             ret None) ;;
        match counted with
        | None => ret tt
        | Some n =>
            for_each (scrape_link view county_name month_name) (seq 0 n) ;;;
            emit (Log INFO "Checking pagination to see if there are additional pages to process") ;;;
            get_next_page view
              (fun i =>
                 get_attorney_info_within beyond depth' pages (i :: here)
                   county_name month_name)
              county_name month_name
        end
  end.

(** The traversal in which the error leaves the call that exceeds the
    limit as soon as it is entered. *)
Definition get_attorney_info (depth : nat) (pages : Site) (here : list nat)
    (county_name month_name : string) : M Store unit :=
  get_attorney_info_within (fun _ => raise RecursionError) depth pages here
    county_name month_name.

(** Lines 197-217. *)
Record MonthRange : Type := {
  month_name : string;
  start_date : string;
  end_date : string
}.

Definition month_names : list string :=
  ["January"; "February"; "March"; "April"; "May"; "June"; "July";
   "August"; "September"; "October"; "November"; "December"].

Definition is_leap (year : nat) : bool :=
  (year mod 4 =? 0) && (negb (year mod 100 =? 0) || (year mod 400 =? 0)).

Definition days_in_month (year month : nat) : nat :=
  match month with
  | 2 => if is_leap year then 29 else 28
  | 4 | 6 | 9 | 11 => 30
  | _ => 31
  end.

(** [strftime("%m/%d/%Y")] for a four-digit year. *)
Definition format_date (year month day : nat) : string :=
  format_02d month +:+ "/" +:+ format_02d day +:+ "/" +:+ str_nat year.

Definition generate_monthly_ranges (year : nat) : list MonthRange :=
  map (fun month =>
         {| month_name := nth month month_names "";
            start_date := format_date year (month + 1) 1;
            end_date := format_date year (month + 1) (days_in_month year (month + 1)) |})
    (seq 0 12).

(** Lines 264-289: the retry loop around [page.goto]. *)
Fixpoint navigate (session : SearchSession) (attempts : list nat) : M Store unit :=
  match attempts with
  | [] => ret tt
  | attempt :: rest =>
      arrived <- try_except
        (emit (Log INFO ("Navigation Attempt " +:+ str_nat (attempt + 1) +:+ "/"
                         +:+ str_nat max_navigation_retries +:+ " to " +:+ search_url)) ;;;
         lift (goto session attempt) ;;;
         emit (Log INFO ("Navigated to search page: " +:+ search_url)) ;;;
         ret true)
        any_Exception
        (fun e =>
           if attempt <? max_navigation_retries - 1 then
             emit (Log WARNING ("Navigation failed (" +:+ exn_name e +:+ "). Retrying in 5s...")) ;;;
             ret false
           else
             emit (Log CRITICAL ("FATAL ERROR: Navigation failed after "
                                 +:+ str_nat max_navigation_retries
                                 +:+ " attempts. Terminating script.")) ;;;
             raise e) ;;
      if arrived then ret tt else navigate session rest
  end.

(** Lines 262-338: the body of [for range_info in monthly_ranges]. *)
Definition search_month (B : Browser) (depth : nat)
    (proceeding_type_input county_value county_name : string) (range_info : MonthRange)
    : M Store unit :=
  let session := B proceeding_type_input county_value (month_name range_info) in
  navigate session (seq 0 max_navigation_retries) ;;;
  emit (Log INFO ("Attempting to fill the search form with county: " +:+ county_name
                  +:+ " and proceeding type: " +:+ proceeding_type_input
                  +:+ " and month: " +:+ month_name range_info)) ;;;
  emit (Fill "#CourtSelect" county_value) ;;;
  emit (Fill "#SelectedProceeding" proceeding_type_input) ;;;
  emit (Fill "#txtFilingDateFrom" (start_date range_info)) ;;;
  emit (Fill "#txtFilingDateTo" (end_date range_info)) ;;;
  emit (Log INFO "Clicking on the search button") ;;;
  lift (form session) ;;;
  emit (Click "#FileSearchSubmit2") ;;;
  none_found <- lift (no_results_found session) ;;
  if none_found then
    emit (Log INFO ("No results found for county: " +:+ county_name +:+ " for month "
                    +:+ month_name range_info +:+ " and proceeding type: "
                    +:+ proceeding_type_input +:+ "."))
  else
    emit (Log INFO ("Navigated to file search results page: " +:+ results_url session)) ;;;
    get_attorney_info depth (site session) [] county_name (month_name range_info) ;;;
    emit (Log INFO ("Completed processing for " +:+ month_name range_info
                    +:+ " records of county: " +:+ county_name +:+ ".")).

(** Lines 261-338: a fresh batch, then the loop over the months. *)
Definition search_months (B : Browser) (depth : nat) (monthly_ranges : list MonthRange)
    (proceeding_type_input county_value county_name : string) : M Store unit :=
  st <- get ;;
  put {| scraped_data := []; csv_file := csv_file st |} ;;;
  for_each (search_month B depth proceeding_type_input county_value county_name)
    monthly_ranges.

(** Lines 340-348: the batch is written when it is not empty. *)
Definition save_county (proceeding_type_input county_name : string) : M Store unit :=
  st <- get ;;
  match scraped_data st with
  | _ :: _ =>
      emit (Log INFO ("Successfully Scraped data of county: " +:+ county_name
                      +:+ " and its proceeding type: " +:+ proceeding_type_input
                      +:+ ". For all months, Now Saving Data to CSV")) ;;;
      save_to_csv (scraped_data st)
  | [] =>
      emit (Log INFO ("No data scraped for county: " +:+ county_name
                      +:+ " and proceeding type: " +:+ proceeding_type_input
                      +:+ ". Because no pagination links were found."))
  end.

(** Lines 258-348: the body of [for county in all_countys]; a county is
    the pair of its option value and its name. *)
Definition scrape_county (B : Browser) (depth : nat) (monthly_ranges : list MonthRange)
    (proceeding_type_input : string) (county : string * string) : M Store unit :=
  let '(county_value, county_name) := county in
  search_months B depth monthly_ranges proceeding_type_input county_value county_name ;;;
  save_county proceeding_type_input county_name.

(** Lines 243-256: the two passes of the [while True] loop. *)
Definition proceeding_types : list string :=
  ["PROBATE & PRELIMINARY PETITIONS"; "ADMINISTRATION PETITION"].

Definition scrape_proceeding_type (B : Browser) (depth : nat)
    (monthly_ranges : list MonthRange) (all_countys : list (string * string))
    (proceeding_type_input : string) : M Store unit :=
  emit (Log INFO ("Start scraping for proceeding type: " +:+ proceeding_type_input)) ;;;
  for_each (scrape_county B depth monthly_ranges proceeding_type_input) all_countys.

(** Lines 219-358, after the county options were read from the form; the
    result is the exit status of the process. *)
Definition run (B : Browser) (depth : nat) (all_countys : list (string * string))
    : M Store nat :=
  emit (Log INFO "Starting the New York Court script...") ;;;
  try_except
    (let target_year := 2024 in
     let monthly_ranges := generate_monthly_ranges target_year in
     for_each (scrape_proceeding_type B depth monthly_ranges all_countys)
       proceeding_types ;;;
     emit (Log INFO "Scraped complete data for both proceeding types PROBATE & PRELIMINARY PETITIONS and ADMINISTRATION PETITIONS.") ;;;
     emit (Log INFO "Tab closed. Script finished successfully. Scraped all records.") ;;;
     ret 0)
    any_Exception
    (fun e =>
       emit (Log ERROR (newline +:+ "FATAL ERROR during execution: " +:+ exn_name e)) ;;;
       ret 1).

End NYCourt.

(** ** Observations on traces *)

Module Obs.
Import Py Eff.

(** The trace and the outcome of a computation started in [w]. *)
Definition trace_of {S A} (m : M S A) (w : list Event * S) : list Event :=
  fst (fst (m w)).

Definition store_of {S A} (m : M S A) (w : list Event * S) : S :=
  snd (fst (m w)).

Definition outcome_of {S A} (m : M S A) (w : list Event * S) : result A :=
  snd (m w).

(** The world a computation leaves behind. *)
Definition after {S A} (m : M S A) (w : list Event * S) : list Event * S :=
  fst (m w).

Definition is_csv (ev : Event) : bool :=
  match ev with
  | CsvOpen _ _ | CsvRow _ _ => true
  | _ => false
  end.

Definition is_http (ev : Event) : bool :=
  match ev with
  | HttpGet _ => true
  | _ => false
  end.

(** The URLs requested, in order. *)
Definition requests (tr : list Event) : list string :=
  flat_map (fun ev => match ev with HttpGet url => [url] | _ => [] end) tr.

(** The values typed into form fields, in order. *)
Definition fills (tr : list Event) : list string :=
  flat_map (fun ev => match ev with Fill _ value => [value] | _ => [] end) tr.

(** The rows handed to [csv.writer], in order. *)
Definition csv_rows (tr : list Event) : list (list Cell) :=
  flat_map (fun ev => match ev with CsvRow _ row => [row] | _ => [] end) tr.

(** The number of times a CSV file was opened for writing. *)
Definition csv_opens (tr : list Event) : nat :=
  length (List.filter (fun ev => match ev with CsvOpen _ _ => true | _ => false end) tr).

(** The events of the North Carolina case lookups: log lines, requests
    and downloads, but no form input and no CSV output. *)
Definition is_lookup (ev : Event) : bool :=
  match ev with
  | Log _ _ | Stdout _ | HttpGet _ | MakeDirs _ | FileOpenWb _ => true
  | _ => false
  end.

Definition is_fill (ev : Event) : bool :=
  match ev with
  | Fill _ _ => true
  | _ => false
  end.

(** The requests and the files opened for writing, in order. *)
Definition is_transfer (ev : Event) : bool :=
  match ev with
  | HttpGet _ | FileOpenWb _ => true
  | _ => false
  end.

Definition transfers (tr : list Event) : list Event := List.filter is_transfer tr.

(** A computation ends normally with the value [r], having appended the
    events [evs] and left the store alone. *)
Definition yields {S A} (m : M S A) (w : list Event * S) (evs : list Event) (r : A)
    : Prop :=
  m w = ((fst w ++ evs, snd w), Ok r).

(** The CSV file of the New York court run is as it was. *)
Definition same_file (s s' : NYCourt.Store) : Prop :=
  NYCourt.csv_file s' = NYCourt.csv_file s.

(** The names of a list of attorney entries. *)
Definition names_of (attorneys : list NC.AttorneyInfo) : list (option string) :=
  map NC.AttorneyName attorneys.

(** Reads a decimal numeral, leading zeros allowed. *)
Definition decode (s : string) : option nat :=
  option_map Nat.of_uint (NilEmpty.uint_of_string s).

(** No character of [s] is [c]. *)
Fixpoint no_char (c : ascii) (s : string) : bool :=
  match s with
  | EmptyString => true
  | String a s' => negb (Ascii.eqb a c) && no_char c s'
  end.

(** A computation only appends events, all of them satisfying [Q], and
    leaves a store related by [R] to the one it started in. *)
Definition appends {S A} (Q : Event -> Prop) (R : S -> S -> Prop) (m : M S A) : Prop :=
  forall w, exists evs,
    trace_of m w = fst w ++ evs /\ Forall Q evs /\ R (snd w) (store_of m w).

(** The batch of the North Carolina run grows by records that are not
    small estates. *)
Definition grows (s s' : NC.Store) : Prop :=
  exists new,
    s' = s ++ new
    /\ Forall (fun r => NC.Case_Type r <> Some NC.small_estate) new.

End Obs.

Import Py Eff Obs.
Local Open Scope eff_scope.

(** ** Statements the programs are compared with *)

Module Stated.

(** The parties whose attorney count is strictly greater than [best] and
    than the count of every party before them. *)
Fixpoint record_parties (best : nat) (parties : list NC.Party) : list NC.Party :=
  match parties with
  | [] => []
  | p :: rest =>
      if best <? length (NC.CasePartyAttorneys p)
      then p :: record_parties (length (NC.CasePartyAttorneys p)) rest
      else record_parties best rest
  end.

(** The name and the first document of a Bond event that has documents. *)
Definition bond_document (ev : NC.CaseEvent) : option (string * NC.Document) :=
  match NC.EventTypeDescription ev, NC.Documents ev with
  | Some name, doc :: _ =>
      if Py.contains "Bond" name then Some (name, doc) else None
  | _, _ => None
  end.

(** The Bond events whose document is fetched: those with a document and
    with a file name that is not in [seen] and is not the file name of an
    earlier one. *)
Fixpoint selected (seen : list string) (events : list NC.CaseEvent)
    : list (string * NC.Document) :=
  match events with
  | [] => []
  | ev :: rest =>
      match bond_document ev with
      | Some (name, doc) =>
          if Py.mem (NC.formatted_file_name name) seen then selected seen rest
          else (name, doc) :: selected (seen ++ [NC.formatted_file_name name]) rest
      | None => selected seen rest
      end
  end.

(** One try of a download: the request, the file opened unless the
    request failed, and whether the file was written. *)
Definition attempt_transfers (P : NC.Portal) (url path : string) (attempt : nat)
    : list Eff.Event * bool :=
  match NC.DisplayDoc P url attempt with
  | NC.GetFails _ => ([Eff.HttpGet url], false)
  | NC.StreamFails _ => ([Eff.HttpGet url; Eff.FileOpenWb path], false)
  | NC.Downloaded => ([Eff.HttpGet url; Eff.FileOpenWb path], true)
  end.

(** The tries of one URL, up to the first that succeeds. *)
Fixpoint file_transfers (P : NC.Portal) (url path : string) (attempts : list nat)
    : list Eff.Event * bool :=
  match attempts with
  | [] => ([], false)
  | attempt :: rest =>
      let (evs, written) := attempt_transfers P url path attempt in
      if written then (evs, true)
      else let (evs', written') := file_transfers P url path rest in
           (evs ++ evs', written')
  end.

(** The URLs of the parent links in order, up to the first that is
    downloaded, each tried twice at most. *)
Fixpoint link_transfers (P : NC.Portal) (path : string) (urls : list string)
    : list Eff.Event :=
  match urls with
  | [] => []
  | url :: rest =>
      let (evs, written) := file_transfers P url path (seq 0 2) in
      evs ++ (if written then [] else link_transfers P path rest)
  end.

Definition document_path (case_no name : string) : string :=
  NC.path_join (NC.path_join (NC.path_join "Scraped Data" "Scraped PDF's") case_no)
    (NC.formatted_file_name name +:+ ".pdf").

Definition document_urls (case_no : string) (sel : string * NC.Document) : list string :=
  let '(name, doc) := sel in
  let doc_id := match NC.first_fragment_id doc with
                | Py.Ok id => id
                | Py.Raise _ => None
                end in
  map (fun link =>
         NC.case_pdf_url doc_id case_no link (NC.DocTypeCodeID doc)
           (NC.DocTypeDescription doc) (NC.DocumentName doc)
           (NC.sanitized_event_name name))
    (NC.ParentLinks doc).

Definition document_transfers (P : NC.Portal) (case_no : string)
    (sel : string * NC.Document) : list Eff.Event :=
  link_transfers P (document_path case_no (fst sel)) (document_urls case_no sel).

(** What one event adds to the file names seen so far and to the
    transfers. *)
Definition event_plan (P : NC.Portal) (case_no : string) (seen : list string)
    (ev : NC.CaseEvent) : list string * list Eff.Event :=
  match bond_document ev with
  | Some (name, doc) =>
      if Py.mem (NC.formatted_file_name name) seen then (seen, [])
      else (seen ++ [NC.formatted_file_name name],
            document_transfers P case_no (name, doc))
  | None => (seen, [])
  end.

(** Every event has a type description, and the first document of every
    Bond event has a fragment id. *)
Definition well_formed (events : list NC.CaseEvent) : Prop :=
  Forall (fun ev =>
            (exists name, NC.EventTypeDescription ev = Some name)
            /\ forall name doc, bond_document ev = Some (name, doc) ->
                                exists id, NC.first_fragment_id doc = Py.Ok id)
    events.

(** A download fails with a connection error or a broken stream only,
    the two errors [download_file] retries. *)
Definition transient_failures_only (P : NC.Portal) : Prop :=
  forall url attempt e,
    NC.DisplayDoc P url attempt = NC.GetFails e
    \/ NC.DisplayDoc P url attempt = NC.StreamFails e ->
    NC.retried e = true.

(** The search criterion of the [k]-th search, counted from 0. *)
Definition criterion (k : nat) : string :=
  "24E00" +:+ Py.format_02d (2 * k) +:+ "*".

(** At most [N] criteria are typed by a computation of the North Carolina
    run, and they are [f 0], [f 1], ... in this order. *)
Definition searches {A} (f : nat -> string) (N : nat) (m : Eff.M NC.Store A) : Prop :=
  forall w, exists n,
    n <= N /\ Obs.fills (Obs.trace_of m w) = Obs.fills (fst w) ++ map f (seq 0 n).

(** The steps of a search up to the banner succeed. *)
Definition reaches_banner (session : NC.SearchSession) : Prop :=
  (exists key, NC.site_key session = Py.Ok key)
  /\ NC.fill session = Py.Ok tt
  /\ NC.submit session = Py.Ok tt.

(** The banner shown for a search says that no case matches. *)
Definition says_no_cases (session : NC.SearchSession) : Prop :=
  exists inner_text,
    NC.banner session = Py.Ok (Some inner_text)
    /\ Py.contains "No cases match your search" (Py.strip inner_text) = true.

(** A search that shows results, whose rows are all scraped without an
    uncaught exception, and from which the browser gets back to the form. *)
Definition shows_cases (P : NC.Portal) (session : NC.SearchSession) : Prop :=
  reaches_banner session
  /\ (exists message,
        NC.banner session = Py.Ok message
        /\ match message with
           | Some inner_text =>
               Py.contains "No cases match your search" (Py.strip inner_text) = false
           | None => True
           end)
  /\ NC.rows session = Py.Ok tt
  /\ (exists dropdown, NC.page_size session = Py.Ok dropdown)
  /\ (exists all_cases,
        NC.grid session = Py.Ok all_cases
        /\ forall w, Obs.outcome_of (NC.scrape_cases P all_cases) w = Py.Ok tt)
  /\ NC.go_back session = Py.Ok tt.

(** The identity and the case type of a row can be read, and its attorney
    and PDF lookups raise request errors only. *)
Definition guarded_row (P : NC.Portal) (case : NC.CaseRow) : Prop :=
  exists case_url case_no case_api_id,
    NC.case_identity case = Py.Ok (case_url, case_no, case_api_id)
    /\ (exists check_case_type,
          NC.CaseSummariesSlim P (NC.case_type_url_of case_api_id)
          = Py.Ok check_case_type)
    /\ (forall e,
          NC.Parties P (NC.complete_case_url_of case_api_id) = Py.Raise e ->
          Py.is_RequestException e = true)
    /\ (forall w e,
          Obs.outcome_of
            (NC.find_pdf_files P (NC.case_pdf_api_of case_api_id) case_no) w
          = Py.Raise e ->
          Py.is_RequestException e = true).

(** A computation of the New York attorney run leaves the CSV file alone
    or opens it once and writes one data row, after the header when the
    file is new. *)
Definition writes_one_record_at_most {A} (m : Eff.M NYAttorney.Store A) : Prop :=
  forall w,
    let tr := Obs.trace_of m w in
    (Obs.csv_opens tr = Obs.csv_opens (fst w) /\ Obs.csv_rows tr = Obs.csv_rows (fst w))
    \/ (exists d,
          Obs.csv_opens tr = Obs.csv_opens (fst w) + 1
          /\ Obs.csv_rows tr
             = Obs.csv_rows (fst w)
               ++ match snd w with
                  | None => [NYAttorney.csv_header]
                  | Some _ => []
                  end
               ++ [NYAttorney.csv_row d]).

(** The steps of a file link that no [try] block covers succeed. *)
Definition guarded_link (l : NYCourt.LinkSession) : Prop :=
  NYCourt.link_visible l = Py.Ok tt
  /\ NYCourt.content l = Py.Ok tt
  /\ NYCourt.back l = Py.Ok tt.

(** The first attorney of every name, in order; [seen] holds the names
    met before. *)
Fixpoint first_of_each_name (seen : list (option string)) (l : list NC.Attorney)
    : list NC.Attorney :=
  match l with
  | [] => []
  | a :: rest =>
      if existsb (NC.name_eqb (NC.FormattedName a)) seen
      then first_of_each_name seen rest
      else a :: first_of_each_name (seen ++ [NC.FormattedName a]) rest
  end.

(** The exception a download attempt ends with, if it fails. *)
Definition failure_of (d : NC.DownloadOutcome) : option Py.exn :=
  match d with
  | NC.GetFails e | NC.StreamFails e => Some e
  | NC.Downloaded => None
  end.

(** One of the parent links of a fetched document serves the file within
    two tries. *)
Definition document_written (P : NC.Portal) (case_no : string)
    (sel : string * NC.Document) : bool :=
  existsb
    (fun url => snd (file_transfers P url (document_path case_no (fst sel)) (seq 0 2)))
    (document_urls case_no sel).

(** The flag after the documents of [plan] were fetched in turn: that of
    the last document that has a parent link. *)
Definition flag_after (P : NC.Portal) (case_no : string)
    (plan : list (string * NC.Document)) (pdf_found : bool) : bool :=
  fold_left
    (fun found sel =>
       match NC.ParentLinks (snd sel) with
       | [] => found
       | _ :: _ => document_written P case_no sel
       end)
    plan pdf_found.

(** What a row of the results grid contributes to the batch: nothing for
    a small estate, else the case number, the case type and the attorneys
    of the parties payload (none when that request fails). *)
Definition row_entry (P : NC.Portal) (case : NC.CaseRow)
    : option (string * option string * list NC.AttorneyInfo) :=
  match NC.case_identity case with
  | Py.Ok (_, case_no, case_api_id) =>
      match NC.CaseSummariesSlim P (NC.case_type_url_of case_api_id) with
      | Py.Ok check_case_type =>
          if bool_decide (check_case_type = Some NC.small_estate) then None
          else Some (case_no, check_case_type,
                     match NC.Parties P (NC.complete_case_url_of case_api_id) with
                     | Py.Ok all_parties => NC.collect_attorneys all_parties
                     | Py.Raise _ => []
                     end)
      | Py.Raise _ => None
      end
  | Py.Raise _ => None
  end.

Definition entry_of (r : NC.CaseRecord)
    : string * option string * list NC.AttorneyInfo :=
  (NC.Case_Number r, NC.Case_Type r, NC.Attorney_Info r).

(** The record a file link of the New York results table contributes:
    none when the link has no text, when the click fails or when the
    extraction fails. *)
Definition link_record (l : NYCourt.LinkSession) : option NYCourt.FilingRecord :=
  match NYCourt.text_content l with
  | Some file_number =>
      if Py.truthy file_number then
        match NYCourt.click_nav l, NYCourt.fields l with
        | Py.Ok _, Py.Ok attorney_info => Some attorney_info
        | _, _ => None
        end
      else None
  | None => None
  end.

(** Every page of the site shows its table, file links that can be
    scraped, and a first page link that is visible and can be clicked. *)
Definition every_page_links_on (pages : NYCourt.Site) : Prop :=
  forall here,
    NYCourt.table (pages here) = Py.Ok tt
    /\ (exists n, NYCourt.link_count (pages here) = Py.Ok n
                  /\ forall i, i < n -> guarded_link (NYCourt.link (pages here) i))
    /\ (exists n, NYCourt.pagination (pages here) = Py.Ok (Some (S n)))
    /\ NYCourt.page_link_visible (NYCourt.page_link (pages here) 0) = Py.Ok tt
    /\ NYCourt.page_click (NYCourt.page_link (pages here) 0) = Py.Ok tt.

(** [scraped_data.csv] of the New York court run, when it exists, is the
    header followed by rows of filing records. *)
Definition court_file_ok (st : NYCourt.Store) : Prop :=
  match NYCourt.csv_file st with
  | None => True
  | Some rows => exists batch, rows = NYCourt.csv_header :: map NYCourt.csv_row batch
  end.

(** [attorney_details.csv], when it exists, is the header followed by rows
    of attorney details. *)
Definition attorney_file_ok (st : NYAttorney.Store) : Prop :=
  match st with
  | None => True
  | Some rows => exists items, rows = NYAttorney.csv_header :: map NYAttorney.csv_row items
  end.

(** The first span labelled [label] decides the value [v] of a field; a
    label that is on no span gives the empty string. *)
Definition first_label_decides (all_spans : list NYAttorney.Span) (label v : string)
    : Prop :=
  (Forall (fun s => NYAttorney.get_text s <> label) all_spans /\ v = "")
  \/ (exists before s after,
        all_spans = before ++ s :: after
        /\ Forall (fun s' => NYAttorney.get_text s' <> label) before
        /\ NYAttorney.get_text s = label
        /\ v = match NYAttorney.find_next_sibling s with
               | Some text => text
               | None => ""
               end).

(** The number of times [page.goto] was tried: one log line per try. *)
Definition navigation_attempts (tr : list Eff.Event) : nat :=
  length
    (List.filter
       (fun ev =>
          match ev with
          | Eff.Log Eff.INFO msg => String.prefix "Navigation Attempt " msg
          | _ => false
          end)
       tr).

(** The number of clicks on a link of the pagination control. *)
Definition page_link_clicks (tr : list Eff.Event) : nat :=
  length
    (List.filter
       (fun ev =>
          match ev with
          | Eff.Click target => String.prefix "ul.pagination a.page-link:" target
          | _ => false
          end)
       tr).

(** A computation opens a CSV file [n] times at most. *)
Definition opens_at_most {S A} (n : nat) (m : Eff.M S A) : Prop :=
  forall w, Obs.csv_opens (Obs.trace_of m w) <= Obs.csv_opens (fst w) + n.

(** A computation types the values of [plan] into form fields, in this
    order, and then no other; should it end with an exception, it has
    typed the first values of the plan only. *)
Definition types_along {S A} (plan : list string) (m : Eff.M S A) : Prop :=
  forall w, exists typed,
    Obs.fills (Obs.trace_of m w) = Obs.fills (fst w) ++ typed
    /\ match Obs.outcome_of m w with
       | Py.Ok _ => typed = plan
       | Py.Raise _ => exists rest, plan = typed ++ rest
       end.

(** The values typed for one search of the New York court form, and for a
    whole run: every month of every county for every proceeding type. *)
Definition month_plan (proceeding_type_input county_value : string)
    (range_info : NYCourt.MonthRange) : list string :=
  [county_value; proceeding_type_input;
   NYCourt.start_date range_info; NYCourt.end_date range_info].

Definition search_plan (monthly_ranges : list NYCourt.MonthRange)
    (all_countys : list (string * string)) (types : list string) : list string :=
  flat_map
    (fun proceeding_type_input =>
       flat_map
         (fun county => flat_map (month_plan proceeding_type_input (fst county))
                          monthly_ranges)
         all_countys)
    types.

(** The values typed for one attorney: first, last and middle name, those
    that are set. *)
Definition typed_name (value : option string) : list string :=
  match value with
  | Some v => if Py.truthy v then [v] else []
  | None => []
  end.

Definition attorney_plan (attorney : string) : list string :=
  let names := NYAttorney.normalize attorney in
  typed_name (NYAttorney.first_name names)
  ++ typed_name (NYAttorney.last_name names)
  ++ typed_name (NYAttorney.middle_name names).




(** A search criterion begins with "24E00" and an odd number of two
    digits. *)
Definition odd_two_digit_prefix (c : string) : bool :=
  existsb
    (fun m => Nat.odd m && String.prefix ("24E00" +:+ Py.format_02d m) c)
    (seq 0 100).

(** A computation only adds events to the trace. *)
Definition only_adds_events {S A} (m : Eff.M S A) : Prop :=
  forall w, exists evs, Obs.trace_of m w = fst w ++ evs.

End Stated.

(** ** Concrete inputs used in the examples *)

Module Sample.

Definition attorney (name : string) : NC.Attorney :=
  {| NC.FormattedName := Some name; NC.Addresses := [] |}.

Definition party_of (names : list string) : NC.Party :=
  {| NC.CasePartyAttorneys := map attorney names |}.

Definition info (name : string) : NC.AttorneyInfo :=
  {| NC.AttorneyName := Some name; NC.AttorneyAddress := CStr "" |}.

Definition case_with (case_no : string) (names : list string) : NC.CaseRecord :=
  {| NC.Case_Number := case_no;
     NC.Case_Type := Some "Decedents' Estate";
     NC.Attorney_Info := map info names;
     NC.PDF_File := "Not Found" |}.

(** An address without a city. *)
Definition address_without_city : NC.Address :=
  {| NC.AddressLine1 := "1 Main St"; NC.AddressLine2 := ""; NC.AddressLine3 := "";
     NC.AddressLine4 := ""; NC.City := ""; NC.State := "NC"; NC.PostalCode := "27601" |}.

(** A results row whose link carries the case id [id]. *)
Definition row (id case_no : string) : NC.CaseRow :=
  {| NC.caseLink :=
       Some {| NC.data_url := Some ("/Portal/Case/CaseDetail?id=" +:+ id +:+ "&p=1");
               NC.link_text := case_no |} |}.

Definition bond_document : NC.Document :=
  {| NC.DocumentVersions := [[Some "9001"]];
     NC.DocTypeCodeID := Some "77";
     NC.DocTypeDescription := Some "Bond";
     NC.DocumentName := Some "bond.pdf";
     NC.ParentLinks := [ {| NC.NodeID := Some "10"; NC.ParentID := Some "500" |};
                         {| NC.NodeID := Some "11"; NC.ParentID := Some "501" |} ] |}.

(** Two Bond events with different names, an unrelated event, and a
    second event named like the first. *)
Definition bond_events : list NC.CaseEvent :=
  [ {| NC.EventTypeDescription := Some "Bond"; NC.Documents := [bond_document] |};
    {| NC.EventTypeDescription := Some "Order"; NC.Documents := [bond_document] |};
    {| NC.EventTypeDescription := Some "Surety Bond/Rider"; NC.Documents := [bond_document] |};
    {| NC.EventTypeDescription := Some "Bond"; NC.Documents := [bond_document] |} ].

(** Case 101 is an estate with two parties and Bond events, case 102 is a
    small estate, the case-type request of case 103 fails, and the lookups
    of case 104 fail with request errors. A document is not served at
    location 10. *)
Definition portal : NC.Portal :=
  {| NC.CaseSummariesSlim := fun url =>
       if String.eqb url (NC.case_type_url_of "102") then Ok (Some NC.small_estate)
       else if String.eqb url (NC.case_type_url_of "103") then Raise ConnectionError
       else Ok (Some "Decedents' Estate");
     NC.Parties := fun url =>
       if String.eqb url (NC.complete_case_url_of "101")
       then Ok [party_of ["X"]; party_of ["Y"; "Z"]]
       else if String.eqb url (NC.complete_case_url_of "104") then Raise HTTPError
       else Ok [];
     NC.CaseEvents := fun url =>
       if String.eqb url (NC.case_pdf_api_of "101") then Ok bond_events
       else if String.eqb url (NC.case_pdf_api_of "104") then Raise ConnectionError
       else Ok [];
     NC.DisplayDoc := fun url attempt =>
       if contains "locationId=10&" url then
         match attempt with
         | 0 => NC.GetFails ConnectionError
         | _ => NC.StreamFails ChunkedEncodingError
         end
       else NC.Downloaded |}.

(** A search page that shows the given banner and rows. *)
Definition search_session (banner : option string) (page_size : option bool)
    (grid : result (list NC.CaseRow)) : NC.SearchSession :=
  {| NC.site_key := Ok (Some "6Lc-sample-site-key");
     NC.fill := Ok tt;
     NC.solver := Ok (Some "token");
     NC.submit := Ok tt;
     NC.current_url := "https://portal-nc.tylertech.cloud/Portal/Home/WorkspaceMode?p=0";
     NC.banner := Ok banner;
     NC.rows := Ok tt;
     NC.page_size := Ok page_size;
     NC.grid := grid;
     NC.go_back := Ok tt |}.

(** The searches "24E0000*" and "24E0002*" show cases, every other one
    shows the banner. *)
Definition browser : NC.Browser :=
  fun record_number =>
    if String.eqb record_number "24E0000*" then
      search_session (Some "Cases") (Some true)
        (Ok [row "101" "24E000001"; row "102" "24E000002"])
    else if String.eqb record_number "24E0002*" then
      search_session None None (Ok [row "104" "24E000201"])
    else
      search_session (Some " No cases match your search. ") None
        (Raise PlaywrightTimeout).

(** The result page of the query "John Smith" with two candidates, and
    that of "Robert Jones" with one. *)
Definition found : NYAttorney.AttorneyDetails :=
  {| NYAttorney.Estate_Attorney := "JOHN SMITH"; NYAttorney.Email := "js@example.org";
     NYAttorney.Address := "1 Court St"; NYAttorney.Phone := "555-0100" |}.

Definition attorney_browser : NYAttorney.Browser :=
  fun attorney =>
    {| NYAttorney.typing := Ok tt;
       NYAttorney.captcha_visible := false;
       NYAttorney.search := Ok tt;
       NYAttorney.no_results := Ok None;
       NYAttorney.links :=
         if String.eqb attorney "John Smith" then Ok ["Smith, John A"; "Smith, John"]
         else if String.eqb attorney "Robert Jones" then Ok ["Jones, Robert B"]
         else Raise PlaywrightTimeout;
       NYAttorney.details := fun i =>
         Ok ("https://iapps.courts.state.ny.us/attorneyservices/wicket/page?" +:+ str_nat i,
             found);
       NYAttorney.close := Ok tt;
       NYAttorney.go_back := Ok tt |}.

(** A results page with three file links: the click on the first fails,
    the extraction of the second fails, the third is scraped. *)
Definition filing : NYCourt.FilingRecord :=
  {| NYCourt.County := Some "Kings"; NYCourt.File_Number := Some "2024-17";
     NYCourt.Proceeding_Type := Some "PROBATE PETITION";
     NYCourt.Estate_Attorney := Some "John Smith";
     NYCourt.Estate_Attorney_Firm := None |}.

Definition file_link (click_nav : result unit) (fields : result NYCourt.FilingRecord)
    : NYCourt.LinkSession :=
  {| NYCourt.link_visible := Ok tt; NYCourt.text_content := Some " 2024-17 ";
     NYCourt.click_nav := click_nav; NYCourt.content := Ok tt;
     NYCourt.fields := fields; NYCourt.back := Ok tt |}.

Definition view : NYCourt.PageView :=
  {| NYCourt.table := Ok tt;
     NYCourt.link_count := Ok 3;
     NYCourt.link := fun i =>
       match i with
       | 0 => file_link (Raise PlaywrightTimeout) (Ok filing)
       | 1 => file_link (Ok tt) (Raise AttributeError)
       | _ => file_link (Ok tt) (Ok filing)
       end;
     NYCourt.pagination := Ok None;
     NYCourt.page_link := fun _ =>
       {| NYCourt.page_link_visible := Ok tt; NYCourt.href := None;
          NYCourt.page_click := Ok tt; NYCourt.page_back := Ok tt |} |}.

(** Only Kings county has filings, in January, on the sample page. *)
Definition court_browser : NYCourt.Browser :=
  fun proceeding_type county_value month_name =>
    {| NYCourt.goto := fun _ => Ok tt;
       NYCourt.form := Ok tt;
       NYCourt.no_results_found :=
         Ok (negb (String.eqb county_value "24" && String.eqb month_name "January"));
       NYCourt.results_url := "https://websurrogates.nycourts.gov/Names/NameSearchResults";
       NYCourt.site := fun _ => view |}.

(** A payload with two Bond events: the document of the first is served
    at location 11, that of the second is asked for at location 10 only. *)
Definition rider_document : NC.Document :=
  {| NC.DocumentVersions := [[Some "9002"]];
     NC.DocTypeCodeID := Some "77";
     NC.DocTypeDescription := Some "Bond";
     NC.DocumentName := Some "rider.pdf";
     NC.ParentLinks := [ {| NC.NodeID := Some "10"; NC.ParentID := Some "500" |} ] |}.

Definition served_document : NC.Document :=
  {| NC.DocumentVersions := [[Some "9003"]];
     NC.DocTypeCodeID := Some "77";
     NC.DocTypeDescription := Some "Bond";
     NC.DocumentName := Some "bond.pdf";
     NC.ParentLinks := [ {| NC.NodeID := Some "11"; NC.ParentID := Some "501" |} ] |}.

Definition late_failure_events : list NC.CaseEvent :=
  [ {| NC.EventTypeDescription := Some "Bond"; NC.Documents := [served_document] |};
    {| NC.EventTypeDescription := Some "Bond Rider"; NC.Documents := [rider_document] |} ].

(** The sample portal, answering every events request with [events]. *)
Definition portal_with (events : list NC.CaseEvent) : NC.Portal :=
  {| NC.CaseSummariesSlim := NC.CaseSummariesSlim portal;
     NC.Parties := NC.Parties portal;
     NC.CaseEvents := fun _ => Ok events;
     NC.DisplayDoc := NC.DisplayDoc portal |}.

(** A result set of two pages, each showing one file link and a link to
    the other page. *)
Definition two_pages : NYCourt.Site :=
  fun _ =>
    {| NYCourt.table := Ok tt;
       NYCourt.link_count := Ok 1;
       NYCourt.link := fun _ => file_link (Ok tt) (Ok filing);
       NYCourt.pagination := Ok (Some 1);
       NYCourt.page_link := fun _ =>
         {| NYCourt.page_link_visible := Ok tt;
            NYCourt.href := Some "/Names/NameSearchResults?page=2";
            NYCourt.page_click := Ok tt; NYCourt.page_back := Ok tt |} |}.

(** The spans of a details page: the e-mail label comes twice and the
    phone label has no value cell. *)
Definition spans : list NYAttorney.Span :=
  [ {| NYAttorney.get_text := "Name:"; NYAttorney.find_next_sibling := Some "JOHN SMITH" |};
    {| NYAttorney.get_text := "JOHN SMITH"; NYAttorney.find_next_sibling := None |};
    {| NYAttorney.get_text := "Email:"; NYAttorney.find_next_sibling := Some "js@example.org" |};
    {| NYAttorney.get_text := "Email:"; NYAttorney.find_next_sibling := Some "other@example.org" |};
    {| NYAttorney.get_text := "Business Phone:"; NYAttorney.find_next_sibling := None |} ].

(** A browser whose captcha service does not answer; every search shows
    the banner. *)
Definition captcha_down : NC.Browser :=
  fun _ =>
    {| NC.site_key := Ok (Some "6Lc-sample-site-key");
       NC.fill := Ok tt;
       NC.solver := Raise OSError;
       NC.submit := Ok tt;
       NC.current_url := "https://portal-nc.tylertech.cloud/Portal/Home/WorkspaceMode?p=0";
       NC.banner := Ok (Some "No cases match your search");
       NC.rows := Ok tt;
       NC.page_size := Ok None;
       NC.grid := Ok [];
       NC.go_back := Ok tt |}.

(** A site with cases for every search up to "24E00110*": each of them
    shows an empty grid, and "24E00112*" shows the banner. *)
Definition long_browser : NC.Browser :=
  fun record_number =>
    if String.eqb record_number "24E00112*" then
      search_session (Some "No cases match your search") None (Raise PlaywrightTimeout)
    else
      search_session (Some "Cases") (Some true) (Ok []).

(** The call that exceeds the recursion limit, when the error is raised
    inside the wait for the results table and caught by the guard of lines
    46-52. *)
Definition caught_at_the_table : list nat -> Eff.M NYCourt.Store unit :=
  fun _ =>
    Eff.emit (Eff.Log Eff.WARNING "File Search results table not found. Cannot proceed with scraping details.").

End Sample.

(** * Properties *)

(** ** Python string primitives *)

Lemma mem_In (x : string) (l : list string) : mem x l = true <-> In x l.
Proof.
  unfold mem. rewrite existsb_exists. split.
  - intros (y & Hy & Heq). apply String.eqb_eq in Heq. now subst.
  - intros Hin. exists x. split; [assumption | apply String.eqb_refl].
Qed.

Lemma mem_false_In (x : string) (l : list string) : mem x l = false <-> ~ In x l.
Proof.
  rewrite <- mem_In. destruct (mem x l); split; intros; congruence.
Qed.

Lemma filter_andb {A} (p q : A -> bool) (l : list A) :
  List.filter (fun x => p x && q x) l = List.filter q (List.filter p l).
Proof.
  induction l as [|x l IH]; [reflexivity|].
  cbn [List.filter]. destruct (p x); cbn [andb List.filter]; [|assumption].
  destruct (q x); now rewrite IH.
Qed.

(** A string without an occurrence of [old] is left alone by [replace]. *)
Lemma replace_absent (old new s : string) :
  contains old s = false -> replace old new s = s.
Proof.
  unfold replace. induction s as [|c s IH]; simpl; [reflexivity|].
  intros H. apply orb_false_iff in H as [Hp Hc].
  cbn in Hp. rewrite Hp. now rewrite IH.
Qed.

(** ** The effect monad *)

Section Effects.
Context {St : Type}.
Implicit Types w : list Event * St.

Lemma bind_ok {A B} (m : M St A) (k : A -> M St B) w w' a :
  m w = (w', Ok a) -> bind m k w = k a w'.
Proof. unfold bind. now intros ->. Qed.

Lemma bind_raise {A B} (m : M St A) (k : A -> M St B) w w' e :
  m w = (w', Raise e) -> bind m k w = (w', Raise e).
Proof. unfold bind. now intros ->. Qed.

Lemma bind_ret {A B} (a : A) (k : A -> M St B) w : bind (ret a) k w = k a w.
Proof. reflexivity. Qed.

Lemma bind_emit {B} (ev : Event) (k : unit -> M St B) w :
  bind (emit ev) k w = k tt (fst w ++ [ev], snd w).
Proof. reflexivity. Qed.

Lemma bind_get {B} (k : St -> M St B) w : bind get k w = k (snd w) w.
Proof. reflexivity. Qed.

Lemma bind_put {B} (s : St) (k : unit -> M St B) w :
  bind (put s) k w = k tt (fst w, s).
Proof. reflexivity. Qed.

Lemma bind_lift_ok {A B} (a : A) (k : A -> M St B) w :
  bind (lift (Ok a)) k w = k a w.
Proof. reflexivity. Qed.

Lemma bind_lift_raise {A B} (e : exn) (k : A -> M St B) w :
  bind (lift (Raise e)) k w = (w, Raise e).
Proof. reflexivity. Qed.

Lemma bind_bind {A B C} (m : M St A) (k : A -> M St B) (h : B -> M St C) w :
  bind (bind m k) h w = bind m (fun a => bind (k a) h) w.
Proof. unfold bind. destruct (m w) as [w' [a|e]]; reflexivity. Qed.

Lemma emit_run (ev : Event) w : emit ev w = ((fst w ++ [ev], snd w), Ok tt).
Proof. reflexivity. Qed.

Lemma ret_run {A} (a : A) w : ret a w = (w, Ok a).
Proof. reflexivity. Qed.

Lemma raise_run {A} (e : exn) w : raise (A:=A) e w = (w, Raise e).
Proof. reflexivity. Qed.

Lemma lift_run {A} (r : result A) w : lift r w = (w, r).
Proof. reflexivity. Qed.

Lemma put_run (s : St) w : put s w = ((fst w, s), Ok tt).
Proof. reflexivity. Qed.

Lemma try_except_ok {A} (m : M St A) catches handler w w' a :
  m w = (w', Ok a) -> try_except m catches handler w = (w', Ok a).
Proof. unfold try_except. now intros ->. Qed.

Lemma try_except_caught {A} (m : M St A) catches handler w w' e :
  m w = (w', Raise e) -> catches e = true ->
  try_except m catches handler w = handler e w'.
Proof. unfold try_except. now intros -> ->. Qed.

Lemma try_except_passed {A} (m : M St A) catches handler w w' e :
  m w = (w', Raise e) -> catches e = false ->
  try_except m catches handler w = (w', Raise e).
Proof. unfold try_except. now intros -> ->. Qed.

Lemma for_each_cons {X} (body : X -> M St unit) (x : X) (l : list X) w :
  for_each body (x :: l) w = bind (body x) (fun _ => for_each body l) w.
Proof. reflexivity. Qed.

Lemma for_each_emit_rows (path : string) (rows : list (list Cell)) w :
  for_each (fun row => emit (CsvRow path row)) rows w
  = ((fst w ++ map (CsvRow path) rows, snd w), Ok tt).
Proof.
  revert w. induction rows as [|r rows IH]; intros [tr st].
  - cbn. now rewrite app_nil_r.
  - rewrite for_each_cons, bind_emit, IH. cbn. now rewrite <- app_assoc.
Qed.

Lemma for_each_emit {X} (g : X -> Event) (l : list X) w :
  for_each (fun x => emit (g x)) l w = ((fst w ++ map g l, snd w), Ok tt).
Proof.
  revert w. induction l as [|x l IH]; intros [tr st].
  - cbn. now rewrite app_nil_r.
  - rewrite for_each_cons, bind_emit, IH. cbn. now rewrite <- app_assoc.
Qed.

(** A loop whose body never raises runs the body on every element in
    turn. *)
Lemma for_each_total {X} (body : X -> M St unit) (l : list X) :
  (forall x w, In x l -> snd (body x w) = Ok tt) ->
  forall w, for_each body l w
            = (fold_left (fun w x => fst (body x w)) l w, Ok tt).
Proof.
  induction l as [|x l IH]; intros Hbody w; [reflexivity|].
  rewrite for_each_cons. cbn [fold_left].
  pose proof (Hbody x w (or_introl eq_refl)) as Hx.
  destruct (body x w) as [w' r] eqn:E. cbn in Hx. subst r.
  rewrite (bind_ok _ _ _ _ _ E). cbn [fst].
  apply IH. intros y w0 Hy. apply Hbody. now right.
Qed.

End Effects.

(** *** Computations that append events of one kind *)

Section Appends.
Context {St : Type}.
Variable Q : Event -> Prop.
Variable R : St -> St -> Prop.
Context `{!PreOrder R}.

Lemma appends_pure {A} (m : M St A) :
  (forall w, fst (m w) = w) -> appends Q R m.
Proof.
  intros H w. exists []. unfold trace_of, store_of. rewrite H.
  split; [symmetry; apply app_nil_r|]. split; [constructor | reflexivity].
Qed.

Lemma appends_ret {A} (a : A) : appends Q R (ret a).
Proof. now apply appends_pure. Qed.

Lemma appends_raise {A} (e : exn) : appends (A:=A) Q R (raise e).
Proof. now apply appends_pure. Qed.

Lemma appends_lift {A} (r : result A) : appends Q R (lift r).
Proof. now apply appends_pure. Qed.

Lemma appends_get : appends Q R get.
Proof. now apply appends_pure. Qed.

Lemma appends_emit (ev : Event) : Q ev -> appends Q R (emit ev).
Proof.
  intros H w. exists [ev]. split; [reflexivity|].
  split; [now repeat constructor | reflexivity].
Qed.

(** [s = get(); put(f s)] *)
Lemma appends_update (f : St -> St) :
  (forall s, R s (f s)) -> appends Q R (bind get (fun s => put (f s))).
Proof.
  intros H w. exists []. split; [symmetry; apply app_nil_r|].
  split; [constructor | apply H].
Qed.

Lemma appends_bind {A B} (m : M St A) (k : A -> M St B) :
  appends Q R m -> (forall a, appends Q R (k a)) -> appends Q R (bind m k).
Proof.
  intros Hm Hk w. destruct (Hm w) as (evs & Htr & Hq & Hr).
  unfold trace_of, store_of, bind in *. destruct (m w) as [w' [a|e]]; cbn [fst snd] in *.
  - destruct (Hk a w') as (evs' & Htr' & Hq' & Hr'). unfold trace_of, store_of in *.
    exists (evs ++ evs'). rewrite Htr', Htr, app_assoc. split; [reflexivity|].
    split; [apply Forall_app; now split | now transitivity (snd w')].
  - now exists evs.
Qed.

Lemma appends_try {A} (m : M St A) (catches : exn -> bool) (handler : exn -> M St A) :
  appends Q R m -> (forall e, appends Q R (handler e)) ->
  appends Q R (try_except m catches handler).
Proof.
  intros Hm Hh w. destruct (Hm w) as (evs & Htr & Hq & Hr).
  unfold trace_of, store_of, try_except in *.
  destruct (m w) as [w' [a|e]]; cbn [fst snd] in *.
  - now exists evs.
  - destruct (catches e); [|now exists evs].
    destruct (Hh e w') as (evs' & Htr' & Hq' & Hr'). unfold trace_of, store_of in *.
    exists (evs ++ evs'). rewrite Htr', Htr, app_assoc. split; [reflexivity|].
    split; [apply Forall_app; now split | now transitivity (snd w')].
Qed.

Lemma appends_for_each {X} (body : X -> M St unit) (l : list X) :
  (forall x, appends Q R (body x)) -> appends Q R (for_each body l).
Proof.
  intros Hbody. induction l as [|x l IH]; cbn [for_each].
  - apply appends_ret.
  - apply appends_bind; [apply Hbody | intros _; exact IH].
Qed.

Lemma appends_for_fold {X A} (body : A -> X -> M St A) (l : list X) :
  (forall a x, appends Q R (body a x)) -> forall a, appends Q R (for_fold body a l).
Proof.
  intros Hbody. induction l as [|x l IH]; intros a; cbn [for_fold].
  - apply appends_ret.
  - apply appends_bind; [apply Hbody | intros a'; apply IH].
Qed.

End Appends.

Lemma appends_weaken {St A} (Q Q' : Event -> Prop) (R R' : St -> St -> Prop)
    (m : M St A) :
  (forall ev, Q ev -> Q' ev) -> (forall s s', R s s' -> R' s s') ->
  appends Q R m -> appends Q' R' m.
Proof.
  intros Himp HR Hm w. destruct (Hm w) as (evs & Htr & Hq & Hr). exists evs.
  split; [assumption|]. split; [eapply Forall_impl; eassumption | now apply HR].
Qed.

(** The projection of a trace on the events of a kind [p] is unchanged by
    a computation that appends no event of that kind. *)
Lemma appends_filter {St A} (p : Event -> bool) (R : St -> St -> Prop)
    (m : M St A) (w : list Event * St) :
  appends (fun ev => p ev = false) R m ->
  List.filter p (trace_of m w) = List.filter p (fst w).
Proof.
  intros Hm. destruct (Hm w) as (evs & -> & Hq & _).
  rewrite List.filter_app.
  replace (List.filter p evs) with (@nil Event); [now rewrite app_nil_r|].
  symmetry. induction Hq as [|ev evs Hev _ IH]; [reflexivity|].
  cbn. now rewrite Hev.
Qed.

Ltac abind := apply appends_bind; try typeclasses eauto.
Ltac afold := apply appends_for_fold; try typeclasses eauto.
Ltac aeach := apply appends_for_each; try typeclasses eauto.

Ltac appends_step :=
  first
    [ apply appends_bind; try typeclasses eauto; [|intros]
    | apply appends_try; try typeclasses eauto; [|intros]
    | apply appends_for_each; try typeclasses eauto; intros
    | apply appends_for_fold; try typeclasses eauto; intros
    | apply appends_emit; try typeclasses eauto; cbn; solve [reflexivity | exact I | auto]
    | apply appends_ret; typeclasses eauto
    | apply appends_raise; typeclasses eauto
    | apply appends_lift; typeclasses eauto
    | apply appends_get; typeclasses eauto ].

(** Runs a computation whose oracle answers are known, on a world given as
    a pair. *)
Ltac mrun :=
  cbv beta iota zeta delta
    [bind try_except emit lift ret raise get put any_Exception negb fst snd].

Ltac mstep :=
  repeat first
    [ rewrite bind_bind | rewrite bind_emit | rewrite bind_ret | rewrite bind_get
    | rewrite bind_put | rewrite bind_lift_ok | rewrite bind_lift_raise ];
  rewrite ?ret_run, ?raise_run, ?emit_run, ?lift_run, ?put_run;
  cbn [fst snd].

(** ** C7: name normalization before the New York attorney search *)

Section NameNormalization.
Import NYAttorney.

Lemma substituted_replace (attorney : string) :
  substituted attorney = replace "O Connor" "O'Connor" attorney.
Proof.
  unfold substituted. destruct (contains "O Connor" attorney) eqn:E; [reflexivity|].
  symmetry. now apply replace_absent.
Qed.

Lemma cleaned_name_In (attorney t : string) :
  In t (cleaned_name attorney) <->
  In t (split " " attorney) /\ strip t <> "" /\ ~ In (upper t) suffixes_and_prefixes.
Proof.
  unfold cleaned_name. rewrite filter_In, andb_true_iff, negb_true_iff, mem_false_In.
  assert (Ht : truthy (strip t) = true <-> strip t <> "").
  { destruct (strip t); simpl; split; intros; congruence. }
  rewrite Ht. tauto.
Qed.

(** C7. The name typed into the search form is obtained by first replacing
    every "O Connor" by "O'Connor", then splitting on single spaces and
    keeping, in order, the non-blank tokens whose uppercase form is not in
    the list JR, SR, II, III, IV, V, ESQ, ESQUIRE, VAN, DE, DEL, DI, LA, ST,
    VON; two remaining tokens are first and last name, three or four are
    first, middle and last name (a fourth is dropped). "John O Connor Jr"
    leaves the tokens John and O'Connor; "Maria De La Cruz" gives first
    name Maria and last name Cruz. *)
Theorem C7_name_normalization :
  suffixes_and_prefixes =
    ["JR"; "SR"; "II"; "III"; "IV"; "V"; "ESQ"; "ESQUIRE";
     "VAN"; "DE"; "DEL"; "DI"; "LA"; "ST"; "VON"]
  /\ (forall attorney,
        normalize attorney =
        name_parts (cleaned_name (replace "O Connor" "O'Connor" attorney)))
  /\ (forall attorney t,
        In t (cleaned_name attorney) <->
        In t (split " " attorney) /\ strip t <> ""
        /\ ~ In (upper t) suffixes_and_prefixes)
  /\ (forall attorney,
        cleaned_name attorney =
        List.filter (fun t => negb (mem (upper t) suffixes_and_prefixes))
          (List.filter (fun t => truthy (strip t)) (split " " attorney)))
  /\ (forall a b,
        name_parts [a; b] =
        {| first_name := Some a; middle_name := None; last_name := Some b |})
  /\ (forall a b c,
        name_parts [a; b; c] =
        {| first_name := Some a; middle_name := Some b; last_name := Some c |})
  /\ (forall a b c d,
        name_parts [a; b; c; d] =
        {| first_name := Some a; middle_name := Some b; last_name := Some c |})
  /\ cleaned_name (substituted "John O Connor Jr") = ["John"; "O'Connor"]
  /\ normalize "Maria De La Cruz" =
     {| first_name := Some "Maria"; middle_name := None; last_name := Some "Cruz" |}.
Proof.
  split; [reflexivity|].
  split. { intros a. unfold normalize. now rewrite substituted_replace. }
  split. { apply cleaned_name_In. }
  split.
  { intros a. unfold cleaned_name. apply filter_andb. }
  repeat split; reflexivity.
Qed.

End NameNormalization.

(** ** C8: the width of the rows of the North Carolina CSV file *)

Section CsvWidth.
Import NC.

Lemma flat_map_pairs_length {A B} (f : A -> list B) (l : list A) :
  (forall x, length (f x) = 2) -> length (flat_map f l) = 2 * length l.
Proof.
  intros Hf. induction l as [|x l IH]; [reflexivity|].
  cbn [flat_map]. rewrite length_app, Hf, IH. cbn [length]. lia.
Qed.

Lemma attorney_headers_length (n : nat) : length (attorney_headers n) = 2 * n.
Proof.
  unfold attorney_headers. rewrite flat_map_pairs_length by reflexivity.
  now rewrite length_seq.
Qed.

Lemma flattened_attorneys_length (item : CaseRecord) :
  length (flattened_attorneys item) = 2 * length (Attorney_Info item).
Proof. unfold flattened_attorneys. now apply flat_map_pairs_length. Qed.

Lemma fold_max_spec (l : list CaseRecord) (a : nat) :
  let m := fold_left (fun acc item => Nat.max acc (length (Attorney_Info item))) l a in
  a <= m
  /\ (forall item, In item l -> length (Attorney_Info item) <= m)
  /\ (m = a \/ exists item, In item l /\ length (Attorney_Info item) = m).
Proof.
  revert a. induction l as [|x l IH]; intros a; cbn [fold_left].
  - repeat split; [lia | intros ? [] | now left].
  - destruct (IH (Nat.max a (length (Attorney_Info x)))) as (H1 & H2 & H3).
    cbv zeta. split; [lia|]. split.
    + intros item [<- | Hin]; [lia | now apply H2].
    + destruct H3 as [H3 | (item & Hin & H3)].
      * destruct (Nat.max_spec a (length (Attorney_Info x))) as [[_ Hm] | [_ Hm]].
        -- right. exists x. split; [now left | congruence].
        -- left. congruence.
      * right. exists item. split; [now right | assumption].
Qed.

Lemma max_attorneys_ge (batch : list CaseRecord) (item : CaseRecord) :
  In item batch -> length (Attorney_Info item) <= get_max_attorneys_in_batch batch.
Proof. intros Hin. now apply (fold_max_spec batch 0). Qed.

Lemma data_row_length (batch : list CaseRecord) (item : CaseRecord) :
  In item batch ->
  length (data_row (2 * get_max_attorneys_in_batch batch) item)
  = 3 + 2 * get_max_attorneys_in_batch batch.
Proof.
  intros Hin. apply max_attorneys_ge in Hin. unfold data_row.
  rewrite !length_app, repeat_length, flattened_attorneys_length.
  cbn [length]. lia.
Qed.

Lemma csv_rows_app (tr1 tr2 : list Event) :
  csv_rows (tr1 ++ tr2) = csv_rows tr1 ++ csv_rows tr2.
Proof. apply flat_map_app. Qed.

Lemma csv_rows_map (path : string) (rows : list (list Cell)) :
  csv_rows (map (CsvRow path) rows) = rows.
Proof.
  unfold csv_rows. induction rows as [|r rows IH]; cbn; [reflexivity | now f_equal].
Qed.

(** C8. Every row [save_to_csv] writes for a batch, header and data rows
    alike, has 3 + 2*M columns, where M is the greatest number of
    attorneys of a record of the batch; the header holds the M pairs
    "Attorney Name i", "Attorney Address i"; the row of a record with k
    attorneys ends with 2*(M-k) empty strings. With a 3-attorney case and
    a 1-attorney case the header has three pairs and the second row ends
    with four empty cells. *)
Theorem C8_csv_rows_have_uniform_width (batch : list CaseRecord)
    (w : list Event * Store) :
  let M := get_max_attorneys_in_batch batch in
  (forall item, In item batch -> length (Attorney_Info item) <= M)
  /\ ((M = 0 /\ forall item, In item batch -> Attorney_Info item = [])
      \/ exists item, In item batch /\ length (Attorney_Info item) = M)
  /\ csv_rows (trace_of (save_to_csv batch) w)
     = csv_rows (fst w) ++ final_headers batch :: data_rows batch
  /\ final_headers batch
     = [CStr "Case Number"; CStr "Case Type"; CStr "PDF File"]
       ++ flat_map (fun i => [CStr ("Attorney Name " +:+ str_nat i);
                              CStr ("Attorney Address " +:+ str_nat i)]) (seq 1 M)
  /\ length (final_headers batch) = 3 + 2 * M
  /\ (forall row, In row (data_rows batch) -> length row = 3 + 2 * M)
  /\ data_rows batch
     = map (fun item =>
              [CStr (Case_Number item); cell_of (Case_Type item); CStr (PDF_File item)]
              ++ flattened_attorneys item
              ++ repeat (CStr "") (2 * (M - length (Attorney_Info item)))) batch
  /\ (let batch2 := [Sample.case_with "24E000001" ["A"; "B"; "C"];
                     Sample.case_with "24E000002" ["D"]] in
      final_headers batch2
      = [CStr "Case Number"; CStr "Case Type"; CStr "PDF File";
         CStr "Attorney Name 1"; CStr "Attorney Address 1";
         CStr "Attorney Name 2"; CStr "Attorney Address 2";
         CStr "Attorney Name 3"; CStr "Attorney Address 3"]
      /\ data_rows batch2 !! 1
         = Some [CStr "24E000002"; CStr "Decedents' Estate"; CStr "Not Found";
                 CStr "D"; CStr ""; CStr ""; CStr ""; CStr ""; CStr ""]).
Proof.
  intros M.
  destruct (fold_max_spec batch 0) as (_ & Hle & Hmax). fold (get_max_attorneys_in_batch batch) in *.
  fold M in Hle, Hmax.
  split; [exact Hle|].
  split.
  { destruct Hmax as [H0 | Hex]; [left | now right].
    split; [assumption|]. intros item Hin. apply Hle in Hin.
    destruct (Attorney_Info item); [reflexivity | cbn in Hin; lia]. }
  split.
  { unfold trace_of, save_to_csv. mstep.
    rewrite (bind_ok _ _ _ _ _ (for_each_emit_rows _ _ _)). mstep.
    rewrite <- !app_assoc. rewrite !csv_rows_app, csv_rows_map. cbn.
    now rewrite app_nil_r. }
  split; [reflexivity|].
  split.
  { unfold final_headers. rewrite length_app, attorney_headers_length. reflexivity. }
  split.
  { intros row Hin. unfold data_rows in Hin. rewrite attorney_headers_length in Hin.
    apply in_map_iff in Hin as (item & <- & Hin). now apply data_row_length. }
  split.
  { unfold data_rows. rewrite attorney_headers_length. apply map_ext_in.
    intros item Hin. unfold data_row. rewrite flattened_attorneys_length.
    do 3 f_equal. fold M. lia. }
  split; reflexivity.
Qed.

End CsvWidth.

(** ** C5: the formatted address of a North Carolina attorney *)

Section AddressFormat.
Import NC.

(** With a city, a state and a postal code the location block is
    "city, state zip" and follows the non-empty address lines. *)
Lemma format_address_full_location (a : Address) :
  truthy (City a) = true -> truthy (State a) = true -> truthy (PostalCode a) = true ->
  format_address a
  = join ", " (List.filter truthy [AddressLine1 a; AddressLine2 a; AddressLine3 a; AddressLine4 a]
               ++ [City a +:+ ", " +:+ State a +:+ " " +:+ PostalCode a]).
Proof.
  intros Hc Hs Hz. unfold format_address.
  destruct (City a) as [|c city] eqn:Ec; [discriminate|].
  cbn [List.filter truthy].
  set (block := join ", " [String c city; join " " [State a; PostalCode a]]).
  assert (Hb : block = String c city +:+ ", " +:+ State a +:+ " " +:+ PostalCode a).
  { unfold block, join. cbn [String.concat]. reflexivity. }
  assert (Ht : truthy block = true) by (rewrite Hb; reflexivity).
  rewrite Hb in *. clear Hb block.
  destruct (truthy (AddressLine1 a)), (truthy (AddressLine2 a)),
    (truthy (AddressLine3 a)), (truthy (AddressLine4 a));
    cbn [List.filter app]; rewrite ?Ht; reflexivity.
Qed.

(** Without any of the three the location block is left out. *)
Lemma format_address_no_location (a : Address) :
  City a = "" -> State a = "" -> PostalCode a = "" ->
  format_address a
  = join ", " (List.filter truthy [AddressLine1 a; AddressLine2 a; AddressLine3 a; AddressLine4 a]).
Proof.
  intros Hc Hs Hz. unfold format_address. rewrite Hc, Hs, Hz.
  cbn [List.filter truthy].
  destruct (truthy (AddressLine1 a)), (truthy (AddressLine2 a)),
    (truthy (AddressLine3 a)), (truthy (AddressLine4 a)); reflexivity.
Qed.

(** C5. An address with the line "1 Main St", no city, state "NC" and
    postal code "27601": the empty city is not skipped, the location block
    is ", NC 27601" and the formatted address has a separator on each side
    of the empty city. *)
Theorem C5_empty_city_is_not_skipped :
  format_address Sample.address_without_city = "1 Main St, , NC 27601"
  /\ City Sample.address_without_city = ""
  /\ attorney_complete_info
       {| FormattedName := Some "Jane Doe"; Addresses := [Sample.address_without_city] |}
     = {| AttorneyName := Some "Jane Doe";
          AttorneyAddress := CList ["1 Main St, , NC 27601"] |}.
Proof. repeat split; reflexivity. Qed.

End AddressFormat.

(** ** C1: which attorneys are attributed to a North Carolina case *)

Section AttorneyAttribution.
Import NC.

Lemma name_known (attorneys : list AttorneyInfo) (n : option string) :
  existsb (fun key => name_eqb (AttorneyName key) n) attorneys = true
  <-> In n (names_of attorneys).
Proof.
  unfold names_of. rewrite existsb_exists, in_map_iff. unfold name_eqb.
  split; intros (key & H1 & H2); exists key.
  - apply bool_decide_eq_true in H2. now split.
  - split; [assumption | now apply bool_decide_eq_true].
Qed.

Lemma names_add_attorney (attorneys : list AttorneyInfo) (a : Attorney) :
  names_of (add_attorney attorneys a)
  = if existsb (fun key => name_eqb (AttorneyName key) (FormattedName a)) attorneys
    then names_of attorneys
    else names_of attorneys ++ [FormattedName a].
Proof.
  unfold add_attorney. cbn [attorney_complete_info AttorneyName].
  destruct (existsb _ attorneys); [reflexivity|].
  unfold names_of. now rewrite map_app.
Qed.

Lemma add_attorneys_names (l : list Attorney) (acc : list AttorneyInfo) :
  NoDup (names_of acc) ->
  NoDup (names_of (fold_left add_attorney l acc))
  /\ (forall n, In n (names_of (fold_left add_attorney l acc))
                <-> In n (names_of acc) \/ In n (map FormattedName l)).
Proof.
  revert acc. induction l as [|a l IH]; intros acc Hnd; cbn [fold_left].
  - split; [assumption|]. intros n. cbn. tauto.
  - assert (Hnd' : NoDup (names_of (add_attorney acc a))).
    { rewrite names_add_attorney.
      destruct (existsb _ acc) eqn:E; [assumption|].
      apply NoDup_app. split; [assumption|]. split.
      - intros x Hx Hk. apply list_elem_of_In in Hx, Hk.
        destruct Hk as [<- | []]. apply name_known in Hx. congruence.
      - apply NoDup_singleton. }
    destruct (IH _ Hnd') as [H1 H2]. split; [assumption|].
    intros n. rewrite H2, names_add_attorney. cbn [map In].
    destruct (existsb _ acc) eqn:E.
    + apply name_known in E. split; [tauto|].
      intros [H | [<- | H]]; tauto.
    + rewrite in_app_iff. cbn [In]. tauto.
Qed.

Lemma add_attorneys_origin (l : list Attorney) (acc : list AttorneyInfo) (i : AttorneyInfo) :
  In i (fold_left add_attorney l acc) ->
  In i acc \/ exists a, In a l /\ i = attorney_complete_info a.
Proof.
  revert acc. induction l as [|a l IH]; intros acc; cbn [fold_left]; [now left|].
  intros H. apply IH in H as [H | (a' & Ha & ->)].
  - unfold add_attorney in H. destruct (existsb _ acc); [now left|].
    apply in_app_iff in H as [H | [<- | []]]; [now left|].
    right. exists a. split; [now left | reflexivity].
  - right. exists a'. split; [now right | reflexivity].
Qed.

Lemma scan_parties_records (parties : list Party) (best : nat) (acc : list AttorneyInfo) :
  snd (fold_left scan_party parties (best, acc))
  = fold_left add_attorney
      (flat_map CasePartyAttorneys (Stated.record_parties best parties)) acc.
Proof.
  revert best acc. induction parties as [|p parties IH]; intros best acc; [reflexivity|].
  cbn [fold_left Stated.record_parties]. unfold scan_party at 2.
  destruct (CasePartyAttorneys p) as [|a l] eqn:E.
  - replace (best <? length (@nil Attorney)) with false
      by (symmetry; apply Nat.ltb_ge; cbn; lia).
    apply IH.
  - destruct (best <? length (a :: l)) eqn:Hlt.
    + rewrite IH. cbn [flat_map]. rewrite E, fold_left_app. reflexivity.
    + apply IH.
Qed.

Lemma record_parties_none (parties : list Party) (best : nat) :
  (forall q, In q parties -> length (CasePartyAttorneys q) <= best) ->
  Stated.record_parties best parties = [].
Proof.
  induction parties as [|q parties IH]; intros H; [reflexivity|].
  cbn [Stated.record_parties].
  replace (best <? length (CasePartyAttorneys q)) with false.
  - apply IH. intros q' Hq'. apply H. now right.
  - symmetry. apply Nat.ltb_ge. apply H. now left.
Qed.

Lemma record_parties_greatest (l1 l2 : list Party) (p : Party) (best : nat) :
  best < length (CasePartyAttorneys p) ->
  (forall q, In q l1 -> length (CasePartyAttorneys q) < length (CasePartyAttorneys p)) ->
  (forall q, In q l2 -> length (CasePartyAttorneys q) <= length (CasePartyAttorneys p)) ->
  Stated.record_parties best (l1 ++ p :: l2) = Stated.record_parties best l1 ++ [p].
Proof.
  revert best. induction l1 as [|q l1 IH]; intros best Hbest H1 H2.
  - cbn [app Stated.record_parties].
    replace (best <? length (CasePartyAttorneys p)) with true
      by (symmetry; now apply Nat.ltb_lt).
    now rewrite record_parties_none.
  - cbn [app Stated.record_parties].
    assert (Hq : length (CasePartyAttorneys q) < length (CasePartyAttorneys p))
      by (apply H1; now left).
    destruct (best <? length (CasePartyAttorneys q)).
    + cbn [app]. f_equal. apply IH; [assumption | | assumption].
      intros q' Hq'. apply H1. now right.
    + apply IH; [assumption | | assumption].
      intros q' Hq'. apply H1. now right.
Qed.

Lemma record_parties_incl (parties : list Party) (best : nat) (p : Party) :
  In p (Stated.record_parties best parties) ->
  In p parties /\ best < length (CasePartyAttorneys p).
Proof.
  revert best. induction parties as [|q parties IH]; intros best;
    cbn [Stated.record_parties In]; [tauto|].
  destruct (best <? length (CasePartyAttorneys q)) eqn:E; cbn [In].
  - intros [<- | H].
    + split; [now left | now apply Nat.ltb_lt].
    + apply IH in H as [H1 H2]. apply Nat.ltb_lt in E. split; [now right | lia].
  - intros H. apply IH in H as [H1 H2]. split; [now right | assumption].
Qed.

(** The claim as stated fails: the first party has one attorney, X, the
    second has two, Y and Z; the second is the party with the greatest
    count, X is attached to the first only, and X is attributed to the
    case all the same. *)
Lemma C1_counterexample :
  let parties := [Sample.party_of ["X"]; Sample.party_of ["Y"; "Z"]] in
  let greatest := Sample.party_of ["Y"; "Z"] in
  (forall p, In p parties ->
             length (CasePartyAttorneys p) <= length (CasePartyAttorneys greatest))
  /\ ~ In (Sample.attorney "X") (CasePartyAttorneys greatest)
  /\ collect_attorneys parties = map Sample.info ["X"; "Y"; "Z"]
  /\ collect_attorneys parties <> map attorney_complete_info (CasePartyAttorneys greatest).
Proof.
  cbv zeta. split.
  { intros p [<- | [<- | []]]; cbn; lia. }
  split.
  { cbn. intros [H | [H | []]]; discriminate. }
  split; [reflexivity|]. vm_compute. discriminate.
Qed.

(** C1, amended. The attorneys attributed to a case are those of every
    party whose attorney count is strictly greater than the counts of all
    the parties before it, in that order and one entry per formatted name;
    the first party with the greatest count is the last of these parties,
    so its attorneys are always attributed; an attorney attached only to
    parties that do not exceed all earlier counts is not attributed. *)
Theorem C1_attorneys_of_the_record_parties (parties : list Party) :
  let chosen := Stated.record_parties 0 parties in
  collect_attorneys parties
  = fold_left add_attorney (flat_map CasePartyAttorneys chosen) []
  /\ NoDup (map AttorneyName (collect_attorneys parties))
  /\ (forall n, In n (map AttorneyName (collect_attorneys parties))
                <-> exists p a, In p chosen /\ In a (CasePartyAttorneys p)
                                /\ FormattedName a = n)
  /\ (forall i, In i (collect_attorneys parties) ->
                exists p a, In p chosen /\ In a (CasePartyAttorneys p)
                            /\ i = attorney_complete_info a)
  /\ (forall p, In p chosen ->
                In p parties /\ 0 < length (CasePartyAttorneys p))
  /\ (forall l1 p l2,
        parties = l1 ++ p :: l2 ->
        0 < length (CasePartyAttorneys p) ->
        (forall q, In q l1 -> length (CasePartyAttorneys q) < length (CasePartyAttorneys p)) ->
        (forall q, In q l2 -> length (CasePartyAttorneys q) <= length (CasePartyAttorneys p)) ->
        chosen = Stated.record_parties 0 l1 ++ [p])
  /\ (forall P case_url w,
        Parties P case_url = Ok parties ->
        outcome_of (get_attorney_info P case_url) w = Ok (collect_attorneys parties)).
Proof.
  intros chosen.
  assert (Heq : collect_attorneys parties
                = fold_left add_attorney (flat_map CasePartyAttorneys chosen) []).
  { unfold collect_attorneys. apply scan_parties_records. }
  destruct (add_attorneys_names (flat_map CasePartyAttorneys chosen) [])
    as [Hnd Hnames]; [constructor|].
  split; [exact Heq|].
  split. { rewrite Heq. exact Hnd. }
  split.
  { intros n. rewrite Heq. fold (names_of (fold_left add_attorney
      (flat_map CasePartyAttorneys chosen) [])). rewrite Hnames. cbn [names_of map In].
    rewrite in_map_iff. split.
    - intros [[] | (a & Ha & Hin)]. apply in_flat_map in Hin as (p & Hp & Hin).
      now exists p, a.
    - intros (p & a & Hp & Hin & Ha). right. exists a. split; [assumption|].
      apply in_flat_map. now exists p. }
  split.
  { intros i Hi. rewrite Heq in Hi. apply add_attorneys_origin in Hi as [[] | (a & Ha & ->)].
    apply in_flat_map in Ha as (p & Hp & Ha). now exists p, a. }
  split. { intros p Hp. now apply record_parties_incl in Hp. }
  split.
  { intros l1 p l2 -> Hpos H1 H2. now apply record_parties_greatest. }
  intros P case_url w HP. unfold outcome_of, get_attorney_info. mstep.
  unfold try_except. mstep. rewrite HP. mstep. reflexivity.
Qed.

End AttorneyAttribution.

(** ** C6: which result link the New York attorney search follows *)

Section LinkSelection.
Import NYAttorney.











End LinkSelection.

(** ** The events of the North Carolina case lookups *)

Section LookupEvents.
Import NC.
Variable P : Portal.

Let Q : Event -> Prop := fun ev => is_lookup ev = true.

Lemma get_attorney_info_appends (case_url : string) :
  appends Q eq (get_attorney_info P case_url).
Proof. unfold get_attorney_info. repeat appends_step. Qed.

Lemma download_attempt_appends (url filepath filename : string) (retries attempt : nat) :
  appends Q eq (download_attempt P url filepath filename retries attempt).
Proof.
  unfold download_attempt. repeat appends_step.
  destruct (DisplayDoc P url attempt); repeat appends_step.
Qed.

Lemma download_file_appends (url filepath filename : string) :
  appends Q eq (download_file P url filepath filename).
Proof.
  unfold download_file. generalize (seq 0 2). intros attempts.
  induction attempts as [|a attempts IH]; cbn [download_attempts].
  - repeat appends_step.
  - abind; [apply download_attempt_appends|].
    intros [|]; [repeat appends_step | exact IH].
Qed.

Lemma try_parent_links_appends case_no doc_id doc_type_id doc_type doc_name
    event_name file_path filename pdf_found parent_links :
  appends Q eq (try_parent_links P case_no doc_id doc_type_id doc_type doc_name
               event_name file_path filename pdf_found parent_links).
Proof.
  revert pdf_found. induction parent_links as [|l links IH]; intros pdf_found;
    cbn [try_parent_links].
  - repeat appends_step.
  - appends_step; [repeat appends_step|].
    abind; [apply download_file_appends|].
    intros [|]; [repeat appends_step|].
    appends_step; [repeat appends_step | apply IH].
Qed.

Lemma scan_case_event_appends case_no acc case_event :
  appends Q eq (scan_case_event P case_no acc case_event).
Proof.
  unfold scan_case_event. destruct acc as [pdf_found files_downloaded].
  destruct (EventTypeDescription case_event) as [event_name|]; [|repeat appends_step].
  destruct (contains "Bond" event_name); [|repeat appends_step].
  destruct (Documents case_event) as [|event ?]; [repeat appends_step|].
  appends_step; [repeat appends_step|].
  destruct (mem _ files_downloaded); [repeat appends_step|].
  appends_step; [repeat appends_step|].
  appends_step; [apply try_parent_links_appends | repeat appends_step].
Qed.

Lemma get_pdf_files_appends (case_pdf_api case_no : string) :
  appends Q eq (get_pdf_files P case_pdf_api case_no).
Proof.
  unfold get_pdf_files, find_pdf_files. appends_step; [|repeat appends_step].
  do 4 (appends_step; [repeat appends_step|]).
  abind; [afold; intros; apply scan_case_event_appends|].
  intros acc. appends_step; [|repeat appends_step].
  destruct (negb (fst acc)); repeat appends_step.
Qed.

#[global] Instance grows_preorder : PreOrder grows.
Proof.
  split.
  - intros s. exists []. split; [now rewrite app_nil_r | constructor].
  - intros s1 s2 s3 (n1 & -> & H1) (n2 & -> & H2). exists (n1 ++ n2).
    split; [now rewrite app_assoc | apply Forall_app; now split].
Qed.

Lemma eq_grows (s s' : Store) : s = s' -> grows s s'.
Proof. intros ->. reflexivity. Qed.

Lemma scrape_case_appends (case : CaseRow) : appends Q grows (scrape_case P case).
Proof.
  unfold scrape_case. abind; [repeat appends_step|].
  intros [[case_url case_no] case_api_id].
  do 2 (appends_step; [repeat appends_step|]).
  abind; [repeat appends_step|]. intros check_case_type.
  destruct (bool_decide _) eqn:Hty; [repeat appends_step|].
  apply bool_decide_eq_false in Hty.
  appends_step;
    [apply (appends_weaken Q Q eq grows _ (fun _ H => H) eq_grows),
       get_attorney_info_appends|].
  appends_step;
    [apply (appends_weaken Q Q eq grows _ (fun _ H => H) eq_grows),
       get_pdf_files_appends|].
  appends_step; [repeat appends_step|].
  apply (appends_update Q grows (fun s => s ++ [_])).
  intros s. eexists. split; [reflexivity|]. now repeat constructor.
Qed.

Lemma scrape_cases_appends (all_cases : list CaseRow) :
  appends Q grows (scrape_cases P all_cases).
Proof. aeach. intros. apply scrape_case_appends. Qed.

End LookupEvents.

(** ** C10: the record numbers the North Carolina run searches for *)

Section RecordNumbers.
Import NC.

Lemma decode_str_nat n : decode (str_nat n) = Some n.
Proof.
  unfold decode, str_nat. rewrite NilEmpty.usu. cbn. now rewrite Unsigned.of_to.
Qed.

Lemma decode_format_02d n : decode (format_02d n) = Some n.
Proof.
  unfold format_02d. destruct (String.length (str_nat n) <? 2); [|apply decode_str_nat].
  pose proof (decode_str_nat n) as H. unfold decode in *.
  change ("0" +:+ str_nat n) with (String "0" (str_nat n)).
  cbn [NilEmpty.uint_of_string].
  destruct (NilEmpty.uint_of_string (str_nat n)) as [d|]; [|discriminate].
  cbn in *. inversion H. reflexivity.
Qed.

Lemma format_02d_inj a b : format_02d a = format_02d b -> a = b.
Proof.
  intros H. apply (f_equal decode) in H. rewrite !decode_format_02d in H. congruence.
Qed.

Lemma length_append (s t : string) :
  String.length (s +:+ t) = String.length s + String.length t.
Proof.
  induction s as [|c s IH]; [reflexivity|].
  change (String c s +:+ t) with (String c (s +:+ t)). cbn. now rewrite IH.
Qed.

Lemma append_inv_tail (s s' t : string) : s +:+ t = s' +:+ t -> s = s'.
Proof.
  intros H. apply (f_equal String.length) in H as Hlen.
  rewrite !length_append in Hlen.
  revert s' H Hlen. induction s as [|c s IH]; intros [|c' s'] H Hlen; cbn in Hlen;
    try lia; [reflexivity|].
  change (String c (s +:+ t) = String c' (s' +:+ t)) in H. inversion H; subst.
  f_equal. apply IH; [assumption | lia].
Qed.

Lemma record_number_of_inj a b : record_number_of a = record_number_of b -> a = b.
Proof.
  unfold record_number_of. intros H.
  change ("24E00" +:+ format_02d a +:+ "*") with
    (String "2" (String "4" (String "E" (String "0" (String "0" (format_02d a +:+ "*")))))) in H.
  change ("24E00" +:+ format_02d b +:+ "*") with
    (String "2" (String "4" (String "E" (String "0" (String "0" (format_02d b +:+ "*")))))) in H.
  inversion H as [H']. apply append_inv_tail in H'. now apply format_02d_inj.
Qed.

Lemma fills_app tr1 tr2 : fills (tr1 ++ tr2) = fills tr1 ++ fills tr2.
Proof. apply flat_map_app. Qed.

Lemma fills_lookup evs : Forall (fun ev => is_lookup ev = true) evs -> fills evs = [].
Proof.
  induction 1 as [|ev evs Hev _ IH]; [reflexivity|].
  unfold fills in *. cbn [flat_map]. rewrite IH. now destruct ev.
Qed.

Ltac fills_norm :=
  cbn [fst snd]; rewrite ?fills_app; cbn [fills flat_map app]; rewrite ?app_nil_r.

Lemma seq_shift_map {A} (f : nat -> A) (n : nat) :
  map f (seq 0 (S n)) = f 0 :: map (fun k => f (S k)) (seq 0 n).
Proof. cbn [seq map]. f_equal. rewrite <- seq_shift, map_map. reflexivity. Qed.

Let no_fill : Event -> Prop := fun ev => is_fill ev = false.

Lemma fills_no_fill evs : Forall no_fill evs -> fills evs = [].
Proof.
  induction 1 as [|ev evs Hev _ IH]; [reflexivity|].
  unfold fills in *. cbn [flat_map]. rewrite IH. destruct ev; try reflexivity.
  discriminate Hev.
Qed.

Lemma lookup_no_fill (ev : Event) : is_lookup ev = true -> no_fill ev.
Proof. unfold no_fill. destruct ev; cbn; congruence. Qed.

Lemma solve_recaptcha_v2_appends session :
  appends no_fill grows (solve_recaptcha_v2 session).
Proof. unfold solve_recaptcha_v2. repeat appends_step. Qed.

Lemma solve_recaptcha_v2_total session w :
  exists code, snd (solve_recaptcha_v2 session w) = Ok code.
Proof.
  destruct w as [tr st]. unfold solve_recaptcha_v2.
  destruct (solver session) as [code|e]; eexists; mrun; reflexivity.
Qed.

Lemma set_page_size_appends session record_number :
  appends no_fill grows (set_page_size session record_number).
Proof.
  unfold set_page_size. abind; [repeat appends_step|].
  intros [[|]|]; repeat appends_step.
Qed.

Lemma set_page_size_total session record_number w dropdown :
  page_size session = Ok dropdown ->
  snd (set_page_size session record_number w) = Ok tt.
Proof.
  intros H. unfold set_page_size. rewrite H. mstep. now destruct dropdown as [[|]|].
Qed.

Lemma scrape_cases_no_fill P all_cases : appends no_fill grows (scrape_cases P all_cases).
Proof.
  apply (appends_weaken _ no_fill grows grows _ lookup_no_fill (fun _ _ H => H)),
    scrape_cases_appends.
Qed.

Lemma searches_none {A} f N (m : M Store A) : appends no_fill grows m -> Stated.searches f N m.
Proof.
  intros Hm w. destruct (Hm w) as (evs & Htr & Hq & _). exists 0. split; [lia|].
  rewrite Htr, fills_app, (fills_no_fill _ Hq). reflexivity.
Qed.

Lemma searches_after {A B} f N (m : M Store A) (k : A -> M Store B) :
  appends no_fill grows m -> (forall a, Stated.searches f N (k a)) -> Stated.searches f N (bind m k).
Proof.
  intros Hm Hk w. destruct (Hm w) as (evs & Htr & Hq & _).
  unfold trace_of, bind in *. destruct (m w) as [w1 [a|e]]; cbn [fst] in *.
  - destruct (Hk a w1) as (n & Hn & Hfills). exists n. split; [assumption|].
    unfold trace_of in Hfills. rewrite Hfills, Htr, fills_app, (fills_no_fill _ Hq).
    now rewrite app_nil_r.
  - exists 0. split; [lia|]. rewrite Htr, fills_app, (fills_no_fill _ Hq). reflexivity.
Qed.

Lemma searches_fill {A} f N selector (m : M Store A) :
  Stated.searches (fun k => f (S k)) N m ->
  Stated.searches f (S N) (bind (emit (Fill selector (f 0))) (fun _ => m)).
Proof.
  intros Hm [tr st]. unfold trace_of. rewrite bind_emit. cbn [fst snd].
  destruct (Hm (tr ++ [Fill selector (f 0)], st)) as (n & Hn & Hfills).
  exists (S n). split; [lia|]. unfold trace_of in Hfills. rewrite Hfills.
  rewrite seq_shift_map. fills_norm. now rewrite <- app_assoc.
Qed.

Lemma searches_ext {A} f g N (m : M Store A) :
  (forall k, f k = g k) -> Stated.searches f N m -> Stated.searches g N m.
Proof.
  intros Hext Hm w. destruct (Hm w) as (n & Hn & Hfills). exists n.
  split; [assumption|]. rewrite Hfills. f_equal. apply map_ext. intros k. apply Hext.
Qed.

Lemma search_loop_searches P B fuel record_num :
  Stated.searches (fun k => record_number_of (record_num + 2 * k)) fuel
    (search_loop P B fuel record_num).
Proof.
  revert record_num. induction fuel as [|fuel IH]; intros record_num; cbn [search_loop].
  - apply searches_none. repeat appends_step.
  - do 2 (apply searches_after; [repeat appends_step|]; intros _).
    replace (record_number_of record_num) with (record_number_of (record_num + 2 * 0))
      at 1 by (f_equal; lia).
    apply (searches_fill (fun k => record_number_of (record_num + 2 * k))).
    apply searches_after; [repeat appends_step|]. intros _.
    apply searches_after; [apply solve_recaptcha_v2_appends|]. intros _.
    do 4 (apply searches_after; [repeat appends_step|]; intros _).
    apply searches_after; [repeat appends_step|]. intros message.
    match goal with |- context [if ?c then _ else _] => destruct c end;
      [apply searches_none; repeat appends_step|].
    apply searches_after; [repeat appends_step|]. intros _.
    apply searches_after; [apply set_page_size_appends|]. intros _.
    apply searches_after; [repeat appends_step|]. intros all_cases.
    apply searches_after; [apply scrape_cases_no_fill|]. intros _.
    do 4 (apply searches_after; [repeat appends_step|]; intros _).
    apply (searches_ext (fun k => record_number_of (record_num + 2 + 2 * k)));
      [intros k; f_equal; lia | apply IH].
Qed.

Lemma search_loop_fills P B fuel record_num w :
  exists n, n <= fuel
    /\ fills (trace_of (search_loop P B fuel record_num) w)
       = fills (fst w) ++ map (fun k => record_number_of (record_num + 2 * k)) (seq 0 n).
Proof. apply search_loop_searches. Qed.

(** A step that ends normally and types nothing is passed. *)
Lemma passes {A B} (m : M Store A) (k : A -> M Store B) (w : list Event * Store) :
  appends no_fill grows m ->
  (exists a, snd (m w) = Ok a) ->
  exists a w1,
    bind m k w = k a w1 /\ fills (fst w1) = fills (fst w).
Proof.
  intros Hm (a & Ha). destruct (Hm w) as (evs & Htr & Hq & _).
  unfold trace_of in Htr. destruct (m w) as [w1 r] eqn:E. cbn [fst snd] in *. subst r.
  exists a, w1. split; [apply (bind_ok _ _ _ _ _ E)|].
  rewrite Htr, fills_app, (fills_no_fill _ Hq). apply app_nil_r.
Qed.

Lemma search_loop_stops P B n :
  forall fuel record_num w,
  (forall k, k < n -> Stated.shows_cases P (B (record_number_of (record_num + 2 * k)))) ->
  Stated.reaches_banner (B (record_number_of (record_num + 2 * n))) ->
  Stated.says_no_cases (B (record_number_of (record_num + 2 * n))) ->
  n < fuel ->
  outcome_of (search_loop P B fuel record_num) w = Ok true
  /\ fills (trace_of (search_loop P B fuel record_num) w)
     = fills (fst w) ++ map (fun k => record_number_of (record_num + 2 * k)) (seq 0 (S n)).
Proof.
  induction n as [|n IH]; intros [|fuel] record_num w Hshow Hreach Hstop Hfuel; try lia.
  - rewrite Nat.mul_0_r, Nat.add_0_r in *.
    destruct Hreach as ((key & Hkey) & Hfill & Hsubmit).
    destruct Hstop as (text & Hbanner & Htext).
    unfold outcome_of, trace_of. cbn [search_loop]. mstep.
    rewrite Hkey. mstep. rewrite Hfill. mstep.
    match goal with |- context [bind (solve_recaptcha_v2 ?s) ?k ?w1] =>
      destruct (passes (solve_recaptcha_v2 s) k w1 (solve_recaptcha_v2_appends s)
                  (solve_recaptcha_v2_total s w1)) as (code & w2 & -> & Hw2)
    end.
    rewrite Hsubmit. mstep. rewrite Hbanner. mstep.
    unfold no_cases_message. rewrite Htext. mstep.
    split; [reflexivity|]. fills_norm. rewrite Hw2. fills_norm.
    cbn. now rewrite Nat.add_0_r.
  - destruct (Hshow 0 ltac:(lia))
      as (((key & Hkey) & Hfill & Hsub) & (message & Hbanner & Hmsg) & Hrows
          & (dropdown & Hdrop) & (all_cases & Hgrid & Hcases) & Hback).
    rewrite Nat.mul_0_r, Nat.add_0_r in *.
    unfold outcome_of, trace_of. cbn [search_loop]. mstep.
    rewrite Hkey. mstep. rewrite Hfill. mstep.
    match goal with |- context [bind (solve_recaptcha_v2 ?s) ?k ?w1] =>
      destruct (passes (solve_recaptcha_v2 s) k w1 (solve_recaptcha_v2_appends s)
                  (solve_recaptcha_v2_total s w1)) as (code & w2 & -> & Hw2)
    end.
    rewrite Hsub. mstep. rewrite Hbanner. mstep.
    replace (match message with
             | Some inner_text => contains no_cases_message (strip inner_text)
             | None => false
             end) with false by (destruct message; [symmetry; exact Hmsg | reflexivity]).
    rewrite Hrows. mstep.
    match goal with |- context [bind (set_page_size ?s ?r) ?k ?w1] =>
      destruct (passes (set_page_size s r) k w1 (set_page_size_appends s r)
                  (ex_intro _ tt (set_page_size_total s r w1 dropdown Hdrop)))
        as ([] & w3 & -> & Hw3)
    end.
    rewrite Hgrid. mstep.
    match goal with |- context [bind (scrape_cases P all_cases) ?k ?w1] =>
      destruct (passes (scrape_cases P all_cases) k w1 (scrape_cases_no_fill P all_cases)
                  (ex_intro _ tt (Hcases w1)))
        as ([] & w4 & -> & Hw4)
    end.
    mstep. rewrite Hback. mstep.
    match goal with |- context [search_loop P B fuel ?r ?w5] =>
      destruct (IH fuel r w5) as (Hout & Hfills)
    end.
    + intros k Hk. replace (record_num + 2 + 2 * k) with (record_num + 2 * S k) by lia.
      apply Hshow. lia.
    + replace (record_num + 2 + 2 * n) with (record_num + 2 * S n) by lia. assumption.
    + replace (record_num + 2 + 2 * n) with (record_num + 2 * S n) by lia. assumption.
    + lia.
    + unfold outcome_of, trace_of in Hout, Hfills. split; [exact Hout|].
      rewrite Hfills. rewrite (seq_shift_map _ (S n)). fills_norm.
      rewrite Hw4. cbn [fst snd] in Hw3. rewrite Hw3. fills_norm.
      rewrite Hw2. fills_norm. rewrite <- app_assoc. cbn [app].
      rewrite Nat.add_0_r. do 2 f_equal. apply map_ext. intros k. f_equal. lia.
Qed.

(** The decimal numeral of a number from 100 on has three digits at
    least, so [format_02d] does not pad it. *)
Lemma length_string_of_uint (d : Decimal.uint) :
  String.length (NilEmpty.string_of_uint d) = Decimal.nb_digits d.
Proof. induction d; cbn; congruence. Qed.

Lemma of_uint_acc_bound (d : Decimal.uint) :
  forall acc, Nat.of_uint_acc d acc < S acc * 10 ^ Decimal.nb_digits d.
Proof.
  induction d; intros acc; cbn [Nat.of_uint_acc Decimal.nb_digits];
    [cbn; lia | ..];
    rewrite Nat.tail_mul_spec, Nat.pow_succ_r';
    match goal with |- Nat.of_uint_acc d ?a < _ => pose proof (IHd a) end; nia.
Qed.

Lemma three_digits (n : nat) : 100 <= n -> 2 < String.length (format_02d n).
Proof.
  intros Hn. unfold format_02d, str_nat. rewrite length_string_of_uint.
  pose proof (of_uint_acc_bound (Nat.to_uint n) 0) as Hbound.
  change (Nat.of_uint_acc (Nat.to_uint n) 0) with (Nat.of_uint (Nat.to_uint n)) in Hbound.
  rewrite Unsigned.of_to in Hbound.
  assert (Hdigits : 2 < Decimal.nb_digits (Nat.to_uint n)).
  { destruct (Decimal.nb_digits (Nat.to_uint n)) as [|[|[|digits]]]; cbn in Hbound; lia. }
  destruct (Nat.ltb_spec (Decimal.nb_digits (Nat.to_uint n)) 2); [lia|].
  rewrite length_string_of_uint. exact Hdigits.
Qed.

(** [save_to_csv] ends normally and types nothing. *)
Lemma save_to_csv_no_fill (scraped_data : list CaseRecord) :
  appends no_fill grows (save_to_csv scraped_data).
Proof. unfold save_to_csv. repeat appends_step. Qed.

Lemma save_to_csv_total (scraped_data : list CaseRecord) (w : list Event * Store) :
  snd (save_to_csv scraped_data w) = Ok tt.
Proof.
  unfold save_to_csv. mstep.
  rewrite (bind_ok _ _ _ _ _ (for_each_emit_rows _ _ _)). mstep. reflexivity.
Qed.

(** The run types what its search loop types, and ends normally when the
    loop was left by its [break]. *)
Lemma run_fills P B fuel w :
  fills (trace_of (run P B fuel) w) = fills (trace_of (search_loop P B fuel 0) w).
Proof.
  unfold run, trace_of.
  destruct (search_loop P B fuel 0 w) as [w1 [finished|e]] eqn:Hloop.
  - rewrite (bind_ok _ _ _ _ _ Hloop). destruct finished; [|reflexivity].
    rewrite bind_get. cbv beta.
    match goal with |- context [bind (save_to_csv ?d) ?k ?w0] =>
      destruct (passes (save_to_csv d) k w0 (save_to_csv_no_fill d)
                  (ex_intro _ tt (save_to_csv_total d w0)))
        as ([] & w2 & -> & Hw2)
    end.
    exact Hw2.
  - now rewrite (bind_raise _ _ _ _ _ Hloop).
Qed.

Lemma run_finishes P B fuel w :
  outcome_of (search_loop P B fuel 0) w = Ok true ->
  outcome_of (run P B fuel) w = Ok true.
Proof.
  unfold run, outcome_of.
  destruct (search_loop P B fuel 0 w) as [w1 r] eqn:Hloop. cbn [snd]. intros ->.
  rewrite (bind_ok _ _ _ _ _ Hloop), bind_get. cbv beta.
  match goal with |- context [bind (save_to_csv ?d) ?k ?w0] =>
    destruct (passes (save_to_csv d) k w0 (save_to_csv_no_fill d)
                (ex_intro _ tt (save_to_csv_total d w0)))
      as ([] & w2 & -> & _)
  end.
  reflexivity.
Qed.

(** C10, amended. The [k]-th search of the run (counting from 0) types the
    criterion "24E00", then 2*k in decimal padded with zeros to two digits
    at least, then "*", and the run types nothing else; no search uses the
    criterion of an odd number. For the first fifty searches the number
    typed is a two-digit even numeral, and the criterion does not begin with
    "24E00" and an odd two-digit number; from the fifty-first search on the
    numeral has three digits, and the criterion of the fifty-sixth begins
    with 24E0011. The loop is left at the first search whose banner contains
    "No cases match your search", and the run then ends normally. *)
Theorem C10_even_record_prefixes (P : Portal) (B : Browser) :
  (forall fuel w, exists n,
      n <= fuel
      /\ fills (trace_of (run P B fuel) w)
         = fills (fst w) ++ map Stated.criterion (seq 0 n))
  /\ (forall k m, Nat.Odd m -> Stated.criterion k <> "24E00" +:+ format_02d m +:+ "*")
  /\ (forall k, k < 50 ->
        String.length (format_02d (2 * k)) = 2
        /\ decode (format_02d (2 * k)) = Some (2 * k)
        /\ Nat.Even (2 * k)
        /\ Stated.odd_two_digit_prefix (Stated.criterion k) = false)
  /\ (forall k, 50 <= k -> 2 < String.length (format_02d (2 * k)))
  /\ Stated.odd_two_digit_prefix (Stated.criterion 55) = true
  /\ (forall n fuel w,
        (forall k, k < n -> Stated.shows_cases P (B (Stated.criterion k))) ->
        Stated.reaches_banner (B (Stated.criterion n)) ->
        Stated.says_no_cases (B (Stated.criterion n)) ->
        n < fuel ->
        outcome_of (run P B fuel) w = Ok true
        /\ fills (trace_of (run P B fuel) w)
           = fills (fst w) ++ map Stated.criterion (seq 0 (S n)))
  /\ map Stated.criterion [0; 1; 2; 7; 49; 50; 55]
     = ["24E0000*"; "24E0002*"; "24E0004*"; "24E0014*"; "24E0098*"; "24E00100*";
        "24E00110*"].
Proof.
  split.
  { intros fuel w. rewrite run_fills.
    destruct (search_loop_fills P B fuel 0 w) as (n & Hn & Hfills).
    exists n. split; [assumption|]. exact Hfills. }
  split.
  { intros k m Hodd Heq. apply (record_number_of_inj (2 * k) m) in Heq.
    destruct Hodd as [j Hj]. lia. }
  split.
  { intros k Hk.
    assert (Hall : forallb
                     (fun j => (String.length (format_02d (2 * j)) =? 2)
                               && negb (Stated.odd_two_digit_prefix (Stated.criterion j)))
                     (seq 0 50) = true) by (vm_compute; reflexivity).
    rewrite forallb_forall in Hall.
    assert (Hin : In k (seq 0 50)) by (apply in_seq; lia).
    apply Hall, andb_true_iff in Hin as [Hlen Hprefix].
    split; [now apply Nat.eqb_eq|]. split; [apply decode_format_02d|].
    split; [now exists k | now apply negb_true_iff]. }
  split.
  { intros k Hk. apply three_digits. lia. }
  split; [vm_compute; reflexivity|].
  split; [|reflexivity].
  intros n fuel w Hshow Hreach Hstop Hfuel.
  destruct (search_loop_stops P B n fuel 0 w Hshow Hreach Hstop Hfuel) as [Hout Hfills].
  split; [now apply run_finishes | now rewrite run_fills].
Qed.

(** The claim as stated fails. On a site that shows cases for every search
    up to "24E00110*" and the banner for "24E00112*", the run ends normally
    after 57 searches, and its fifty-sixth criterion, "24E00110*", begins
    with "24E00" and the odd two-digit number 11. *)
Lemma C10_counterexample :
  let tr := trace_of (run Sample.portal Sample.long_browser 60) ([], []) in
  outcome_of (run Sample.portal Sample.long_browser 60) ([], []) = Ok true
  /\ length (fills tr) = 57
  /\ fills tr !! 55 = Some "24E00110*"
  /\ format_02d 11 = "11"
  /\ Nat.odd 11 = true
  /\ String.prefix ("24E00" +:+ format_02d 11) "24E00110*" = true
  /\ Stated.odd_two_digit_prefix "24E00110*" = true.
Proof. cbv zeta. repeat split; vm_compute; reflexivity. Qed.

(** The sample portal shows cases for "24E0000*" and "24E0002*" and the
    banner for "24E0004*": the run makes these three searches and stops. *)
Lemma C10_witness :
  outcome_of (run Sample.portal Sample.browser 5) ([], []) = Ok true
  /\ fills (trace_of (run Sample.portal Sample.browser 5) ([], []))
     = [] ++ map Stated.criterion (seq 0 3).
Proof.
  destruct (C10_even_record_prefixes Sample.portal Sample.browser)
    as (_ & _ & _ & _ & _ & Hstops & _).
  apply (Hstops 2 5 ([], [])).
  - intros k Hk.
    assert (Hcases : k = 0 \/ k = 1) by lia.
    destruct Hcases as [-> | ->].
    + split; [split; [eexists; reflexivity | split; reflexivity]|].
      split; [exists (Some "Cases"); split; reflexivity|].
      split; [reflexivity|]. split; [eexists; reflexivity|].
      split; [|reflexivity].
      eexists. split; [reflexivity|]. intros w. reflexivity.
    + split; [split; [eexists; reflexivity | split; reflexivity]|].
      split; [exists None; split; [reflexivity | exact I]|].
      split; [reflexivity|]. split; [eexists; reflexivity|].
      split; [|reflexivity].
      eexists. split; [reflexivity|]. intros w. reflexivity.
  - split; [eexists; reflexivity | split; reflexivity].
  - exists " No cases match your search. ". split; reflexivity.
  - lia.
Defined.

End RecordNumbers.

(** ** C9: small estates are left out *)

Section SmallEstates.
Import NC.

Lemma requests_app (tr1 tr2 : list Event) :
  requests (tr1 ++ tr2) = requests tr1 ++ requests tr2.
Proof. apply flat_map_app. Qed.

(** C9. A case whose case-type description is exactly "Decedents' Estate -
    Small Estate" is skipped: after the case-type request the only effect
    is the log line that says so; no record is appended, and neither the
    Parties nor the CaseEvents endpoint is requested. No record of the
    batch built by [scrape_cases] is a small estate. *)
Theorem C9_small_estates_are_skipped (P : Portal) :
  (forall case case_url case_no case_api_id w,
      case_identity case = Ok (case_url, case_no, case_api_id) ->
      CaseSummariesSlim P (case_type_url_of case_api_id) = Ok (Some small_estate) ->
      scrape_case P case w
      = ((fst w ++ [Log INFO ("Sending Request to check case type from API: "
                              +:+ case_type_url_of case_api_id);
                    HttpGet (case_type_url_of case_api_id);
                    Log INFO ("Skipping the Case " +:+ case_no
                              +:+ " because Case Type is: " +:+ small_estate)],
          snd w), Ok tt)
      /\ store_of (scrape_case P case) w = snd w
      /\ requests (trace_of (scrape_case P case) w)
         = requests (fst w) ++ [case_type_url_of case_api_id])
  /\ (forall all_cases w, exists new,
        store_of (scrape_cases P all_cases) w = snd w ++ new
        /\ Forall (fun r => Case_Type r <> Some small_estate) new)
  /\ small_estate = "Decedents' Estate - Small Estate".
Proof.
  split.
  { intros case case_url case_no case_api_id w Hid Hty.
    assert (Hrun : scrape_case P case w
      = ((fst w ++ [Log INFO ("Sending Request to check case type from API: "
                              +:+ case_type_url_of case_api_id);
                    HttpGet (case_type_url_of case_api_id);
                    Log INFO ("Skipping the Case " +:+ case_no
                              +:+ " because Case Type is: " +:+ small_estate)],
          snd w), Ok tt)).
    { unfold scrape_case. rewrite Hid. mstep. rewrite Hty. mstep.
      rewrite bool_decide_true by reflexivity. mstep.
      now rewrite <- !app_assoc. }
    split; [exact Hrun|]. unfold store_of, trace_of. rewrite Hrun. cbn [fst snd].
    split; [reflexivity|]. rewrite requests_app. reflexivity. }
  split; [|reflexivity].
  intros all_cases w. destruct (scrape_cases_appends P all_cases w) as (_ & _ & _ & Hgrows).
  exact Hgrows.
Qed.

(** Case 102 of the sample portal is a small estate. *)
Lemma C9_witness :
  store_of (scrape_case Sample.portal (Sample.row "102" "24E000002")) ([], []) = []
  /\ requests (trace_of (scrape_case Sample.portal (Sample.row "102" "24E000002")) ([], []))
     = [] ++ [case_type_url_of "102"].
Proof.
  destruct (C9_small_estates_are_skipped Sample.portal) as (Hskip & _).
  destruct (Hskip (Sample.row "102" "24E000002") "/Portal/Case/CaseDetail?id=102&p=1"
              "24E000002" "102" ([], []) eq_refl eq_refl) as (_ & Hstore & Hreq).
  split; [exact Hstore | exact Hreq].
Defined.

End SmallEstates.

(** ** C2: which failures of one item the loops survive *)

Section PerItemFailures.

Lemma process_attorney_total (B : NYAttorney.Browser) (attorney : string)
    (w : list Event * NYAttorney.Store) :
  snd (NYAttorney.process_attorney B attorney w) = Ok tt.
Proof.
  unfold NYAttorney.process_attorney, try_except.
  destruct (NYAttorney.search_attorney B attorney w) as [w' [[]|e]]; reflexivity.
Qed.

Lemma scrape_link_total (view : NYCourt.PageView) (county_name month_name : string)
    (i : nat) (w : list Event * NYCourt.Store) :
  Stated.guarded_link (NYCourt.link view i) ->
  snd (NYCourt.scrape_link view county_name month_name i w) = Ok tt.
Proof.
  intros (Hvisible & Hcontent & Hback). unfold NYCourt.scrape_link.
  rewrite Hvisible. mstep.
  destruct (negb _); [reflexivity|]. mstep.
  unfold try_except at 2.
  destruct (NYCourt.click_nav (NYCourt.link view i)) as [[]|e]; mstep; [|reflexivity].
  rewrite Hcontent. mstep. unfold try_except.
  destruct (NYCourt.fields (NYCourt.link view i)) as [r|e]; mstep; [|reflexivity].
  unfold NYCourt.append_record. mstep. rewrite Hback. reflexivity.
Qed.

Lemma get_attorney_info_caught (P : NC.Portal) (case_url : string)
    (w : list Event * NC.Store) (e : exn) :
  NC.Parties P case_url = Raise e -> is_RequestException e = true ->
  NC.get_attorney_info P case_url w
  = ((fst w ++ [Log INFO ("Sending Request to get attorney info from API: " +:+ case_url);
                HttpGet case_url;
                Stdout ("Request error when fetching attorney info: " +:+ exn_name e)],
      snd w), Ok []).
Proof.
  intros HP He. unfold NC.get_attorney_info. mstep. unfold try_except. mstep.
  rewrite HP. mstep. rewrite He. mstep. now rewrite <- !app_assoc.
Qed.


Lemma get_pdf_files_caught (P : NC.Portal) (case_pdf_api case_no : string)
    (w w' : list Event * NC.Store) (e : exn) :
  NC.find_pdf_files P case_pdf_api case_no w = (w', Raise e) ->
  is_RequestException e = true ->
  NC.get_pdf_files P case_pdf_api case_no w
  = ((fst w' ++ [Log ERROR ("Request error when fetching case " +:+ case_no
                            +:+ " PDF info: " +:+ exn_name e +:+ ".")],
      snd w'), Ok false).
Proof.
  intros Hrun He. unfold NC.get_pdf_files.
  rewrite (try_except_caught _ _ _ _ _ _ Hrun He). mstep. reflexivity.
Qed.

Lemma get_pdf_files_total (P : NC.Portal) (case_pdf_api case_no : string)
    (w : list Event * NC.Store) :
  (forall w e, outcome_of (NC.find_pdf_files P case_pdf_api case_no) w = Raise e ->
               is_RequestException e = true) ->
  exists pdf_found, snd (NC.get_pdf_files P case_pdf_api case_no w) = Ok pdf_found.
Proof.
  intros Hreq. specialize (Hreq w). unfold outcome_of in Hreq.
  destruct (NC.find_pdf_files P case_pdf_api case_no w) as [w' [b|e]] eqn:Hrun.
  - exists b. unfold NC.get_pdf_files. now rewrite (try_except_ok _ _ _ _ _ _ Hrun).
  - exists false. now rewrite (get_pdf_files_caught _ _ _ _ _ _ Hrun (Hreq e eq_refl)).
Qed.





End PerItemFailures.

(** ** C3: when the CSV files are written *)

Section Persistence.

#[local] Instance same_file_preorder : PreOrder same_file.
Proof.
  split.
  - intros s. reflexivity.
  - intros s1 s2 s3 H1 H2. unfold same_file in *. congruence.
Qed.

Let no_csv : Event -> Prop := fun ev => is_csv ev = false.

Lemma navigate_appends session attempts :
  appends no_csv same_file (NYCourt.navigate session attempts).
Proof.
  induction attempts as [|attempt rest IH]; cbn [NYCourt.navigate].
  - repeat appends_step.
  - abind.
    + appends_step; [repeat appends_step|].
      destruct (attempt <? _); repeat appends_step.
    + intros [|]; [repeat appends_step | exact IH].
Qed.

Lemma append_record_appends r : appends no_csv same_file (NYCourt.append_record r).
Proof.
  unfold NYCourt.append_record.
  apply (appends_update no_csv same_file
           (fun st => {| NYCourt.scraped_data := NYCourt.scraped_data st ++ [r];
                         NYCourt.csv_file := NYCourt.csv_file st |})).
  intros s. reflexivity.
Qed.

Lemma scrape_link_appends view county_name month_name i :
  appends no_csv same_file (NYCourt.scrape_link view county_name month_name i).
Proof.
  unfold NYCourt.scrape_link. abind; [repeat appends_step|]. intros _.
  destruct (negb _); [repeat appends_step|].
  abind; [repeat appends_step|]. intros _.
  abind; [repeat appends_step|]. intros navigated.
  destruct (negb navigated); [repeat appends_step|].
  abind; [repeat appends_step|]. intros _.
  abind; [repeat appends_step|]. intros [attorney_info|]; [|repeat appends_step].
  abind; [repeat appends_step|]. intros _.
  abind; [apply append_record_appends|]. intros _.
  repeat appends_step.
Qed.

Lemma get_next_page_appends view visit county_name month_name :
  (forall i, appends no_csv same_file (visit i)) ->
  appends no_csv same_file (NYCourt.get_next_page view visit county_name month_name).
Proof.
  intros Hvisit. unfold NYCourt.get_next_page.
  abind; [repeat appends_step|]. intros _.
  abind; [repeat appends_step|]. intros [total|]; [|repeat appends_step].
  abind; [repeat appends_step|]. intros _.
  aeach. intros i. unfold NYCourt.scrape_page_link.
  abind; [repeat appends_step|]. intros _.
  abind; [repeat appends_step|]. intros _.
  abind; [repeat appends_step|]. intros navigated.
  destruct (negb navigated); [repeat appends_step|].
  abind; [apply Hvisit | intros _; repeat appends_step].
Qed.

Lemma get_attorney_info_court_appends depth pages here county_name month_name :
  appends no_csv same_file
    (NYCourt.get_attorney_info depth pages here county_name month_name).
Proof.
  unfold NYCourt.get_attorney_info. revert here.
  induction depth as [|depth IH]; intros here; cbn [NYCourt.get_attorney_info_within].
  - repeat appends_step.
  - abind; [repeat appends_step|]. intros found.
    destruct (negb found); [repeat appends_step|].
    abind; [repeat appends_step|]. intros [n|]; [|repeat appends_step].
    abind; [aeach; intros; apply scrape_link_appends|]. intros _.
    abind; [repeat appends_step|]. intros _.
    apply get_next_page_appends. intros i. apply IH.
Qed.

Lemma search_month_appends B depth proceeding_type county_value county_name range_info :
  appends no_csv same_file
    (NYCourt.search_month B depth proceeding_type county_value county_name range_info).
Proof.
  unfold NYCourt.search_month.
  abind; [apply navigate_appends|]. intros _.
  do 8 (abind; [repeat appends_step|]; intros _).
  abind; [repeat appends_step|]. intros [|]; [repeat appends_step|].
  abind; [repeat appends_step|]. intros _.
  abind; [apply get_attorney_info_court_appends | intros _; repeat appends_step].
Qed.

Lemma search_months_appends B depth monthly_ranges proceeding_type county_value county_name :
  appends no_csv same_file
    (NYCourt.search_months B depth monthly_ranges proceeding_type county_value county_name).
Proof.
  unfold NYCourt.search_months.
  assert (Hreset : appends no_csv same_file
            (bind get (fun st => put {| NYCourt.scraped_data := [];
                                         NYCourt.csv_file := NYCourt.csv_file st |}))).
  { apply (appends_update no_csv same_file
             (fun st => {| NYCourt.scraped_data := [];
                           NYCourt.csv_file := NYCourt.csv_file st |})).
    intros s. reflexivity. }
  intros w. destruct (Hreset w) as (evs0 & Htr0 & Hq0 & Hr0).
  unfold trace_of, store_of in *. rewrite bind_get, bind_put.
  rewrite bind_get, put_run in Htr0, Hr0. cbn [fst snd] in *.
  match goal with |- context [for_each ?body ?l ?w1] =>
    assert (Hloop : appends no_csv same_file (for_each body l))
      by (aeach; intros; apply search_month_appends);
    destruct (Hloop w1) as (evs & Htr & Hq & Hr)
  end.
  unfold trace_of, store_of in *. cbn [fst snd] in *.
  exists evs. split; [exact Htr|]. split; [exact Hq|].
  unfold same_file in *. cbn in Hr. exact Hr.
Qed.

Lemma csv_opens_app (tr1 tr2 : list Event) :
  csv_opens (tr1 ++ tr2) = csv_opens tr1 + csv_opens tr2.
Proof. unfold csv_opens. now rewrite List.filter_app, length_app. Qed.

Lemma no_csv_projections (evs : list Event) :
  Forall no_csv evs -> csv_opens evs = 0 /\ csv_rows evs = [].
Proof.
  induction 1 as [|ev evs Hev _ [IH1 IH2]]; [now split|].
  unfold csv_opens, csv_rows in *. cbn [List.filter flat_map].
  destruct ev; try discriminate Hev; cbn; now rewrite ?IH1, ?IH2.
Qed.

Lemma appends_no_csv {St A} (R : St -> St -> Prop) (m : M St A) (w : list Event * St) :
  appends no_csv R m ->
  csv_opens (trace_of m w) = csv_opens (fst w)
  /\ csv_rows (trace_of m w) = csv_rows (fst w).
Proof.
  intros Hm. destruct (Hm w) as (evs & -> & Hq & _).
  destruct (no_csv_projections evs Hq) as [H1 H2].
  rewrite csv_opens_app, csv_rows_app, H1, H2, Nat.add_0_r, app_nil_r. now split.
Qed.

Lemma csv_opens_rows (path : string) (rows : list (list Cell)) :
  csv_opens (map (CsvRow path) rows) = 0.
Proof. unfold csv_opens. induction rows as [|r rows IH]; [reflexivity | exact IH]. Qed.

(** *** The New York court run *)

Lemma court_save_to_csv_run (batch : list NYCourt.FilingRecord)
    (tr : list Event) (st : NYCourt.Store) :
  NYCourt.save_to_csv batch (tr, st)
  = ((tr ++ [CsvOpen NYCourt.csv_path "a"]
         ++ map (CsvRow NYCourt.csv_path)
              (match NYCourt.csv_file st with
               | None => [NYCourt.csv_header]
               | Some _ => []
               end ++ map NYCourt.csv_row batch)
         ++ [Log INFO "Data successfully saved to scraped_data.csv"],
      {| NYCourt.scraped_data := NYCourt.scraped_data st;
         NYCourt.csv_file :=
           Some (match NYCourt.csv_file st with Some rows => rows | None => [] end
                 ++ match NYCourt.csv_file st with
                    | None => [NYCourt.csv_header]
                    | Some _ => []
                    end ++ map NYCourt.csv_row batch) |}),
     Ok tt).
Proof.
  unfold NYCourt.save_to_csv. mstep.
  destruct (NYCourt.csv_file st) as [rows|]; cbn [negb]; mstep;
    rewrite (bind_ok _ _ _ _ _ (for_each_emit _ _ _)); mstep;
    cbn [app map]; rewrite map_map, <- !app_assoc; reflexivity.
Qed.

Lemma scrape_county_writes B depth monthly_ranges proceeding_type county_value
    county_name w w1 :
  NYCourt.search_months B depth monthly_ranges proceeding_type county_value county_name w
  = (w1, Ok tt) ->
  let batch := NYCourt.scraped_data (snd w1) in
  let county := (county_value, county_name) in
  let tr :=
    trace_of (NYCourt.scrape_county B depth monthly_ranges proceeding_type county) w in
  outcome_of (NYCourt.scrape_county B depth monthly_ranges proceeding_type county) w
  = Ok tt
  /\ csv_opens tr = csv_opens (fst w) + (match batch with [] => 0 | _ :: _ => 1 end)
  /\ csv_rows tr
     = csv_rows (fst w)
       ++ match batch with
          | [] => []
          | _ :: _ =>
              match NYCourt.csv_file (snd w) with
              | None => [NYCourt.csv_header]
              | Some _ => []
              end ++ map NYCourt.csv_row batch
          end.
Proof.
  intros Hloop batch county tr.
  destruct (search_months_appends B depth monthly_ranges proceeding_type county_value
              county_name w) as (evs & Htr & Hq & Hfile).
  unfold trace_of, store_of in Htr, Hfile. rewrite Hloop in Htr, Hfile.
  cbn [fst snd] in Htr, Hfile. destruct (no_csv_projections evs Hq) as [Hopens Hrows].
  subst tr county. unfold outcome_of, trace_of, NYCourt.scrape_county.
  rewrite !(bind_ok _ _ _ _ _ Hloop). unfold NYCourt.save_county. mstep.
  destruct w1 as [tr1 st1]. cbn [fst snd] in *. subst batch.
  destruct (NYCourt.scraped_data st1) as [|r batch] eqn:Hbatch; mstep.
  - split; [reflexivity|]. rewrite Htr.
    rewrite !csv_opens_app, !csv_rows_app, Hopens, Hrows. cbn.
    split; [lia | now rewrite !app_nil_r].
  - rewrite court_save_to_csv_run. cbn [fst snd]. split; [reflexivity|].
    rewrite Htr. unfold same_file in Hfile. rewrite Hfile.
    rewrite !csv_opens_app, !csv_rows_app, Hopens, Hrows, csv_opens_rows, csv_rows_map.
    cbn. split; [lia | now rewrite !app_nil_r].
Qed.

Lemma scrape_county_aborted B depth monthly_ranges proceeding_type county_value
    county_name w w1 e :
  NYCourt.search_months B depth monthly_ranges proceeding_type county_value county_name w
  = (w1, Raise e) ->
  let county := (county_value, county_name) in
  NYCourt.scrape_county B depth monthly_ranges proceeding_type county w = (w1, Raise e)
  /\ csv_opens (fst w1) = csv_opens (fst w)
  /\ csv_rows (fst w1) = csv_rows (fst w).
Proof.
  intros Hloop county.
  destruct (appends_no_csv same_file _ w
              (search_months_appends B depth monthly_ranges proceeding_type
                 county_value county_name)) as [H1 H2].
  unfold trace_of in H1, H2. rewrite Hloop in H1, H2.
  split; [|now split]. unfold NYCourt.scrape_county. cbn.
  now rewrite (bind_raise _ _ _ _ _ Hloop).
Qed.

(** *** The North Carolina run *)

Lemma lookup_no_csv (ev : Event) : is_lookup ev = true -> no_csv ev.
Proof. unfold no_csv. destruct ev; cbn; congruence. Qed.

Lemma search_loop_appends P B fuel record_num :
  appends no_csv grows (NC.search_loop P B fuel record_num).
Proof.
  revert record_num. induction fuel as [|fuel IH]; intros record_num; cbn [NC.search_loop].
  - repeat appends_step.
  - do 4 (abind; [repeat appends_step|]; intros _).
    abind; [unfold NC.solve_recaptcha_v2; repeat appends_step|]. intros _.
    do 4 (abind; [repeat appends_step|]; intros _).
    abind; [repeat appends_step|]. intros message.
    match goal with |- context [if ?c then _ else _] => destruct c end;
      [repeat appends_step|].
    abind; [repeat appends_step|]. intros _.
    abind; [unfold NC.set_page_size; abind; [repeat appends_step|];
            intros [[|]|]; repeat appends_step|]. intros _.
    abind; [repeat appends_step|]. intros all_cases.
    abind; [apply (appends_weaken _ no_csv grows grows _ lookup_no_csv (fun _ _ H => H)),
              scrape_cases_appends|]. intros _.
    do 4 (abind; [repeat appends_step|]; intros _).
    apply IH.
Qed.




(** *** The New York attorney run *)

Lemma attorney_save_to_csv_run (d : NYAttorney.AttorneyDetails)
    (tr : list Event) (st : NYAttorney.Store) :
  NYAttorney.save_to_csv [d] (tr, st)
  = ((tr ++ [CsvOpen NYAttorney.csv_path "a"]
         ++ map (CsvRow NYAttorney.csv_path)
              (match st with None => [NYAttorney.csv_header] | Some _ => [] end
               ++ [NYAttorney.csv_row d])
         ++ [Log INFO "Data successfully saved to attorney_details.csv"],
      Some (match st with Some rows => rows | None => [] end
            ++ match st with None => [NYAttorney.csv_header] | Some _ => [] end
            ++ [NYAttorney.csv_row d])),
     Ok tt).
Proof.
  unfold NYAttorney.save_to_csv. mstep.
  destruct st as [rows|]; cbn [negb]; mstep;
    rewrite (bind_ok _ _ _ _ _ (for_each_emit _ _ _)); mstep;
    cbn [app map]; rewrite <- !app_assoc; reflexivity.
Qed.

Lemma no_write {A} (m : M NYAttorney.Store A) :
  appends no_csv eq m -> Stated.writes_one_record_at_most m.
Proof. intros Hm w. left. now apply (appends_no_csv eq). Qed.

Lemma write_after {A B} (m : M NYAttorney.Store A) (k : A -> M NYAttorney.Store B) :
  appends no_csv eq m ->
  (forall a, Stated.writes_one_record_at_most (k a)) ->
  Stated.writes_one_record_at_most (bind m k).
Proof.
  intros Hm Hk w. destruct (Hm w) as (evs & Htr & Hq & Hst).
  destruct (no_csv_projections evs Hq) as [Hopens Hrows].
  unfold trace_of, store_of in *. cbv zeta. unfold bind.
  destruct (m w) as [w1 [a|e]]; cbn [fst snd] in *.
  - assert (H1 : csv_opens (fst w1) = csv_opens (fst w))
      by (rewrite Htr, csv_opens_app; lia).
    assert (H2 : csv_rows (fst w1) = csv_rows (fst w))
      by (rewrite Htr, csv_rows_app, Hrows; apply app_nil_r).
    specialize (Hk a w1). cbv zeta in Hk. unfold trace_of in Hk.
    rewrite H1, H2, <- Hst in Hk. exact Hk.
  - left. rewrite Htr, csv_opens_app, csv_rows_app, Hopens, Hrows, app_nil_r. split; [lia | reflexivity].
Qed.

Lemma write_then {A} (m : M NYAttorney.Store unit) (k : unit -> M NYAttorney.Store A) :
  Stated.writes_one_record_at_most m ->
  (forall u, appends no_csv eq (k u)) ->
  Stated.writes_one_record_at_most (bind m k).
Proof.
  intros Hm Hk w. specialize (Hm w). cbv zeta in *. unfold trace_of, bind in *.
  destruct (m w) as [w1 [[]|e]]; cbn [fst] in *; [|exact Hm].
  destruct (appends_no_csv eq _ w1 (Hk tt)) as [H1 H2]. unfold trace_of in H1, H2.
  rewrite H1, H2. exact Hm.
Qed.

Lemma choose_link_appends attorney links :
  appends no_csv eq (NYAttorney.choose_link attorney links).
Proof.
  unfold NYAttorney.choose_link.
  destruct (NYAttorney.find_target _ 0 links) as [[i link]|]; [repeat appends_step|].
  destruct links; repeat appends_step.
Qed.

Lemma type_if_set_appends which value :
  appends no_csv eq (NYAttorney.type_if_set which value).
Proof.
  unfold NYAttorney.type_if_set. destruct value as [v|]; [|repeat appends_step].
  destruct (truthy v); repeat appends_step.
Qed.

Lemma process_attorney_writes B attorney :
  Stated.writes_one_record_at_most (NYAttorney.process_attorney B attorney).
Proof.
  unfold NYAttorney.process_attorney.
  assert (Hbody : Stated.writes_one_record_at_most (NYAttorney.search_attorney B attorney)).
  { unfold NYAttorney.search_attorney.
    do 2 (apply write_after; [repeat appends_step|]; intros _).
    do 3 (apply write_after; [apply type_if_set_appends|]; intros _).
    apply write_after; [destruct (NYAttorney.captcha_visible _); repeat appends_step|].
    intros _.
    do 2 (apply write_after; [repeat appends_step|]; intros _).
    apply write_after; [repeat appends_step|]. intros box.
    match goal with |- context [if ?c then _ else _] => destruct c end;
      [apply no_write; repeat appends_step|].
    apply write_after; [repeat appends_step|]. intros candidates.
    apply write_after; [apply choose_link_appends|]. intros i.
    apply write_after; [repeat appends_step|]. intros _.
    apply write_after; [repeat appends_step|]. intros [new_page_url d].
    do 7 (apply write_after; [repeat appends_step|]; intros _).
    apply write_then; [|intros; repeat appends_step].
    intros [tr st]. cbv zeta. unfold trace_of. rewrite attorney_save_to_csv_run.
    cbn [fst snd]. right. exists d.
    rewrite !csv_opens_app, !csv_rows_app, csv_opens_rows, csv_rows_map. cbn.
    split; [lia | now rewrite app_nil_r]. }
  intros w. specialize (Hbody w). cbv zeta in *. unfold trace_of, try_except in *.
  destruct (NYAttorney.search_attorney B attorney w) as [w1 [[]|e]]; cbn [fst] in *;
    [exact Hbody|].
  change (any_Exception e) with true. cbv iota. rewrite emit_run. cbn [fst].
  rewrite csv_opens_app, csv_rows_app.
  change (csv_opens [Log ERROR _]) with 0. change (csv_rows [Log ERROR _]) with (@nil (list Cell)).
  rewrite Nat.add_0_r, app_nil_r. exact Hbody.
Qed.




End Persistence.

(** ** C4: which documents the PDF lookup fetches *)

Section PdfDiscovery.
Import NC.
Variable P : Portal.
Hypothesis Htransient : Stated.transient_failures_only P.

Lemma transfers_app (tr1 tr2 : list Event) :
  transfers (tr1 ++ tr2) = transfers tr1 ++ transfers tr2.
Proof. apply List.filter_app. Qed.

Lemma download_attempt_yields url filepath filename retries attempt w :
  exists evs,
    yields (download_attempt P url filepath filename retries attempt) w evs
      (snd (Stated.attempt_transfers P url filepath attempt))
    /\ transfers evs = fst (Stated.attempt_transfers P url filepath attempt).
Proof.
  destruct w as [tr st]. unfold yields, download_attempt, Stated.attempt_transfers.
  destruct (DisplayDoc P url attempt) as [e|e|] eqn:E.
  - pose proof (Htransient url attempt e (or_introl E)) as He.
    eexists. split.
    + mrun. rewrite He. rewrite <- !app_assoc. reflexivity.
    + reflexivity.
  - pose proof (Htransient url attempt e (or_intror E)) as He.
    eexists. split.
    + mrun. rewrite He. rewrite <- !app_assoc. reflexivity.
    + reflexivity.
  - eexists. split.
    + mrun. rewrite <- !app_assoc. reflexivity.
    + reflexivity.
Qed.

Lemma yields_bind {A B} (m : M Store A) (k : A -> M Store B) w evs a evs' b :
  yields m w evs a -> yields (k a) (fst w ++ evs, snd w) evs' b ->
  yields (bind m k) w (evs ++ evs') b.
Proof.
  unfold yields. intros Hm Hk. rewrite (bind_ok _ _ _ _ _ Hm), Hk. cbn [fst snd].
  now rewrite app_assoc.
Qed.

Lemma yields_ret {A} (a : A) (w : list Event * Store) : yields (ret a) w [] a.
Proof. unfold yields. rewrite ret_run, app_nil_r. now destruct w. Qed.

Lemma yields_emit ev (w : list Event * Store) : yields (emit ev) w [ev] tt.
Proof. reflexivity. Qed.

Lemma download_attempts_yields url filepath filename retries attempts w :
  exists evs,
    yields (download_attempts P url filepath filename retries attempts) w evs
      (snd (Stated.file_transfers P url filepath attempts))
    /\ transfers evs = fst (Stated.file_transfers P url filepath attempts).
Proof.
  revert w. induction attempts as [|attempt rest IH]; intros w;
    cbn [download_attempts Stated.file_transfers].
  - exists []. split; [apply yields_ret | reflexivity].
  - destruct (download_attempt_yields url filepath filename retries attempt w)
      as (evs & Hrun & Htr).
    destruct (Stated.attempt_transfers P url filepath attempt) as [exp written].
    cbn [fst snd] in *. destruct written.
    + exists evs. split; [|assumption].
      rewrite <- (app_nil_r evs). eapply yields_bind; [exact Hrun | apply yields_ret].
    + destruct (IH (fst w ++ evs, snd w)) as (evs' & Hrun' & Htr').
      destruct (Stated.file_transfers P url filepath rest) as [exp' written'].
      cbn [fst snd] in *. exists (evs ++ evs'). split.
      * eapply yields_bind; [exact Hrun | exact Hrun'].
      * now rewrite transfers_app, Htr, Htr'.
Qed.

Lemma try_parent_links_yields case_no doc_id doc_type_id doc_type doc_name event_name
    file_path filename parent_links :
  forall pdf_found w, exists evs found,
    yields (try_parent_links P case_no doc_id doc_type_id doc_type doc_name event_name
              file_path filename pdf_found parent_links) w evs found
    /\ transfers evs
       = Stated.link_transfers P file_path
           (map (fun link => case_pdf_url doc_id case_no link doc_type_id doc_type
                               doc_name event_name) parent_links).
Proof.
  induction parent_links as [|link rest IH]; intros pdf_found w;
    cbn [try_parent_links map Stated.link_transfers].
  - exists [], pdf_found. split; [apply yields_ret | reflexivity].
  - set (url := case_pdf_url doc_id case_no link doc_type_id doc_type doc_name event_name).
    set (ev1 := Log INFO _).
    destruct (download_attempts_yields url file_path filename 2 (seq 0 2)
                (fst w ++ [ev1], snd w)) as (evs & Hrun & Htr).
    fold (download_file P url file_path filename) in Hrun.
    destruct (Stated.file_transfers P url file_path (seq 0 2)) as [exp written].
    cbn [fst snd] in *. destruct written.
    + exists ([ev1] ++ evs ++ []), true. split.
      * eapply yields_bind; [apply yields_emit|].
        eapply yields_bind; [exact Hrun | apply yields_ret].
      * rewrite !transfers_app, Htr. cbn. reflexivity.
    + set (ev2 := Log INFO ("File Not downloaded. Trying with case id: " +:+ _)).
      destruct (IH false ((fst w ++ [ev1]) ++ evs ++ [ev2], snd w))
        as (evs' & found & Hrun' & Htr').
      exists ([ev1] ++ evs ++ [ev2] ++ evs'), found. split.
      * eapply yields_bind; [apply yields_emit|].
        eapply yields_bind; [exact Hrun|]. cbn [fst snd].
        eapply yields_bind; [apply yields_emit|]. cbn [fst snd].
        rewrite <- app_assoc. exact Hrun'.
      * rewrite !transfers_app, Htr, Htr'. cbn. reflexivity.
Qed.

Lemma scan_case_event_yields case_no ev pdf_found seen w :
  Stated.well_formed [ev] ->
  exists evs found,
    yields (scan_case_event P case_no (pdf_found, seen) ev) w evs
      (found, fst (Stated.event_plan P case_no seen ev))
    /\ transfers evs = snd (Stated.event_plan P case_no seen ev).
Proof.
  intros Hwf. apply Forall_inv in Hwf. destruct Hwf as ((name & Hname) & Hfrag).
  unfold scan_case_event, Stated.event_plan, Stated.bond_document in *. rewrite Hname in *.
  destruct (contains "Bond" name) eqn:Hbond;
    [|exists [], pdf_found; destruct (Documents ev); split; [apply yields_ret | reflexivity
                                                            | apply yields_ret | reflexivity]].
  destruct (Documents ev) as [|doc rest];
    [exists [], pdf_found; split; [apply yields_ret | reflexivity]|].
  destruct (Hfrag name doc eq_refl) as (doc_id & Hid). rewrite Hid.
  assert (Hstep : forall (k : option string -> M Store (bool * list string)) evs r,
             yields (k doc_id) w evs r -> yields (bind (lift (Ok doc_id)) k) w evs r)
    by (intros; assumption).
  destruct (mem (formatted_file_name name) seen).
  - exists [Log INFO (formatted_file_name name +:+ " is already downloaded for case: "
                      +:+ case_no +:+ ". Skipping this file.")], pdf_found.
    split; [|reflexivity]. apply Hstep.
    apply (yields_bind _ _ w [_] tt [] _); [apply yields_emit | apply yields_ret].
  - cbn [fst snd].
    set (dir := MakeDirs (path_join (path_join "Scraped Data" "Scraped PDF's") case_no)).
    destruct (try_parent_links_yields case_no doc_id (DocTypeCodeID doc)
                (DocTypeDescription doc) (DocumentName doc) (sanitized_event_name name)
                (path_join (path_join (path_join "Scraped Data" "Scraped PDF's") case_no)
                   (formatted_file_name name +:+ ".pdf"))
                (formatted_file_name name +:+ ".pdf") (ParentLinks doc) pdf_found
                (fst w ++ [dir], snd w))
      as (evs & found & Hrun & Htr).
    exists ([dir] ++ evs ++ []), found.
    split.
    + apply Hstep. eapply yields_bind; [apply yields_emit|].
      eapply yields_bind; [exact Hrun | apply yields_ret].
    + rewrite !transfers_app, Htr. cbn [transfers List.filter is_transfer app].
      rewrite app_nil_r. unfold Stated.document_transfers, Stated.document_urls,
        Stated.document_path. cbn [fst]. now rewrite Hid.
Qed.

Lemma well_formed_cons ev events :
  Stated.well_formed (ev :: events) ->
  Stated.well_formed [ev] /\ Stated.well_formed events.
Proof.
  unfold Stated.well_formed. intros H. inversion H; subst. split; [|assumption].
  now constructor.
Qed.

Lemma selected_cons case_no seen ev events :
  flat_map (Stated.document_transfers P case_no) (Stated.selected seen (ev :: events))
  = snd (Stated.event_plan P case_no seen ev)
    ++ flat_map (Stated.document_transfers P case_no)
         (Stated.selected (fst (Stated.event_plan P case_no seen ev)) events).
Proof.
  cbn [Stated.selected]. unfold Stated.event_plan.
  destruct (Stated.bond_document ev) as [[name doc]|]; [|reflexivity].
  destruct (mem (formatted_file_name name) seen); reflexivity.
Qed.

Lemma scan_events_yields case_no events :
  Stated.well_formed events ->
  forall pdf_found seen w, exists evs acc,
    yields (for_fold (scan_case_event P case_no) (pdf_found, seen) events) w evs acc
    /\ transfers evs
       = flat_map (Stated.document_transfers P case_no) (Stated.selected seen events).
Proof.
  induction events as [|ev events IH]; intros Hwf pdf_found seen w.
  - exists [], (pdf_found, seen). split; [apply yields_ret | reflexivity].
  - apply well_formed_cons in Hwf as [Hev Hrest].
    destruct (scan_case_event_yields case_no ev pdf_found seen w Hev)
      as (evs & found & Hrun & Htr).
    destruct (IH Hrest found (fst (Stated.event_plan P case_no seen ev)) (fst w ++ evs, snd w))
      as (evs' & acc & Hrun' & Htr').
    exists (evs ++ evs'), acc. split.
    + cbn [for_fold]. eapply yields_bind; [exact Hrun | exact Hrun'].
    + now rewrite transfers_app, Htr, Htr', selected_cons.
Qed.

Lemma get_pdf_files_yields case_pdf_api case_no events w :
  CaseEvents P case_pdf_api = Ok events ->
  Stated.well_formed events ->
  exists evs found,
    yields (get_pdf_files P case_pdf_api case_no) w evs found
    /\ transfers evs
       = HttpGet case_pdf_api
         :: flat_map (Stated.document_transfers P case_no) (Stated.selected [] events).
Proof.
  intros Hevents Hwf.
  set (ev1 := Log INFO ("For PDF URL info Sending Request to API: " +:+ case_pdf_api)).
  set (ev2 := Log INFO "Request Successful Now Extracting relevant document name, type, id's to construct the PDF URL.").
  destruct (scan_events_yields case_no events Hwf false []
              (fst w ++ [ev1; HttpGet case_pdf_api; ev2], snd w))
    as (evs & [found seen] & Hrun & Htr).
  exists ([ev1; HttpGet case_pdf_api; ev2] ++ evs
          ++ [if negb found then Log INFO ("PDF not found for case: " +:+ case_no)
              else Log INFO ("PDF found for case: " +:+ case_no)]), found.
  split.
  - unfold yields, get_pdf_files. apply try_except_ok. unfold find_pdf_files.
    mstep. rewrite Hevents. mstep. rewrite <- !app_assoc. cbn [app].
    unfold yields in Hrun. rewrite (bind_ok _ _ _ _ _ Hrun). cbn [fst snd].
    destruct found; cbn [negb]; mstep; rewrite <- !app_assoc; reflexivity.
  - rewrite !transfers_app, Htr.
    destruct found; cbn; now rewrite app_nil_r.
Qed.

Lemma selected_names (events : list CaseEvent) :
  forall seen,
    let names := map (fun sel => formatted_file_name (fst sel))
                   (Stated.selected seen events) in
    NoDup names
    /\ (forall n, In n names -> ~ In n seen)
    /\ (forall name doc, In (name, doc) (Stated.selected seen events) ->
                         exists ev, In ev events /\ Stated.bond_document ev = Some (name, doc))
    /\ (forall ev name doc, In ev events -> Stated.bond_document ev = Some (name, doc) ->
                            In (formatted_file_name name) seen
                            \/ In (formatted_file_name name) names).
Proof.
  induction events as [|ev events IH]; intros seen; cbn [Stated.selected].
  - cbn. repeat split; [constructor | intros n [] | intros name doc [] | intros ev name doc []].
  - destruct (Stated.bond_document ev) as [[name doc]|] eqn:Hev.
    + destruct (mem (formatted_file_name name) seen) eqn:Hseen.
      * destruct (IH seen) as (H1 & H2 & H3 & H4). cbv zeta.
        split; [exact H1|]. split; [exact H2|]. split.
        -- intros n d Hin. destruct (H3 n d Hin) as (ev' & Hin' & Hb).
           exists ev'. split; [now right | assumption].
        -- intros ev' n d [<- | Hin] Hb.
           ++ rewrite Hev in Hb. inversion Hb; subst. left. now apply mem_In.
           ++ now apply (H4 ev' n d).
      * destruct (IH (seen ++ [formatted_file_name name])) as (H1 & H2 & H3 & H4).
        cbv zeta. cbn [map fst]. split.
        { apply NoDup_cons. split; [|exact H1].
          intros Hin. apply list_elem_of_In in Hin. apply H2 in Hin.
          apply Hin, in_app_iff. right. now left. }
        split.
        { intros n [<- | Hin]; [now apply mem_false_In|].
          intros Hn. apply (H2 n Hin), in_app_iff. now left. }
        split.
        { intros n d [Heq | Hin].
          - inversion Heq; subst. exists ev. split; [now left | assumption].
          - destruct (H3 n d Hin) as (ev' & Hin' & Hb).
            exists ev'. split; [now right | assumption]. }
        intros ev' n d [<- | Hin] Hb.
        { rewrite Hev in Hb. inversion Hb; subst. right. now left. }
        destruct (H4 ev' n d Hin Hb) as [Hs | Hs].
        { apply in_app_iff in Hs as [Hs | [<- | []]]; [now left | right; now left]. }
        right. now right.
    + destruct (IH seen) as (H1 & H2 & H3 & H4). cbv zeta.
      split; [exact H1|]. split; [exact H2|]. split.
      * intros n d Hin. destruct (H3 n d Hin) as (ev' & Hin' & Hb).
        exists ev'. split; [now right | assumption].
      * intros ev' n d [<- | Hin] Hb; [congruence | now apply (H4 ev' n d)].
Qed.

(** C4, amended. The PDF lookup goes through all the events of the
    payload and fetches the first document (and no other) of every event
    whose type description contains "Bond", except an event whose formatted
    file name is that of an earlier such event: that one is skipped without
    a request or a file being opened. For a fetched document the URLs of its
    parent links are tried in order, each twice at most, and none after the
    first download that succeeds. *)
Theorem C4_documents_fetched (case_pdf_api case_no : string)
    (events : list CaseEvent) (w : list Event * Store) :
  CaseEvents P case_pdf_api = Ok events ->
  Stated.well_formed events ->
  let fetched := Stated.selected [] events in
  let names := map (fun sel => formatted_file_name (fst sel)) fetched in
  (exists found, outcome_of (get_pdf_files P case_pdf_api case_no) w = Ok found)
  /\ transfers (trace_of (get_pdf_files P case_pdf_api case_no) w)
     = transfers (fst w)
       ++ HttpGet case_pdf_api
          :: flat_map (Stated.document_transfers P case_no) fetched
  /\ NoDup names
  /\ (forall name doc, In (name, doc) fetched ->
        exists ev rest,
          In ev events /\ EventTypeDescription ev = Some name
          /\ contains "Bond" name = true /\ Documents ev = doc :: rest)
  /\ (forall ev name doc rest,
        In ev events -> EventTypeDescription ev = Some name ->
        contains "Bond" name = true -> Documents ev = doc :: rest ->
        In (formatted_file_name name) names)
  /\ (forall path url rest,
        DisplayDoc P url 0 = Downloaded ->
        Stated.link_transfers P path (url :: rest) = [HttpGet url; FileOpenWb path]).
Proof.
  intros Hevents Hwf fetched names.
  destruct (get_pdf_files_yields case_pdf_api case_no events w Hevents Hwf)
    as (evs & found & Hrun & Htr).
  destruct (selected_names events []) as (Hnodup & _ & Hsound & Hcomplete).
  unfold yields in Hrun.
  split. { exists found. unfold outcome_of. now rewrite Hrun. }
  split. { unfold trace_of. rewrite Hrun. cbn [fst]. now rewrite transfers_app, Htr. }
  split; [exact Hnodup|].
  split.
  { intros name doc Hin. destruct (Hsound name doc Hin) as (ev & Hev & Hb).
    unfold Stated.bond_document in Hb.
    destruct (EventTypeDescription ev) as [n|] eqn:Hn; [|discriminate].
    destruct (Documents ev) as [|d rest] eqn:Hd; [discriminate|].
    destruct (contains "Bond" n) eqn:Hc; [|discriminate].
    inversion Hb; subst. now exists ev, rest. }
  split.
  { intros ev name doc rest Hin Hn Hc Hd.
    destruct (Hcomplete ev name doc Hin) as [[] | H]; [|exact H].
    unfold Stated.bond_document. now rewrite Hn, Hd, Hc. }
  intros path url rest Hdl. cbn [Stated.link_transfers Stated.file_transfers seq].
  unfold Stated.attempt_transfers. rewrite Hdl. reflexivity.
Qed.

End PdfDiscovery.

(** The claim as stated fails: the first Bond event of the sample payload
    is named "Bond", and the document of the later event "Surety Bond/Rider"
    is requested and written all the same. *)
Lemma C4_counterexample :
  let tr := trace_of (NC.get_pdf_files Sample.portal (NC.case_pdf_api_of "101") "24E000001")
              ([], []) in
  List.find (fun ev => match Stated.bond_document ev with Some _ => true | None => false end)
    Sample.bond_events
  = Some {| NC.EventTypeDescription := Some "Bond"; NC.Documents := [Sample.bond_document] |}
  /\ In (FileOpenWb "Scraped Data/Scraped PDF's/24E000001/Surety_Bond-Or-Rider.pdf") tr
  /\ In (HttpGet
           (NC.case_pdf_url (Some "9001") "24E000001"
              {| NC.NodeID := Some "11"; NC.ParentID := Some "501" |}
              (Some "77") (Some "Bond") (Some "bond.pdf") "Surety Bond-Or-Rider")) tr.
Proof.
  cbv zeta. split; [reflexivity|]. split; vm_compute; tauto.
Qed.

(** The sample payload: the events "Bond" and "Surety Bond/Rider" are
    fetched, the second event named "Bond" is not; location 10 fails twice
    and location 11 serves the file. *)
Lemma C4_witness :
  let w0 := (@nil Event, @nil NC.CaseRecord) in
  let lookup := NC.get_pdf_files Sample.portal (NC.case_pdf_api_of "101") "24E000001" in
  let fetched := Stated.selected [] Sample.bond_events in
  let names := map (fun sel => NC.formatted_file_name (fst sel)) fetched in
  (exists found, outcome_of lookup w0 = Ok found)
  /\ transfers (trace_of lookup w0)
     = transfers (fst w0)
       ++ HttpGet (NC.case_pdf_api_of "101")
          :: flat_map (Stated.document_transfers Sample.portal "24E000001") fetched
  /\ NoDup names
  /\ names = ["Bond"; "Surety_Bond-Or-Rider"].
Proof.
  assert (Htransient : Stated.transient_failures_only Sample.portal).
  { intros url attempt e. unfold Sample.portal. cbn [NC.DisplayDoc].
    destruct (contains "locationId=10&" url).
    - destruct attempt; intros [H | H]; inversion H; reflexivity.
    - intros [H | H]; discriminate. }
  assert (Hwf : Stated.well_formed Sample.bond_events).
  { repeat constructor; try (eexists; reflexivity);
      intros name doc H; vm_compute in H; inversion H; subst;
      eexists; reflexivity. }
  destruct (C4_documents_fetched Sample.portal Htransient (NC.case_pdf_api_of "101")
              "24E000001" Sample.bond_events ([], []) eq_refl Hwf)
    as (Hout & Htr & Hnodup & _).
  cbv zeta. split; [exact Hout|]. split; [exact Htr|]. split; [exact Hnodup | reflexivity].
Defined.

(** * Further properties of the scrapers *)

(** ** North Carolina: the attorney entries of a case *)

Section AttorneyEntries.
Import NC.

(** X1. The address cell of an attorney entry is the empty string exactly
    when the attorney has no address; otherwise it is a list with one
    string per address, in order, and such a string is empty exactly when
    all seven components of the address are. *)
Theorem X1_address_cell_of_an_attorney_entry (info : Attorney) :
  (AttorneyAddress (attorney_complete_info info) = CStr "" <-> Addresses info = [])
  /\ match AttorneyAddress (attorney_complete_info info) with
     | CList l => l = map format_address (Addresses info) /\ l <> []
     | CStr s => s = "" /\ Addresses info = []
     | CNone => False
     end
  /\ (forall a,
        format_address a = ""
        <-> AddressLine1 a = "" /\ AddressLine2 a = "" /\ AddressLine3 a = ""
            /\ AddressLine4 a = "" /\ City a = "" /\ State a = ""
            /\ PostalCode a = "").
Proof.
  split; [|split].
  - unfold attorney_complete_info. cbn [AttorneyAddress].
    destruct (Addresses info); cbn [map]; split; intros H; congruence.
  - unfold attorney_complete_info. cbn [AttorneyAddress].
    destruct (Addresses info); cbn [map]; split; congruence.
  - intros a.
    destruct a as [[|c1 s1] [|c2 s2] [|c3 s3] [|c4 s4] [|c5 s5] [|c6 s6] [|c7 s7]];
      cbv; split; intros H; repeat split; try discriminate;
      repeat match goal with H : _ /\ _ |- _ => destruct H end; try discriminate.
Qed.

Lemma name_seen (attorneys : list AttorneyInfo) (n : option string) :
  existsb (fun key => name_eqb (AttorneyName key) n) attorneys
  = existsb (name_eqb n) (names_of attorneys).
Proof.
  unfold names_of. induction attorneys as [|key l IH]; [reflexivity|].
  cbn [existsb map]. rewrite IH. f_equal. unfold name_eqb.
  apply bool_decide_ext. split; congruence.
Qed.

Lemma add_attorneys_first (l : list Attorney) (acc : list AttorneyInfo) :
  fold_left add_attorney l acc
  = acc ++ map attorney_complete_info (Stated.first_of_each_name (names_of acc) l).
Proof.
  revert acc. induction l as [|a l IH]; intros acc;
    cbn [fold_left Stated.first_of_each_name map].
  - now rewrite app_nil_r.
  - rewrite IH. unfold add_attorney at 1 2. cbn [attorney_complete_info AttorneyName].
    rewrite name_seen.
    destruct (existsb (name_eqb (FormattedName a)) (names_of acc)); [reflexivity|].
    unfold names_of at 1. rewrite map_app. cbn [map AttorneyName].
    now rewrite <- app_assoc.
Qed.

(** X2. The attorneys of a case are the entries of the first attorney of
    every name among the attorneys of the record parties, in the order of
    the payload: of two attorneys with one name (or both without a name)
    the address of the first is kept, whatever the second holds. *)
Theorem X2_the_first_attorney_of_a_name_is_kept (parties : list Party) :
  collect_attorneys parties
  = map attorney_complete_info
      (Stated.first_of_each_name []
         (flat_map CasePartyAttorneys (Stated.record_parties 0 parties)))
  /\ (forall a b rest,
        FormattedName a = FormattedName b ->
        collect_attorneys [ {| CasePartyAttorneys := a :: b :: rest |} ]
        = collect_attorneys [ {| CasePartyAttorneys := a :: rest |} ]).
Proof.
  split.
  - unfold collect_attorneys. rewrite scan_parties_records. apply add_attorneys_first.
  - intros a b rest Hab. unfold collect_attorneys. rewrite !scan_parties_records.
    cbn [Stated.record_parties CasePartyAttorneys length]. cbn [Nat.ltb Nat.leb].
    cbn [flat_map]. rewrite !app_nil_r, !add_attorneys_first.
    cbn [names_of map app CasePartyAttorneys Stated.first_of_each_name existsb orb].
    rewrite <- Hab. unfold name_eqb at 1. rewrite bool_decide_true by reflexivity.
    reflexivity.
Qed.

End AttorneyEntries.

(** ** North Carolina: downloads *)

Section Downloads.
Import NC.
Variable P : Portal.

Lemma download_attempt_run url filepath filename retries attempt tr (st : Store) :
  download_attempt P url filepath filename retries attempt (tr, st)
  = match DisplayDoc P url attempt with
    | Downloaded =>
        ((tr ++ [HttpGet url; FileOpenWb filepath;
                 Log INFO ("Successfully Downloaded file: " +:+ filename)], st), Ok true)
    | GetFails e =>
        if retried e
        then ((tr ++ [HttpGet url;
                      Log ERROR ("Download failed (" +:+ exn_name e +:+ "), retrying "
                                 +:+ str_nat (attempt + 1) +:+ "/" +:+ str_nat retries
                                 +:+ "...")], st), Ok false)
        else ((tr ++ [HttpGet url], st), Raise e)
    | StreamFails e =>
        if retried e
        then ((tr ++ [HttpGet url; FileOpenWb filepath;
                      Log ERROR ("Download failed (" +:+ exn_name e +:+ "), retrying "
                                 +:+ str_nat (attempt + 1) +:+ "/" +:+ str_nat retries
                                 +:+ "...")], st), Ok false)
        else ((tr ++ [HttpGet url; FileOpenWb filepath], st), Raise e)
    end.
Proof.
  unfold download_attempt.
  destruct (DisplayDoc P url attempt) as [e|e|]; mrun;
    try destruct (retried e); rewrite <- ?app_assoc; reflexivity.
Qed.

(** X3. One call of [download_file] sends one or two requests for the URL
    and leaves the batch alone. The second request is sent exactly when
    the first attempt fails with a connection error or a broken stream;
    any other failure of an attempt leaves the function as an exception at
    once. The call answers [True] exactly when its last attempt wrote the
    file, and [False] exactly when both attempts failed with an error that
    is retried. *)
Theorem X3_download_file_sends_at_most_two_requests (url filepath filename : string)
    (w : list Event * Store) :
  let m := download_file P url filepath filename in
  let retried_failure d :=
    exists e, Stated.failure_of d = Some e /\ retried e = true in
  exists evs,
    trace_of m w = fst w ++ evs
    /\ store_of m w = snd w
    /\ (requests evs = [url] \/ requests evs = [url; url])
    /\ (requests evs = [url; url] <-> retried_failure (DisplayDoc P url 0))
    /\ (outcome_of m w = Ok true
        <-> DisplayDoc P url (length (requests evs) - 1) = Downloaded)
    /\ (outcome_of m w = Ok false
        <-> retried_failure (DisplayDoc P url 0) /\ retried_failure (DisplayDoc P url 1))
    /\ (forall e, outcome_of m w = Raise e <->
          retried e = false
          /\ Stated.failure_of (DisplayDoc P url (length (requests evs) - 1)) = Some e).
Proof.
  destruct w as [tr st]. cbv zeta.
  unfold trace_of, store_of, outcome_of, download_file. cbn [seq download_attempts].
  pose proof (download_attempt_run url filepath filename 2 0 tr st) as H0.
  destruct (DisplayDoc P url 0) as [e0|e0|] eqn:E0; cbn [Stated.failure_of].
  all: try destruct (retried e0) eqn:R0.
  all: first [ rewrite (bind_ok _ _ _ _ _ H0) | rewrite (bind_raise _ _ _ _ _ H0) ];
    cbv beta iota.
  all: try match goal with
       | |- context [bind (download_attempt _ _ _ _ _ 1) _ (?tr1, _)] =>
           pose proof (download_attempt_run url filepath filename 2 1 tr1 st) as H1;
           destruct (DisplayDoc P url 1) as [e1|e1|] eqn:E1; cbn [Stated.failure_of];
           try destruct (retried e1) eqn:R1;
           first [ rewrite (bind_ok _ _ _ _ _ H1) | rewrite (bind_raise _ _ _ _ _ H1) ];
           cbv beta iota
       end.
  all: rewrite ?ret_run; cbn [fst snd]; rewrite <- ?app_assoc; eexists;
    (split; [reflexivity|]); (split; [reflexivity|]);
    cbn [requests flat_map app length Nat.sub]; rewrite ?E0, ?E1;
    cbn [Stated.failure_of].
  all: repeat split; try (left; reflexivity); try (right; reflexivity);
    try discriminate; try congruence; try tauto.
  all: try (intros (e & He & Hr); congruence).
  all: try (intros [(e & He & Hr) _]; congruence).
  all: try (intros [_ (e & He & Hr)]; congruence).
  all: try (intros [[=] | [=]]).
  all: try (eexists; split; [reflexivity | assumption]).
  all: try (intros H; inversion H; subst; assumption).
  all: try (intros H; inversion H; subst; reflexivity).
  all: try (intros [H2 H3]; inversion H3; subst; congruence).
Qed.

End Downloads.

(** ** North Carolina: the flag returned by [get_pdf_files] *)

Section PdfFlag.
Import NC.
Variable P : Portal.
Hypothesis Htransient : Stated.transient_failures_only P.

Lemma try_parent_links_flag case_no doc_id doc_type_id doc_type doc_name event_name
    file_path filename parent_links :
  forall pdf_found w, exists evs,
    yields (try_parent_links P case_no doc_id doc_type_id doc_type doc_name event_name
              file_path filename pdf_found parent_links) w evs
      match parent_links with
      | [] => pdf_found
      | _ :: _ =>
          existsb (fun url => snd (Stated.file_transfers P url file_path (seq 0 2)))
            (map (fun link => case_pdf_url doc_id case_no link doc_type_id doc_type
                                doc_name event_name) parent_links)
      end.
Proof.
  induction parent_links as [|link rest IH]; intros pdf_found w;
    cbn [try_parent_links map existsb].
  - exists []. apply yields_ret.
  - set (url := case_pdf_url doc_id case_no link doc_type_id doc_type doc_name event_name).
    set (ev1 := Log INFO _).
    destruct (download_attempts_yields P Htransient url file_path filename 2 (seq 0 2)
                (fst w ++ [ev1], snd w)) as (evs & Hrun & _).
    fold (download_file P url file_path filename) in Hrun.
    destruct (snd (Stated.file_transfers P url file_path (seq 0 2))).
    + exists ([ev1] ++ evs ++ []).
      eapply yields_bind; [apply yields_emit|].
      eapply yields_bind; [exact Hrun | apply yields_ret].
    + set (ev2 := Log INFO ("File Not downloaded. Trying with case id: " +:+ _)).
      destruct (IH false ((fst w ++ [ev1]) ++ evs ++ [ev2], snd w)) as (evs' & Hrun').
      exists ([ev1] ++ evs ++ [ev2] ++ evs').
      eapply yields_bind; [apply yields_emit|].
      eapply yields_bind; [exact Hrun|]. cbn [fst snd].
      eapply yields_bind; [apply yields_emit|]. cbn [fst snd].
      rewrite <- app_assoc. cbn [orb].
      destruct rest; exact Hrun'.
Qed.

Lemma scan_case_event_flag case_no ev pdf_found seen w :
  Stated.well_formed [ev] ->
  exists evs,
    yields (scan_case_event P case_no (pdf_found, seen) ev) w evs
      (Stated.flag_after P case_no (Stated.selected seen [ev]) pdf_found,
       fst (Stated.event_plan P case_no seen ev)).
Proof.
  intros Hwf. apply Forall_inv in Hwf. destruct Hwf as ((name & Hname) & Hfrag).
  cbn [Stated.selected].
  unfold scan_case_event, Stated.event_plan, Stated.bond_document in *. rewrite Hname in *.
  destruct (contains "Bond" name) eqn:Hbond;
    [|exists []; destruct (Documents ev); apply yields_ret].
  destruct (Documents ev) as [|doc rest]; [exists []; apply yields_ret|].
  destruct (Hfrag name doc eq_refl) as (doc_id & Hid). rewrite Hid.
  assert (Hstep : forall (k : option string -> M Store (bool * list string)) evs r,
             yields (k doc_id) w evs r -> yields (bind (lift (Ok doc_id)) k) w evs r)
    by (intros; assumption).
  destruct (mem (formatted_file_name name) seen).
  - exists [Log INFO (formatted_file_name name +:+ " is already downloaded for case: "
                      +:+ case_no +:+ ". Skipping this file.")].
    apply Hstep.
    apply (yields_bind _ _ w [_] tt [] _); [apply yields_emit | apply yields_ret].
  - cbn [fst snd Stated.flag_after fold_left].
    set (dir := MakeDirs (path_join (path_join "Scraped Data" "Scraped PDF's") case_no)).
    destruct (try_parent_links_flag case_no doc_id (DocTypeCodeID doc)
                (DocTypeDescription doc) (DocumentName doc) (sanitized_event_name name)
                (path_join (path_join (path_join "Scraped Data" "Scraped PDF's") case_no)
                   (formatted_file_name name +:+ ".pdf"))
                (formatted_file_name name +:+ ".pdf") (ParentLinks doc) pdf_found
                (fst w ++ [dir], snd w))
      as (evs & Hrun).
    exists ([dir] ++ evs ++ []).
    apply Hstep. eapply yields_bind; [apply yields_emit|].
    eapply yields_bind; [exact Hrun|].
    unfold Stated.document_written, Stated.document_urls, Stated.document_path.
    cbn [fst snd]. rewrite Hid.
    destruct (ParentLinks doc); apply yields_ret.
Qed.

Lemma flag_after_cons case_no seen ev events pdf_found :
  Stated.flag_after P case_no (Stated.selected seen (ev :: events)) pdf_found
  = Stated.flag_after P case_no
      (Stated.selected (fst (Stated.event_plan P case_no seen ev)) events)
      (Stated.flag_after P case_no (Stated.selected seen [ev]) pdf_found).
Proof.
  cbn [Stated.selected]. unfold Stated.event_plan.
  destruct (Stated.bond_document ev) as [[name doc]|]; [|reflexivity].
  destruct (mem (formatted_file_name name) seen); reflexivity.
Qed.

Lemma flag_after_none case_no plan pdf_found :
  Forall (fun sel => ParentLinks (snd sel) = []) plan ->
  Stated.flag_after P case_no plan pdf_found = pdf_found.
Proof.
  unfold Stated.flag_after. induction 1 as [|sel plan Hsel _ IH]; [reflexivity|].
  cbn [fold_left]. now rewrite Hsel.
Qed.

Lemma scan_events_flag case_no events :
  Stated.well_formed events ->
  forall pdf_found seen w, exists evs seen',
    yields (for_fold (scan_case_event P case_no) (pdf_found, seen) events) w evs
      (Stated.flag_after P case_no (Stated.selected seen events) pdf_found, seen').
Proof.
  induction events as [|ev events IH]; intros Hwf pdf_found seen w.
  - exists [], seen. apply yields_ret.
  - apply well_formed_cons in Hwf as [Hev Hrest].
    destruct (scan_case_event_flag case_no ev pdf_found seen w Hev) as (evs & Hrun).
    destruct (IH Hrest (Stated.flag_after P case_no (Stated.selected seen [ev]) pdf_found)
                (fst (Stated.event_plan P case_no seen ev)) (fst w ++ evs, snd w))
      as (evs' & seen' & Hrun').
    exists (evs ++ evs'), seen'. rewrite flag_after_cons.
    cbn [for_fold]. eapply yields_bind; [exact Hrun | exact Hrun'].
Qed.

(** X4. When the events payload is well formed and downloads fail with
    retried errors only, [get_pdf_files] answers with the flag of the last
    document it fetched: when the last fetched document has a parent link,
    the answer says whether that document was written, whether or not an
    earlier document of the case was; it is [False] when no fetched
    document has a parent link. *)
Theorem X4_get_pdf_files_answers_for_the_last_document (case_pdf_api case_no : string)
    (events : list CaseEvent) (w : list Event * Store) :
  CaseEvents P case_pdf_api = Ok events ->
  Stated.well_formed events ->
  let fetched := Stated.selected [] events in
  outcome_of (get_pdf_files P case_pdf_api case_no) w
  = Ok (Stated.flag_after P case_no fetched false)
  /\ (forall earlier sel,
        fetched = earlier ++ [sel] -> ParentLinks (snd sel) <> [] ->
        outcome_of (get_pdf_files P case_pdf_api case_no) w
        = Ok (Stated.document_written P case_no sel))
  /\ (Forall (fun sel => ParentLinks (snd sel) = []) fetched ->
      outcome_of (get_pdf_files P case_pdf_api case_no) w = Ok false).
Proof.
  intros Hevents Hwf fetched.
  assert (Hout : outcome_of (get_pdf_files P case_pdf_api case_no) w
                 = Ok (Stated.flag_after P case_no fetched false)).
  { set (ev1 := Log INFO ("For PDF URL info Sending Request to API: " +:+ case_pdf_api)).
    set (ev2 := Log INFO "Request Successful Now Extracting relevant document name, type, id's to construct the PDF URL.").
    destruct (scan_events_flag case_no events Hwf false []
                (fst w ++ [ev1; HttpGet case_pdf_api; ev2], snd w))
      as (evs & seen' & Hrun).
    fold fetched in Hrun. unfold yields in Hrun.
    unfold outcome_of, get_pdf_files, try_except, find_pdf_files.
    mstep. rewrite Hevents. mstep. rewrite <- !app_assoc. cbn [app].
    rewrite (bind_ok _ _ _ _ _ Hrun). cbn [fst snd].
    destruct (Stated.flag_after P case_no fetched false); cbn [negb]; mstep; reflexivity. }
  split; [exact Hout|]. split.
  - intros earlier sel Hsplit Hlinks. rewrite Hout, Hsplit.
    unfold Stated.flag_after. rewrite fold_left_app. cbn [fold_left].
    destruct (ParentLinks (snd sel)); [contradiction | reflexivity].
  - intros Hnone. rewrite Hout. f_equal. now apply flag_after_none.
Qed.

End PdfFlag.

(** In the sample payload the document of the event "Bond" is written and
    that of the later event "Bond Rider" is not: the answer is [False]. *)
Lemma X4_witness :
  let P := Sample.portal_with Sample.late_failure_events in
  let lookup := NC.get_pdf_files P (NC.case_pdf_api_of "101") "24E000001" in
  outcome_of lookup ([], []) = Ok false
  /\ In (Log INFO "Successfully Downloaded file: Bond.pdf") (trace_of lookup ([], [])).
Proof.
  assert (Htransient : Stated.transient_failures_only
                         (Sample.portal_with Sample.late_failure_events)).
  { intros url attempt e. unfold Sample.portal_with, Sample.portal. cbn [NC.DisplayDoc].
    destruct (contains "locationId=10&" url).
    - destruct attempt; intros [H | H]; inversion H; reflexivity.
    - intros [H | H]; discriminate. }
  assert (Hwf : Stated.well_formed Sample.late_failure_events).
  { repeat constructor; try (eexists; reflexivity);
      intros name doc H; vm_compute in H; inversion H; subst;
      eexists; reflexivity. }
  destruct (X4_get_pdf_files_answers_for_the_last_document
              (Sample.portal_with Sample.late_failure_events) Htransient
              (NC.case_pdf_api_of "101") "24E000001" Sample.late_failure_events ([], [])
              eq_refl Hwf) as (Hout & _).
  cbv zeta. split; [exact Hout|]. vm_compute. tauto.
Defined.

(** ** North Carolina: the case id of a results row *)

Section CaseIdentity.
Import NC.

Lemma append_cons (c : ascii) (s t : string) : String c s +:+ t = String c (s +:+ t).
Proof. reflexivity. Qed.

Lemma append_assoc (s t u : string) : (s +:+ t) +:+ u = s +:+ (t +:+ u).
Proof. induction s as [|c s IH]; [reflexivity|]. now rewrite !append_cons, IH. Qed.

Lemma append_nil_r (s : string) : s +:+ "" = s.
Proof. induction s as [|c s IH]; [reflexivity|]. now rewrite append_cons, IH. Qed.

Lemma prefix_first_char (a c : ascii) (sep' s : string) :
  Ascii.eqb c a = false -> String.prefix (String a sep') (String c s) = false.
Proof.
  intros H. cbn. destruct (ascii_dec a c) as [->|]; [|reflexivity].
  now rewrite Ascii.eqb_refl in H.
Qed.

(** A run of characters other than the first of [sep] is added to the
    field being read. *)
Lemma split_go_no_char (a : ascii) (sep' x cur r : string) :
  no_char a x = true ->
  split_go (String a sep') cur 0 (x +:+ r) = split_go (String a sep') (cur +:+ x) 0 r.
Proof.
  revert cur. induction x as [|c x IH]; intros cur Hx.
  - now rewrite append_nil_r.
  - cbn [no_char] in Hx. apply andb_true_iff in Hx as [Hc Hx].
    apply negb_true_iff in Hc.
    rewrite append_cons. cbn [split_go].
    rewrite (prefix_first_char a c sep' (x +:+ r) Hc), (IH _ Hx), append_assoc.
    reflexivity.
Qed.

Lemma prefix_append (p r : string) : String.prefix p (p +:+ r) = true.
Proof.
  induction p as [|c p IH]; [now destruct r|].
  rewrite append_cons. cbn [String.prefix].
  destruct (ascii_dec c c); [exact IH | congruence].
Qed.

Lemma split_go_skip (sep cur p r : string) :
  split_go sep cur (String.length p) (p +:+ r) = split_go sep cur 0 r.
Proof.
  induction p as [|c p IH]; [reflexivity|].
  rewrite append_cons. cbn [split_go String.length]. exact IH.
Qed.

(** An occurrence of [sep] ends the field. *)
Lemma split_go_at_sep (a : ascii) (sep' cur r : string) :
  split_go (String a sep') cur 0 (String a sep' +:+ r)
  = cur :: split_go (String a sep') "" 0 r.
Proof.
  rewrite append_cons. cbn [split_go]. rewrite <- append_cons, prefix_append.
  cbn [String.length]. rewrite Nat.sub_succ, Nat.sub_0_r. now rewrite split_go_skip.
Qed.

(** The first field starts with the characters read so far. *)
Lemma split_go_head (sep r cur : string) :
  exists t l, split_go sep cur 0 r = (cur +:+ t) :: l.
Proof.
  revert cur. induction r as [|c r IH]; intros cur.
  - exists "", []. now rewrite append_nil_r.
  - cbn [split_go]. destruct (String.prefix sep (String c r)).
    + exists "". eexists. now rewrite append_nil_r.
    + destruct (IH (cur +:+ String c "")) as (t & l & ->).
      exists (String c t), l. now rewrite append_assoc.
Qed.

Lemma split_go_nonempty (sep s cur : string) (skip : nat) :
  exists a l, split_go sep cur skip s = a :: l.
Proof.
  revert cur skip. induction s as [|c s IH]; intros cur skip; [now eexists; eexists|].
  cbn [split_go]. destruct skip; [|apply IH].
  destruct (String.prefix sep (String c s)); [now eexists; eexists | apply IH].
Qed.

(** A string without an occurrence of [sep] is one field. *)
Lemma split_go_absent (sep s cur : string) :
  contains sep s = false -> split_go sep cur 0 s = [cur +:+ s].
Proof.
  revert cur. induction s as [|c s IH]; intros cur H.
  - now rewrite append_nil_r.
  - cbn [contains] in H. apply orb_false_iff in H as [Hp Hc].
    cbn [split_go]. rewrite Hp, (IH _ Hc), append_assoc. reflexivity.
Qed.

Lemma split_go_present (a : ascii) (sep' s cur : string) :
  contains (String a sep') s = true ->
  exists x y l, split_go (String a sep') cur 0 s = x :: y :: l.
Proof.
  revert cur. induction s as [|c s IH]; intros cur H; [discriminate|].
  cbn [contains] in H. cbn [split_go].
  destruct (String.prefix (String a sep') (String c s)) eqn:Hp.
  - destruct (split_go_nonempty (String a sep') s "" (String.length (String a sep') - 1))
      as (y & l & ->).
    now exists cur, y, l.
  - cbn [orb] in H. apply IH, H.
Qed.

(** X5. The case id of a row is the text between the marker "?id=" of
    its link and the next "&" (or the end of the link), when neither the
    path before the marker nor the id holds a question mark. *)
Theorem X5_case_identity_reads_the_id (path id rest text : string) :
  no_char "?" path = true ->
  no_char "?" id = true ->
  no_char "&" id = true ->
  rest = "" \/ (exists q, rest = "&" +:+ q) ->
  let case_url := path +:+ "?id=" +:+ id +:+ rest in
  case_identity {| caseLink := Some {| data_url := Some case_url; link_text := text |} |}
  = Ok (case_url, text, id).
Proof.
  intros Hpath Hid Hamp Hrest case_url. unfold case_identity, split.
  cbn [caseLink data_url link_text]. unfold case_url.
  rewrite (split_go_no_char "?" "id=" path "" _ Hpath).
  rewrite (split_go_at_sep "?" "id=").
  rewrite (split_go_no_char "?" "id=" id "" _ Hid).
  change ("" +:+ id) with id. change ("" +:+ path) with path.
  assert (Hafter : exists t l,
             split_go "?id=" id 0 rest = (id +:+ t) :: l
             /\ (t = "" \/ exists q, t = "&" +:+ q)).
  { destruct Hrest as [-> | (q & ->)].
    - exists "", []. split; [now rewrite append_nil_r | now left].
    - rewrite (split_go_no_char "?" "id=" "&" id q eq_refl).
      destruct (split_go_head "?id=" q (id +:+ "&")) as (t & l & ->).
      exists ("&" +:+ t), l. split; [now rewrite append_assoc | right; now exists t]. }
  destruct Hafter as (t & l & -> & Ht).
  rewrite (split_go_no_char "&" "" id "" t Hamp). change ("" +:+ id) with id.
  destruct Ht as [-> | (q & ->)]; [reflexivity|].
  now rewrite (split_go_at_sep "&" "").
Qed.

Lemma X5_witness :
  case_identity (Sample.row "101" "24E000001")
  = Ok ("/Portal/Case/CaseDetail?id=101&p=1", "24E000001", "101").
Proof.
  apply (X5_case_identity_reads_the_id "/Portal/Case/CaseDetail" "101" "&p=1" "24E000001");
    [reflexivity | reflexivity | reflexivity | right; now exists "p=1"].
Defined.

(** X6. A row whose link has a URL fails with [IndexError] exactly when
    the URL has no marker "?id=", and a row whose identity cannot be read
    ends [scrape_cases] at once: no request is sent, the batch is as it
    was, and the rows after it are not looked at. *)
Theorem X6_a_row_without_case_id_ends_the_scraping :
  (forall case_url text,
      case_identity {| caseLink := Some {| data_url := Some case_url;
                                           link_text := text |} |}
      = Raise IndexError
      <-> contains "?id=" case_url = false)
  /\ (forall P case others w e,
        case_identity case = Raise e ->
        scrape_cases P (case :: others) w = (w, Raise e)).
Proof.
  split.
  - intros case_url text. unfold case_identity, split. cbn [caseLink data_url link_text].
    destruct (contains "?id=" case_url) eqn:Hc.
    + destruct (split_go_present "?" "id=" case_url "" Hc) as (x & y & l & ->).
      destruct (split_go_nonempty "&" y "" 0) as (i & l' & ->).
      split; discriminate.
    + rewrite (split_go_absent _ _ _ Hc). split; reflexivity.
  - intros P case others w e He. unfold scrape_cases. rewrite for_each_cons.
    unfold scrape_case. rewrite He. reflexivity.
Qed.

End CaseIdentity.

(** ** North Carolina: the records of a results grid *)

Section GridRecords.
Import NC.
Variable P : Portal.

Lemma get_attorney_info_run (case_url : string) (w : list Event * Store) :
  (forall e, Parties P case_url = Raise e -> is_RequestException e = true) ->
  exists evs,
    get_attorney_info P case_url w
    = ((fst w ++ evs, snd w),
       Ok match Parties P case_url with
          | Ok all_parties => collect_attorneys all_parties
          | Raise _ => []
          end).
Proof.
  intros Hreq. destruct (Parties P case_url) as [parties|e] eqn:HP.
  - eexists. unfold get_attorney_info. mstep. unfold try_except. mstep.
    rewrite HP. mstep. rewrite <- !app_assoc. reflexivity.
  - eexists. apply (get_attorney_info_caught P case_url w e HP (Hreq e eq_refl)).
Qed.

Lemma get_pdf_files_run (case_pdf_api case_no : string) (w : list Event * Store) :
  (forall w e, outcome_of (find_pdf_files P case_pdf_api case_no) w = Raise e ->
               is_RequestException e = true) ->
  exists evs pdf_found,
    get_pdf_files P case_pdf_api case_no w = ((fst w ++ evs, snd w), Ok pdf_found).
Proof.
  intros Hreq.
  destruct (get_pdf_files_total P case_pdf_api case_no w Hreq) as (pdf_found & Hout).
  destruct (get_pdf_files_appends P case_pdf_api case_no w) as (evs & Htr & _ & Hst).
  unfold trace_of, store_of in *.
  destruct (get_pdf_files P case_pdf_api case_no w) as [[tr st] r].
  cbn [fst snd] in *. subst. now exists evs, pdf_found.
Qed.

Lemma scrape_case_entry (case : CaseRow) (w : list Event * Store) :
  Stated.guarded_row P case ->
  exists new,
    store_of (scrape_case P case) w = snd w ++ new
    /\ outcome_of (scrape_case P case) w = Ok tt
    /\ map Stated.entry_of new = option_list (Stated.row_entry P case)
    /\ Forall (fun r => PDF_File r = "Found" \/ PDF_File r = "Not Found") new.
Proof.
  intros (case_url & case_no & case_api_id & Hid & (ty & Hty) & Hparties & Hpdf).
  unfold store_of, outcome_of, scrape_case, Stated.row_entry. rewrite Hid. mstep.
  rewrite Hty. mstep.
  destruct (bool_decide (ty = Some small_estate)); mstep.
  - exists []. rewrite app_nil_r. repeat split. constructor.
  - match goal with |- context [bind (get_attorney_info P ?u) ?k ?w1] =>
      destruct (get_attorney_info_run u w1 Hparties) as (evs1 & E1)
    end.
    rewrite (bind_ok _ _ _ _ _ E1).
    match goal with |- context [bind (get_pdf_files P ?u ?n) ?k ?w1] =>
      destruct (get_pdf_files_run u n w1 Hpdf) as (evs2 & pdf_found & E2)
    end.
    rewrite (bind_ok _ _ _ _ _ E2). mstep.
    eexists [_]. split; [reflexivity|]. split; [reflexivity|].
    split; [reflexivity|]. constructor; [|constructor]. cbn [PDF_File].
    destruct pdf_found; [now left | now right].
Qed.

(** X7. When the identity and the case type of every row can be read and
    the two lookups of a row raise request errors only, [scrape_cases]
    ends normally and appends to the batch one record for every row that
    is not a small estate, in the order of the grid. The record holds the
    text of the row's link as case number, the case type, the attorneys of
    the parties payload (none when that request failed) and, as PDF cell,
    "Found" or "Not Found". *)
Theorem X7_one_record_for_every_row_that_is_kept (all_cases : list CaseRow)
    (w : list Event * Store) :
  Forall (Stated.guarded_row P) all_cases ->
  exists new,
    store_of (scrape_cases P all_cases) w = snd w ++ new
    /\ outcome_of (scrape_cases P all_cases) w = Ok tt
    /\ map Stated.entry_of new = omap (Stated.row_entry P) all_cases
    /\ Forall (fun r => PDF_File r = "Found" \/ PDF_File r = "Not Found") new.
Proof.
  intros Hrows. revert w. induction Hrows as [|case rest Hcase _ IH]; intros w.
  - exists []. rewrite app_nil_r. repeat split. constructor.
  - destruct (scrape_case_entry case w Hcase) as (new1 & Hst & Hout & Hmap & Hpdf).
    unfold store_of, outcome_of, scrape_cases in *. rewrite for_each_cons.
    destruct (scrape_case P case w) as [w1 r] eqn:E. cbn [fst snd] in Hst, Hout. subst r.
    rewrite (bind_ok _ _ _ _ _ E).
    destruct (IH w1) as (new2 & Hst2 & Hout2 & Hmap2 & Hpdf2).
    exists (new1 ++ new2). rewrite Hst2, Hst, Hout2, app_assoc, map_app, Hmap, Hmap2.
    split; [reflexivity|]. split; [reflexivity|]. split.
    + cbn [omap list_omap]. destruct (Stated.row_entry P case); reflexivity.
    + apply Forall_app. now split.
Qed.

End GridRecords.

(** Three rows of the sample portal: case 101 is kept, case 102 is a small
    estate, and the lookups of case 104 fail with request errors. *)
Lemma X7_witness :
  let rows := [Sample.row "101" "24E000001"; Sample.row "102" "24E000002";
               Sample.row "104" "24E000201"] in
  exists new,
    store_of (NC.scrape_cases Sample.portal rows) ([], []) = [] ++ new
    /\ outcome_of (NC.scrape_cases Sample.portal rows) ([], []) = Ok tt
    /\ map Stated.entry_of new
       = [("24E000001", Some "Decedents' Estate", [Sample.info "X"; Sample.info "Y"; Sample.info "Z"]);
          ("24E000201", Some "Decedents' Estate", [])].
Proof.
  destruct (X7_one_record_for_every_row_that_is_kept Sample.portal
              [Sample.row "101" "24E000001"; Sample.row "102" "24E000002";
               Sample.row "104" "24E000201"] ([], []))
    as (new & Hstore & Hout & Hmap & _).
  - repeat constructor.
    + exists "/Portal/Case/CaseDetail?id=101&p=1", "24E000001", "101".
      split; [reflexivity|]. split; [eexists; reflexivity|].
      split.
      * intros e H. vm_compute in H. discriminate.
      * intros w e H. vm_compute in H. discriminate.
    + exists "/Portal/Case/CaseDetail?id=102&p=1", "24E000002", "102".
      split; [reflexivity|]. split; [eexists; reflexivity|].
      split.
      * intros e H. vm_compute in H. discriminate.
      * intros w e H. vm_compute in H. discriminate.
    + exists "/Portal/Case/CaseDetail?id=104&p=1", "24E000201", "104".
      split; [reflexivity|]. split; [eexists; reflexivity|].
      split.
      * intros e H. vm_compute in H. inversion H. reflexivity.
      * intros w e H. vm_compute in H. inversion H. reflexivity.
  - exists new. split; [exact Hstore|]. split; [exact Hout|].
    rewrite Hmap. vm_compute. reflexivity.
Defined.

(** ** North Carolina: the names of the downloaded files *)

Section FileNames.
Import NC.

Lemma no_char_append (d : ascii) (s t : string) :
  no_char d (s +:+ t) = no_char d s && no_char d t.
Proof.
  induction s as [|a s IH]; [reflexivity|].
  rewrite append_cons. cbn [no_char]. now rewrite IH, andb_assoc.
Qed.

(** Replacing a character by a text that does not hold [d] leaves no [d]
    behind, if [d] is that character or is not in the string. *)
Lemma replace_char_no_char (c d : ascii) (new s : string) :
  no_char d new = true ->
  c = d \/ no_char d s = true ->
  no_char d (replace (String c "") new s) = true.
Proof.
  intros Hnew Hs. unfold replace. induction s as [|a s IH]; [reflexivity|].
  cbn [replace_go String.prefix String.length Nat.sub].
  assert (Hs' : c = d \/ no_char d s = true).
  { destruct Hs as [-> | Hs]; [now left|]. right.
    cbn [no_char] in Hs. now apply andb_true_iff in Hs. }
  destruct (ascii_dec c a) as [<- | Hne].
  - replace (String.prefix "" s) with true by (now destruct s).
    rewrite no_char_append, Hnew. now apply IH.
  - cbn [no_char]. rewrite (IH Hs'), andb_true_r. apply negb_true_iff.
    destruct Hs as [<- | Hs].
    + apply Ascii.eqb_neq. congruence.
    + cbn [no_char] in Hs. apply andb_true_iff in Hs as [Ha _].
      now apply negb_true_iff in Ha.
Qed.

Lemma lstrip_no_char (d : ascii) (s : string) :
  no_char d s = true -> no_char d (lstrip s) = true.
Proof.
  induction s as [|a s IH]; [reflexivity|]. intros Hs. cbn [lstrip].
  destruct (is_space a); [|exact Hs].
  cbn [no_char] in Hs. apply andb_true_iff in Hs as [_ Hs]. now apply IH.
Qed.

Lemma rstrip_no_char (d : ascii) (s : string) :
  no_char d s = true -> no_char d (rstrip s) = true.
Proof.
  induction s as [|a s IH]; [reflexivity|]. intros Hs. cbn [rstrip].
  cbn [no_char] in Hs. apply andb_true_iff in Hs as [Ha Hs].
  destruct (is_space a && negb (truthy (rstrip s))); [reflexivity|].
  cbn [no_char]. now rewrite Ha, IH.
Qed.

Lemma strip_no_char (d : ascii) (s : string) :
  no_char d s = true -> no_char d (strip s) = true.
Proof. intros Hs. unfold strip. now apply rstrip_no_char, lstrip_no_char. Qed.

Lemma no_char_prefix (d : ascii) (s : string) :
  no_char d s = true -> String.prefix (String d "") s = false.
Proof.
  destruct s as [|a s]; [reflexivity|]. cbn [no_char String.prefix]. intros Hs.
  apply andb_true_iff in Hs as [Ha _]. apply negb_true_iff, Ascii.eqb_neq in Ha.
  destruct (ascii_dec d a); [congruence | reflexivity].
Qed.

(** X8. The name under which a document is written holds neither a
    slash nor a space, whatever the name of the event: the file is created
    in the folder of the case itself and in no folder below or outside
    it. *)
Theorem X8_a_document_is_written_into_the_case_folder (case_no event_name : string) :
  let filename := formatted_file_name event_name +:+ ".pdf" in
  let business_folder := path_join (path_join "Scraped Data" "Scraped PDF's") case_no in
  no_char "/" filename = true
  /\ no_char " " filename = true
  /\ (Stated.document_path case_no event_name = business_folder +:+ filename
      \/ Stated.document_path case_no event_name
         = business_folder +:+ "/" +:+ filename).
Proof.
  cbv zeta.
  assert (Hslash : no_char "/" (formatted_file_name event_name +:+ ".pdf") = true).
  { rewrite no_char_append, andb_true_r. unfold formatted_file_name, sanitized_event_name.
    apply strip_no_char, replace_char_no_char; [reflexivity|]. right.
    apply replace_char_no_char; [reflexivity | now left]. }
  split; [exact Hslash|]. split.
  - rewrite no_char_append, andb_true_r. unfold formatted_file_name.
    apply strip_no_char, replace_char_no_char; [reflexivity | now left].
  - unfold Stated.document_path.
    set (folder := path_join (path_join "Scraped Data" "Scraped PDF's") case_no).
    set (filename := formatted_file_name event_name +:+ ".pdf") in *.
    assert (Hfolder : truthy folder = true).
    { subst folder. unfold path_join at 1.
      destruct case_no as [|a rest]; [reflexivity|].
      destruct (String.prefix "/" (String a rest)); [reflexivity|].
      reflexivity. }
    assert (Hjoin : path_join folder filename
                    = if String.eqb (String.substring (String.length folder - 1) 1 folder) "/"
                      then folder +:+ filename
                      else folder +:+ "/" +:+ filename).
    { unfold path_join. now rewrite (no_char_prefix "/" filename Hslash), Hfolder. }
    rewrite Hjoin. destruct (String.eqb _ "/"); [now left | now right].
Qed.

End FileNames.

(** ** New York court search: navigation to the search page *)

Section Navigation.
Import NYCourt.

Lemma navigate_step (session : SearchSession) (attempt : nat) (rest : list nat)
    (tr : list Event) (st : Store) :
  let try_line :=
    Log INFO ("Navigation Attempt " +:+ str_nat (attempt + 1) +:+ "/"
              +:+ str_nat max_navigation_retries +:+ " to " +:+ search_url) in
  navigate session (attempt :: rest) (tr, st)
  = match goto session attempt with
    | Ok _ =>
        ((tr ++ [try_line; Log INFO ("Navigated to search page: " +:+ search_url)], st),
         Ok tt)
    | Raise e =>
        if attempt <? max_navigation_retries - 1
        then navigate session rest
               (tr ++ [try_line;
                       Log WARNING ("Navigation failed (" +:+ exn_name e
                                    +:+ "). Retrying in 5s...")], st)
        else ((tr ++ [try_line;
                      Log CRITICAL ("FATAL ERROR: Navigation failed after "
                                    +:+ str_nat max_navigation_retries
                                    +:+ " attempts. Terminating script.")], st),
              Raise e)
    end.
Proof.
  cbv zeta. cbn [navigate].
  destruct (goto session attempt) as [[]|e]; mrun; [now rewrite <- app_assoc|].
  destruct (attempt <? max_navigation_retries - 1); mrun; now rewrite <- app_assoc.
Qed.

(** X9. The search page is asked for three times at most, and a try is
    made only when every earlier one failed. The navigation succeeds
    exactly when one of the three tries does; when all three fail it
    raises the exception of the third. The store is left alone. *)
Theorem X9_navigate_tries_three_times_at_most (session : SearchSession)
    (w : list Event * Store) :
  let m := navigate session (seq 0 max_navigation_retries) in
  exists evs,
    trace_of m w = fst w ++ evs
    /\ store_of m w = snd w
    /\ Stated.navigation_attempts evs
       = match goto session 0, goto session 1 with
         | Ok _, _ => 1
         | Raise _, Ok _ => 2
         | Raise _, Raise _ => 3
         end
    /\ (outcome_of m w = Ok tt
        <-> exists attempt, attempt < 3 /\ goto session attempt = Ok tt)
    /\ (forall e,
          outcome_of m w = Raise e
          <-> (exists e0 e1, goto session 0 = Raise e0 /\ goto session 1 = Raise e1)
              /\ goto session 2 = Raise e).
Proof.
  destruct w as [tr st]. cbv zeta. unfold trace_of, store_of, outcome_of.
  cbn [seq max_navigation_retries]. rewrite navigate_step.
  destruct (goto session 0) as [[]|e0] eqn:E0;
    [|cbn [Nat.ltb Nat.leb max_navigation_retries Nat.sub]; rewrite navigate_step;
      destruct (goto session 1) as [[]|e1] eqn:E1;
      [|cbn [Nat.ltb Nat.leb max_navigation_retries Nat.sub]; rewrite navigate_step;
        destruct (goto session 2) as [[]|e2] eqn:E2]].
  all: cbn [Nat.ltb Nat.leb max_navigation_retries Nat.sub fst snd];
    rewrite <- ?app_assoc.
  all: eexists; (split; [reflexivity|]); (split; [reflexivity|]);
    (split; [reflexivity|]).
  all: split; [split|intros e; split].
  all: try discriminate; try reflexivity.
  all: try (intros _; first [ exists 0; split; [lia | assumption]
                            | exists 1; split; [lia | assumption]
                            | exists 2; split; [lia | assumption] ]).
  all: try (intros (attempt & Hlt & Hok);
            destruct attempt as [|[|[|attempt]]]; [congruence | congruence | congruence | lia]).
  all: try (intros [(e0' & e1' & H0 & H1) H2]; congruence).
  all: try (intros [= <-]; split; [now exists e0, e1 | reflexivity]).
Qed.

End Navigation.

(** ** New York court search: the pages of a result set *)

Section ResultPages.
Import NYCourt.

Let no_page_click : Event -> Prop :=
  fun ev => match ev with
            | Click target => String.prefix "ul.pagination a.page-link:" target
            | _ => false
            end = false.

#[local] Instance any_store_preorder : PreOrder (fun _ _ : Store => True).
Proof. split; red; intros; exact I. Qed.

Lemma scrape_link_no_page_click view county_name month_name i :
  appends no_page_click (fun _ _ => True) (scrape_link view county_name month_name i).
Proof.
  unfold scrape_link. abind; [repeat appends_step|]. intros _.
  destruct (negb _); [repeat appends_step|].
  abind; [repeat appends_step|]. intros _.
  abind; [repeat appends_step|]. intros navigated.
  destruct (negb navigated); [repeat appends_step|].
  abind; [repeat appends_step|]. intros _.
  abind; [repeat appends_step|]. intros [attorney_info|]; [|repeat appends_step].
  abind; [repeat appends_step|]. intros _.
  abind; [|intros _; repeat appends_step].
  unfold append_record.
  apply (appends_update no_page_click (fun _ _ => True)
           (fun st => {| scraped_data := scraped_data st ++ [attorney_info];
                         csv_file := csv_file st |})).
  intros s. exact I.
Qed.

Lemma page_link_clicks_app (tr1 tr2 : list Event) :
  Stated.page_link_clicks (tr1 ++ tr2)
  = Stated.page_link_clicks tr1 + Stated.page_link_clicks tr2.
Proof. unfold Stated.page_link_clicks. now rewrite List.filter_app, length_app. Qed.

Lemma get_attorney_info_within_page (beyond : list nat -> M Store unit) (depth : nat)
    (pages : Site) (here : list nat) (county_name month_name : string) (n : nat)
    (w : list Event * Store) :
  table (pages here) = Ok tt ->
  link_count (pages here) = Ok n ->
  get_attorney_info_within beyond (S depth) pages here county_name month_name w
  = bind (for_each (scrape_link (pages here) county_name month_name) (seq 0 n))
      (fun _ =>
         emit (Log INFO "Checking pagination to see if there are additional pages to process") ;;;
         get_next_page (pages here)
           (fun i =>
              get_attorney_info_within beyond depth pages (i :: here)
                county_name month_name)
           county_name month_name)
      (fst w ++ [Log INFO ("Found " +:+ str_nat n +:+ " file result links to process.")],
       snd w).
Proof.
  intros Htable Hcount. cbn [get_attorney_info_within].
  rewrite Htable, Hcount. reflexivity.
Qed.

Lemma get_attorney_info_page (depth : nat) (pages : Site) (here : list nat)
    (county_name month_name : string) (n : nat) (w : list Event * Store) :
  table (pages here) = Ok tt ->
  link_count (pages here) = Ok n ->
  get_attorney_info (S depth) pages here county_name month_name w
  = bind (for_each (scrape_link (pages here) county_name month_name) (seq 0 n))
      (fun _ =>
         emit (Log INFO "Checking pagination to see if there are additional pages to process") ;;;
         get_next_page (pages here)
           (fun i => get_attorney_info depth pages (i :: here) county_name month_name)
           county_name month_name)
      (fst w ++ [Log INFO ("Found " +:+ str_nat n +:+ " file result links to process.")],
       snd w).
Proof. apply get_attorney_info_within_page. Qed.

Lemma get_next_page_pages (view : PageView) (visit : nat -> M Store unit)
    (county_name month_name : string) (total : nat) (w : list Event * Store) :
  pagination view = Ok (Some total) ->
  get_next_page view visit county_name month_name w
  = for_each (scrape_page_link view visit county_name month_name) (seq 0 total)
      (fst w ++ [Log INFO "Checking pagination to see if there are additional pages to process";
                 Log INFO ("Found " +:+ str_nat total
                           +:+ " subsequent pages for county: " +:+ county_name
                           +:+ " and month: " +:+ month_name +:+ ".")],
       snd w).
Proof.
  intros Hpages. unfold get_next_page. rewrite Hpages. mstep.
  rewrite <- ?app_assoc; reflexivity.
Qed.

Lemma get_next_page_none (view : PageView) (visit : nat -> M Store unit)
    (county_name month_name : string) (w : list Event * Store) :
  pagination view = Ok None ->
  get_next_page view visit county_name month_name w
  = ((fst w ++ [Log INFO "Checking pagination to see if there are additional pages to process";
                Log INFO ("Next pages not found for the county: " +:+ county_name
                          +:+ " and month: " +:+ month_name)],
      snd w), Ok tt).
Proof.
  intros Hpages. unfold get_next_page. rewrite Hpages. mstep.
  rewrite <- ?app_assoc; reflexivity.
Qed.

Lemma scrape_page_link_visit (view : PageView) (visit : nat -> M Store unit)
    (county_name month_name : string) (i : nat) (w : list Event * Store) :
  page_link_visible (page_link view i) = Ok tt ->
  page_click (page_link view i) = Ok tt ->
  scrape_page_link view visit county_name month_name i w
  = bind (visit i) (fun _ => lift (page_back (page_link view i)))
      (fst w ++ [Log INFO ("Navigating to page "
                           +:+ strip (base_url +:+ fmt (href (page_link view i)))
                           +:+ " for county: " +:+ county_name +:+ " and month: "
                           +:+ month_name +:+ ".");
                 Click ("ul.pagination a.page-link:" +:+ str_nat i)],
       snd w).
Proof.
  intros Hvisible Hclick. unfold scrape_page_link. rewrite Hvisible. mstep.
  unfold try_except. rewrite Hclick.
  unfold bind, lift, emit, ret. cbn [fst snd negb]. rewrite <- ?app_assoc. reflexivity.
Qed.

Lemma scrape_links_run (view : PageView) (county_name month_name : string) (n : nat)
    (w : list Event * Store) :
  (forall i, i < n -> Stated.guarded_link (link view i)) ->
  exists w1,
    for_each (scrape_link view county_name month_name) (seq 0 n) w = (w1, Ok tt)
    /\ Stated.page_link_clicks (fst w1) = Stated.page_link_clicks (fst w).
Proof.
  intros Hlinks.
  assert (Htotal : forall i w0, In i (seq 0 n) ->
                     snd (scrape_link view county_name month_name i w0) = Ok tt).
  { intros i w0 Hi. apply scrape_link_total, Hlinks. apply in_seq in Hi. lia. }
  pose proof (for_each_total _ _ Htotal w) as Hrun.
  exists (fst (for_each (scrape_link view county_name month_name) (seq 0 n) w)).
  split; [now rewrite Hrun|].
  unfold Stated.page_link_clicks. f_equal.
  apply (appends_filter _ (fun _ _ => True)
           (for_each (scrape_link view county_name month_name) (seq 0 n)) w).
  aeach. intros i. apply scrape_link_no_page_click.
Qed.

(** A computation that only adds to the trace does not lower the number of
    page links clicked. *)
Lemma only_adds_events_appends {A} (m : M Store A) :
  Stated.only_adds_events m -> appends (fun _ => True) (fun _ _ => True) m.
Proof.
  intros Hm w. destruct (Hm w) as (evs & Htr). exists evs.
  split; [assumption|]. split; [|exact I]. clear Htr.
  induction evs as [|ev evs IH]; constructor; [exact I | exact IH].
Qed.

Lemma page_link_clicks_grow {A} (m : M Store A) (w : list Event * Store) :
  appends (fun _ => True) (fun _ _ => True) m ->
  Stated.page_link_clicks (fst w) <= Stated.page_link_clicks (trace_of m w).
Proof.
  intros Hm. destruct (Hm w) as (evs & -> & _). rewrite page_link_clicks_app. lia.
Qed.

Lemma page_link_clicks_then {A B} (m : M Store A) (k : A -> M Store B)
    (w : list Event * Store) (c : nat) :
  c <= Stated.page_link_clicks (trace_of m w) ->
  (forall a, appends (fun _ => True) (fun _ _ => True) (k a)) ->
  c <= Stated.page_link_clicks (trace_of (bind m k) w).
Proof.
  intros Hc Hk. unfold trace_of, bind in *.
  destruct (m w) as [w1 [a|e]]; cbn [fst] in *; [|exact Hc].
  pose proof (page_link_clicks_grow (k a) w1 (Hk a)) as Hgrow.
  unfold trace_of in Hgrow. lia.
Qed.

Lemma scrape_page_link_grows (view : PageView) (visit : nat -> M Store unit)
    (county_name month_name : string) (i : nat) :
  (forall j, appends (fun _ => True) (fun _ _ => True) (visit j)) ->
  appends (fun _ => True) (fun _ _ => True)
    (scrape_page_link view visit county_name month_name i).
Proof.
  intros Hvisit. unfold scrape_page_link.
  abind; [repeat appends_step|]. intros _.
  abind; [repeat appends_step|]. intros _.
  abind; [repeat appends_step|]. intros navigated.
  destruct (negb navigated); [repeat appends_step|].
  abind; [apply Hvisit | intros _; repeat appends_step].
Qed.

Lemma get_attorney_info_within_grows (beyond : list nat -> M Store unit) (depth : nat)
    (pages : Site) (here : list nat) (county_name month_name : string) :
  (forall here', appends (fun _ => True) (fun _ _ => True) (beyond here')) ->
  appends (fun _ => True) (fun _ _ => True)
    (get_attorney_info_within beyond depth pages here county_name month_name).
Proof.
  intros Hbeyond. revert here.
  induction depth as [|depth IH]; intros here; cbn [get_attorney_info_within].
  - apply Hbeyond.
  - abind; [repeat appends_step|]. intros found.
    destruct (negb found); [repeat appends_step|].
    abind; [repeat appends_step|]. intros [n|]; [|repeat appends_step].
    abind.
    { aeach. intros i.
      apply (appends_weaken no_page_click (fun _ => True) (fun _ _ => True)
               (fun _ _ => True) _ (fun _ _ => I) (fun _ _ H => H)),
        scrape_link_no_page_click. }
    intros _. abind; [repeat appends_step|]. intros _.
    unfold get_next_page.
    abind; [repeat appends_step|]. intros _.
    abind; [repeat appends_step|]. intros [total|]; [|repeat appends_step].
    abind; [repeat appends_step|]. intros _.
    aeach. intros i. apply scrape_page_link_grows. intros j. apply IH.
Qed.

(** X10. On a result set whose every page shows a link to a further page,
    [get_attorney_info] and [get_next_page] call each other as deep as the
    interpreter allows: whatever the number [depth] of nested calls that
    fit under its limit, and whatever the call that exceeds the limit does
    (raise, or log and return), the traversal clicks [depth] page links at
    least, one inside the other. *)
Theorem X10_result_pages_that_link_on_are_followed_as_deep_as_allowed
    (beyond : list nat -> M Store unit) (pages : Site) (depth : nat)
    (here : list nat) (county_name month_name : string) (w : list Event * Store) :
  Stated.every_page_links_on pages ->
  (forall here', Stated.only_adds_events (beyond here')) ->
  Stated.page_link_clicks (fst w) + depth
  <= Stated.page_link_clicks
       (trace_of (get_attorney_info_within beyond depth pages here county_name month_name)
          w).
Proof.
  intros Hsite Hbeyond.
  assert (Hgrows : forall here', appends (fun _ => True) (fun _ _ => True) (beyond here'))
    by (intros here'; apply only_adds_events_appends, Hbeyond).
  revert here w. induction depth as [|depth IH]; intros here w.
  - rewrite Nat.add_0_r. apply page_link_clicks_grow. cbn [get_attorney_info_within].
    apply Hgrows.
  - destruct (Hsite here)
      as (Htable & (n & Hcount & Hlinks) & (k & Hpages) & Hvisible & Hclick).
    unfold trace_of.
    rewrite (get_attorney_info_within_page beyond depth pages here _ _ n w Htable Hcount).
    match goal with |- context [bind (for_each ?body ?l) ?k0 ?w0] =>
      destruct (scrape_links_run (pages here) county_name month_name n w0 Hlinks)
        as (w1 & Hloop & Hclicks1)
    end.
    rewrite (bind_ok _ _ _ _ _ Hloop). mstep.
    rewrite (get_next_page_pages _ _ _ _ (S k) _ Hpages).
    cbn [seq]. rewrite for_each_cons.
    match goal with |- context [bind (scrape_page_link ?v ?vis ?c ?mo 0) ?k0 ?w0] =>
      apply (page_link_clicks_then (scrape_page_link v vis c mo 0) k0 w0);
        [unfold trace_of;
         rewrite (scrape_page_link_visit v vis c mo 0 w0 Hvisible Hclick)|]
    end.
    + match goal with |- context [bind ?m0 ?k0 ?w0] =>
        apply (page_link_clicks_then m0 k0 w0); [|intros _; repeat appends_step]
      end.
      match goal with |- _ <= Stated.page_link_clicks (trace_of _ ?w0) =>
        pose proof (IH (0 :: here) w0) as Hvisit
      end.
      cbn [fst snd] in Hvisit |- *.
      rewrite !page_link_clicks_app in Hvisit. cbn [fst] in Hclicks1.
      rewrite page_link_clicks_app in Hclicks1.
      repeat match type of Hvisit with
             | context [Stated.page_link_clicks (?ev :: ?evs)] =>
                 let v := eval vm_compute in (Stated.page_link_clicks (ev :: evs)) in
                 change (Stated.page_link_clicks (ev :: evs)) with v in Hvisit
             end.
      repeat match type of Hclicks1 with
             | context [Stated.page_link_clicks (?ev :: ?evs)] =>
                 let v := eval vm_compute in (Stated.page_link_clicks (ev :: evs)) in
                 change (Stated.page_link_clicks (ev :: evs)) with v in Hclicks1
             end.
      lia.
    + intros _. aeach. intros i. apply scrape_page_link_grows. intros j.
      apply get_attorney_info_within_grows, Hgrows.
Qed.

Lemma scrape_link_record (view : PageView) (county_name month_name : string) (i : nat)
    (w : list Event * Store) :
  Stated.guarded_link (link view i) ->
  let m := scrape_link view county_name month_name i in
  outcome_of m w = Ok tt
  /\ scraped_data (store_of m w)
     = scraped_data (snd w) ++ option_list (Stated.link_record (link view i))
  /\ csv_file (store_of m w) = csv_file (snd w).
Proof.
  intros (Hvisible & Hcontent & Hback). cbv zeta.
  unfold outcome_of, store_of, scrape_link, Stated.link_record.
  rewrite Hvisible. mstep.
  destruct (text_content (link view i)) as [file_number|]; cbn [truthy negb].
  2: { mstep. now rewrite app_nil_r. }
  destruct (truthy file_number); cbn [negb].
  2: { mstep. now rewrite app_nil_r. }
  mstep. unfold try_except at 2 4 6.
  destruct (click_nav (link view i)) as [[]|e]; mstep.
  2: { now rewrite app_nil_r. }
  rewrite Hcontent. mstep. unfold try_except.
  destruct (fields (link view i)) as [r|e]; mstep.
  2: { now rewrite app_nil_r. }
  unfold append_record. mstep. rewrite Hback. cbn. repeat split.
Qed.

Lemma scrape_links_records (view : PageView) (county_name month_name : string)
    (l : list nat) :
  (forall i, In i l -> Stated.guarded_link (link view i)) ->
  forall w,
    let m := for_each (scrape_link view county_name month_name) l in
    outcome_of m w = Ok tt
    /\ scraped_data (store_of m w)
       = scraped_data (snd w) ++ omap (fun i => Stated.link_record (link view i)) l
    /\ csv_file (store_of m w) = csv_file (snd w).
Proof.
  cbv zeta. induction l as [|i l IH]; intros Hlinks w.
  - unfold outcome_of, store_of. cbn. now rewrite app_nil_r.
  - destruct (scrape_link_record view county_name month_name i w
                (Hlinks i (or_introl eq_refl))) as (Hout & Hdata & Hfile).
    unfold outcome_of, store_of in *. rewrite for_each_cons.
    destruct (scrape_link view county_name month_name i w) as [w1 r] eqn:E.
    cbn [fst snd] in Hout, Hdata, Hfile. subst r. rewrite (bind_ok _ _ _ _ _ E).
    destruct (IH (fun j Hj => Hlinks j (or_intror Hj)) w1) as (Hout' & Hdata' & Hfile').
    rewrite Hout', Hdata', Hfile', Hdata, Hfile. split; [reflexivity|].
    split; [|reflexivity]. rewrite <- app_assoc. f_equal.
    cbn [omap list_omap]. now destruct (Stated.link_record (link view i)).
Qed.

(** X11. On a result page that shows no link to a further page and whose
    file links can be scraped, [get_attorney_info] ends normally and
    appends to the batch the records of the file links, in the order of
    the table: one record for every link that has a text, whose click
    succeeds and whose fields can be read, and nothing for the other
    links. The CSV file is left alone. *)
Theorem X11_the_records_of_a_single_result_page (depth : nat) (pages : Site)
    (here : list nat) (county_name month_name : string) (n : nat)
    (w : list Event * Store) :
  table (pages here) = Ok tt ->
  link_count (pages here) = Ok n ->
  (forall i, i < n -> Stated.guarded_link (link (pages here) i)) ->
  pagination (pages here) = Ok None ->
  let m := get_attorney_info (S depth) pages here county_name month_name in
  outcome_of m w = Ok tt
  /\ scraped_data (store_of m w)
     = scraped_data (snd w)
       ++ omap (fun i => Stated.link_record (link (pages here) i)) (seq 0 n)
  /\ csv_file (store_of m w) = csv_file (snd w).
Proof.
  intros Htable Hcount Hlinks Hpages. cbv zeta.
  unfold outcome_of, store_of.
  rewrite (get_attorney_info_page depth pages here _ _ n w Htable Hcount).
  match goal with |- context [bind (for_each ?body ?l) ?k0 ?w0] =>
    destruct (scrape_links_records (pages here) county_name month_name (seq 0 n)
                (fun i Hi => Hlinks i (proj2 (proj1 (in_seq _ _ _) Hi))) w0)
      as (Hout & Hdata & Hfile);
    unfold outcome_of, store_of in Hout, Hdata, Hfile;
    destruct (for_each body l w0) as [w1 r] eqn:Hloop
  end.
  cbn [fst snd] in Hout, Hdata, Hfile. subst r.
  rewrite (bind_ok _ _ _ _ _ Hloop). mstep.
  rewrite (get_next_page_none _ _ _ _ _ Hpages). cbn [fst snd].
  repeat split; assumption.
Qed.

(** X12. The two guards at the start of [get_attorney_info]. When the
    results table does not show, whatever the exception, the function logs
    a warning and returns. When the wait for the file links fails, only
    the builtin [TimeoutError] is caught and logged; any other exception,
    the [TimeoutError] of Playwright among them, leaves the function. In
    both cases no record is added. *)
Theorem X12_the_guards_of_a_result_page (depth : nat) (pages : Site) (here : list nat)
    (county_name month_name : string) (w : list Event * Store) :
  let run := get_attorney_info (S depth) pages here county_name month_name w in
  match table (pages here), link_count (pages here) with
  | Raise _, _ =>
      run = ((fst w ++ [Log WARNING "File Search results table not found. Cannot proceed with scraping details."],
              snd w), Ok tt)
  | Ok _, Raise e =>
      if is_builtin_TimeoutError e
      then run = ((fst w ++ [Log ERROR ("Timed out waiting for file result links: "
                                        +:+ exn_name e
                                        +:+ " (Selector: #NameResultsTable .ButtonAsLink). Skipping this result set.")],
                   snd w), Ok tt)
      else run = (w, Raise e)
  | Ok _, Ok _ => True
  end
  /\ is_builtin_TimeoutError PlaywrightTimeout = false
  /\ is_builtin_TimeoutError BuiltinTimeoutError = true.
Proof.
  cbv zeta. split; [|split; reflexivity].
  unfold get_attorney_info. cbn [get_attorney_info_within].
  destruct (table (pages here)) as [[]|e0]; [|reflexivity].
  destruct (link_count (pages here)) as [n|e]; [exact I|].
  destruct (is_builtin_TimeoutError e) eqn:He.
  - unfold bind, try_except, lift, ret, emit. cbn [negb fst snd]. rewrite He. reflexivity.
  - unfold bind, try_except, lift, ret, emit. cbn [negb fst snd]. rewrite He.
    now destruct w.
Qed.

End ResultPages.

(** The two pages of the sample site link to each other. With room for
    five nested calls, and the error of the sixth caught by its first
    guard, the traversal clicks five page links and returns. *)
Lemma X10_witness :
  let m := NYCourt.get_attorney_info_within Sample.caught_at_the_table 5 Sample.two_pages
             [] "Kings" "January" in
  let w0 := ([], {| NYCourt.scraped_data := []; NYCourt.csv_file := None |}) in
  0 + 5 <= Stated.page_link_clicks (trace_of m w0)
  /\ outcome_of m w0 = Ok tt.
Proof.
  split; [|reflexivity].
  apply (X10_result_pages_that_link_on_are_followed_as_deep_as_allowed
           Sample.caught_at_the_table Sample.two_pages 5 [] "Kings" "January"
           ([], {| NYCourt.scraped_data := []; NYCourt.csv_file := None |})).
  - intros here. split; [reflexivity|].
    split; [exists 1; split; [reflexivity | intros i _; repeat split]|].
    split; [now exists 0|]. split; reflexivity.
  - intros here w. eexists. reflexivity.
Defined.

(** The sample page: of its three links, the third gives a record. *)
Lemma X11_witness :
  let m := NYCourt.get_attorney_info 1 (fun _ => Sample.view) [] "Kings" "January" in
  let w0 := ([], {| NYCourt.scraped_data := []; NYCourt.csv_file := None |}) in
  outcome_of m w0 = Ok tt
  /\ NYCourt.scraped_data (store_of m w0) = [] ++ [Sample.filing]
  /\ NYCourt.csv_file (store_of m w0) = None.
Proof.
  apply (X11_the_records_of_a_single_result_page 0 (fun _ => Sample.view) [] "Kings"
           "January" 3 ([], {| NYCourt.scraped_data := []; NYCourt.csv_file := None |}));
    [reflexivity | reflexivity | | reflexivity].
  intros i Hi. destruct i as [|[|[|i]]]; [| | |lia]; repeat split.
Defined.

(** ** New York: the CSV files *)

Section CsvWrites.
Context {St : Type}.

Lemma opens_at_most_bind {A B} (a b : nat) (m : M St A) (k : A -> M St B) :
  Stated.opens_at_most a m -> (forall x, Stated.opens_at_most b (k x)) ->
  Stated.opens_at_most (a + b) (bind m k).
Proof.
  intros Hm Hk w. specialize (Hm w). unfold trace_of, bind in *.
  destruct (m w) as [w1 [x|e]]; cbn [fst] in *; [|lia].
  specialize (Hk x w1). unfold trace_of in Hk. lia.
Qed.

Lemma opens_at_most_try {A} (a b : nat) (m : M St A) catches (handler : exn -> M St A) :
  Stated.opens_at_most a m -> (forall e, Stated.opens_at_most b (handler e)) ->
  Stated.opens_at_most (a + b) (try_except m catches handler).
Proof.
  intros Hm Hh w. specialize (Hm w). unfold trace_of, try_except in *.
  destruct (m w) as [w1 [x|e]]; cbn [fst] in *; [lia|].
  destruct (catches e); cbn [fst]; [|lia].
  specialize (Hh e w1). unfold trace_of in Hh. lia.
Qed.

Lemma opens_at_most_for_each {X} (a : nat) (body : X -> M St unit) (l : list X) :
  (forall x, Stated.opens_at_most a (body x)) ->
  Stated.opens_at_most (a * length l) (for_each body l).
Proof.
  intros Hbody. induction l as [|x l IH]; cbn [for_each length].
  - intros w. unfold trace_of. cbn. lia.
  - replace (a * S (length l)) with (a + a * length l) by lia.
    apply opens_at_most_bind; [apply Hbody | intros _; exact IH].
Qed.

Lemma opens_at_most_emit (ev : Event) :
  is_csv ev = false -> Stated.opens_at_most (S:=St) 0 (emit ev).
Proof.
  intros Hev w. unfold trace_of. cbn [emit fst]. rewrite csv_opens_app.
  destruct ev; try discriminate; cbn; lia.
Qed.

Lemma opens_at_most_ret {A} (x : A) : Stated.opens_at_most (S:=St) 0 (ret x).
Proof. intros w. unfold trace_of. cbn. lia. Qed.

End CsvWrites.

Section CourtFile.
Import NYCourt.

Let keeps_court_file : Store -> Store -> Prop :=
  fun s s' => Stated.court_file_ok s -> Stated.court_file_ok s'.

#[local] Instance keeps_court_file_preorder : PreOrder keeps_court_file.
Proof. split; red; unfold keeps_court_file; auto. Qed.

Let any_court_event : Event -> Prop := fun _ => True.

Lemma same_file_keeps (s s' : Store) : same_file s s' -> keeps_court_file s s'.
Proof. unfold same_file, keeps_court_file, Stated.court_file_ok. now intros ->. Qed.

Lemma court_save_to_csv_keeps (batch : list FilingRecord) :
  appends any_court_event keeps_court_file (save_to_csv batch).
Proof.
  intros [tr st]. unfold trace_of, store_of. rewrite court_save_to_csv_run.
  eexists. split; [reflexivity|]. split; [apply Forall_forall; intros; exact I|].
  unfold keeps_court_file, Stated.court_file_ok. cbn [fst snd csv_file].
  destruct (csv_file st) as [rows|].
  - intros (old & ->). exists (old ++ batch). cbn [app]. now rewrite map_app.
  - intros _. now exists batch.
Qed.

Lemma scrape_county_keeps B depth monthly_ranges proceeding_type county :
  appends any_court_event keeps_court_file
    (scrape_county B depth monthly_ranges proceeding_type county).
Proof.
  unfold scrape_county. destruct county as [county_value county_name].
  abind.
  - eapply appends_weaken; [| |apply search_months_appends].
    + intros; exact I.
    + apply same_file_keeps.
  - intros _. unfold save_county. abind; [repeat appends_step|]. intros st.
    destruct (scraped_data st); [repeat appends_step|].
    abind; [repeat appends_step | intros _; apply court_save_to_csv_keeps].
Qed.

Lemma scrape_county_opens B depth monthly_ranges proceeding_type county :
  Stated.opens_at_most 1 (scrape_county B depth monthly_ranges proceeding_type county).
Proof.
  destruct county as [county_value county_name]. intros w.
  destruct (search_months B depth monthly_ranges proceeding_type county_value
              county_name w) as [w1 [[]|e]] eqn:Hloop.
  - destruct (scrape_county_writes B depth monthly_ranges proceeding_type county_value
                county_name w w1 Hloop) as (_ & Hopens & _).
    rewrite Hopens. destruct (scraped_data (snd w1)); lia.
  - destruct (scrape_county_aborted B depth monthly_ranges proceeding_type county_value
                county_name w w1 e Hloop) as (Hrun & Hopens & _).
    unfold trace_of. rewrite Hrun. cbn [fst]. lia.
Qed.

(** X13. Two batches saved one after the other leave the file that one
    call would leave for the two batches together: the header is written
    by the first call only when there was no file, and the rows follow in
    order. *)
Theorem X13_court_batches_are_appended_to_the_file (batch1 batch2 : list FilingRecord)
    (w : list Event * Store) :
  let two_calls := save_to_csv batch1 ;;; save_to_csv batch2 in
  let one_call := save_to_csv (batch1 ++ batch2) in
  store_of two_calls w = store_of one_call w
  /\ csv_rows (trace_of two_calls w) = csv_rows (trace_of one_call w)
  /\ csv_file (store_of two_calls w)
     = Some (match csv_file (snd w) with
             | Some rows => rows
             | None => [csv_header]
             end ++ map csv_row batch1 ++ map csv_row batch2)
  /\ csv_opens (trace_of two_calls w) = csv_opens (fst w) + 2.
Proof.
  destruct w as [tr st]. cbv zeta. unfold store_of, trace_of.
  rewrite (bind_ok _ _ _ _ _ (court_save_to_csv_run batch1 tr st)).
  rewrite !court_save_to_csv_run. cbn [fst snd csv_file scraped_data].
  rewrite !csv_rows_app, !csv_opens_app, !csv_rows_map, !csv_opens_rows.
  destruct (csv_file st) as [rows|]; cbn [app csv_rows csv_opens flat_map List.filter length];
    rewrite ?map_app, ?app_nil_r, <- ?app_assoc; cbn [app];
    repeat split; try reflexivity; lia.
Qed.

(** X14. The run of the New York court scraper keeps [scraped_data.csv]
    well formed: when the file, if there is one, starts with the header
    and holds rows of filing records, so it does after the run, and every
    row has five cells. The run ends with exit status 0 or 1 and opens the
    file at most once for every county and proceeding type. *)
Theorem X14_the_court_run_keeps_the_file_well_formed (B : Browser) (depth : nat)
    (all_countys : list (string * string)) (w : list Event * Store) :
  Stated.court_file_ok (snd w) ->
  let m := run B depth all_countys in
  Stated.court_file_ok (store_of m w)
  /\ (forall rows, csv_file (store_of m w) = Some rows ->
        Forall (fun row => length row = 5) rows)
  /\ (outcome_of m w = Ok 0 \/ outcome_of m w = Ok 1)
  /\ csv_opens (trace_of m w) <= csv_opens (fst w) + 2 * length all_countys.
Proof.
  intros Hok. cbv zeta.
  assert (Hkeeps : appends any_court_event keeps_court_file (run B depth all_countys)).
  { unfold run. abind; [repeat appends_step|]. intros _.
    apply appends_try; try typeclasses eauto; [|intros; repeat appends_step].
    abind; [|intros; repeat appends_step].
    aeach. intros proceeding_type. unfold scrape_proceeding_type.
    abind; [repeat appends_step|]. intros _.
    aeach. intros county. apply scrape_county_keeps. }
  assert (Hfile : Stated.court_file_ok (store_of (run B depth all_countys) w)).
  { destruct (Hkeeps w) as (_ & _ & _ & H). now apply H. }
  split; [exact Hfile|]. split; [|split].
  - intros rows Hrows. unfold Stated.court_file_ok in Hfile. rewrite Hrows in Hfile.
    destruct Hfile as (batch & ->). constructor; [reflexivity|].
    apply Forall_map, Forall_forall. intros; reflexivity.
  - unfold outcome_of, run. rewrite bind_emit. unfold try_except, bind.
    match goal with |- context [for_each ?body ?l ?w0] =>
      destruct (for_each body l w0) as [w1 [[]|e]]
    end; cbn; auto.
  - assert (Hopens : Stated.opens_at_most (0 + ((0 + 1 * length all_countys) * 2 + 0 + 0))
                       (run B depth all_countys)).
    { unfold run. apply opens_at_most_bind; [now apply opens_at_most_emit|]. intros _.
      replace ((0 + 1 * length all_countys) * 2 + 0 + 0)
        with (((0 + 1 * length all_countys) * length proceeding_types + (0 + (0 + 0))) + 0)
        by (cbn [proceeding_types length]; lia).
      apply opens_at_most_try.
      - apply opens_at_most_bind.
        + apply opens_at_most_for_each. intros proceeding_type.
          unfold scrape_proceeding_type.
          apply opens_at_most_bind; [now apply opens_at_most_emit|]. intros _.
          apply opens_at_most_for_each. intros county. apply scrape_county_opens.
        + intros _. apply opens_at_most_bind; [now apply opens_at_most_emit|]. intros _.
          apply opens_at_most_bind; [now apply opens_at_most_emit|]. intros _.
          apply opens_at_most_ret.
      - intros e. replace 0 with (0 + 0) by lia.
        apply opens_at_most_bind; [now apply opens_at_most_emit|]. intros _.
        apply opens_at_most_ret. }
    specialize (Hopens w). lia.
Qed.

End CourtFile.

(** The run over the sample browser for one county, from a state without a
    file. *)
Lemma X14_witness :
  let w0 := ([], {| NYCourt.scraped_data := []; NYCourt.csv_file := None |}) in
  let m := NYCourt.run Sample.court_browser 1 [("24", "Kings")] in
  Stated.court_file_ok (store_of m w0)
  /\ (outcome_of m w0 = Ok 0 \/ outcome_of m w0 = Ok 1)
  /\ csv_opens (trace_of m w0) <= 0 + 2 * 1.
Proof.
  destruct (X14_the_court_run_keeps_the_file_well_formed Sample.court_browser 1
              [("24", "Kings")]
              ([], {| NYCourt.scraped_data := []; NYCourt.csv_file := None |}) I)
    as (Hfile & _ & Hstatus & Hopens).
  cbv zeta. split; [exact Hfile|]. split; [exact Hstatus | exact Hopens].
Defined.

(** ** New York attorney search *)

Section AttorneySearch.
Import NYAttorney.

Let types_nothing : Event -> Prop := fun ev => is_fill ev = false.

#[local] Instance any_file_preorder : PreOrder (fun _ _ : Store => True).
Proof. split; red; intros; exact I. Qed.

Lemma attorney_save_to_csv_batch (scraped_data : list AttorneyDetails) (tr : list Event)
    (st : Store) :
  save_to_csv scraped_data (tr, st)
  = ((tr ++ [CsvOpen csv_path "a"]
         ++ map (CsvRow csv_path)
              (match st with None => [csv_header] | Some _ => [] end
               ++ map csv_row scraped_data)
         ++ [Log INFO "Data successfully saved to attorney_details.csv"],
      Some (match st with Some rows => rows | None => [] end
            ++ match st with None => [csv_header] | Some _ => [] end
            ++ map csv_row scraped_data)),
     Ok tt).
Proof.
  unfold save_to_csv. mstep.
  destruct st as [rows|]; cbn [negb]; mstep;
    rewrite (bind_ok _ _ _ _ _ (for_each_emit _ _ _)); mstep;
    cbn [app map]; rewrite map_map, <- !app_assoc; reflexivity.
Qed.

Lemma attorney_save_to_csv_types_nothing (scraped_data : list AttorneyDetails) :
  appends types_nothing (fun _ _ => True) (save_to_csv scraped_data).
Proof.
  intros [tr st]. unfold trace_of, store_of. rewrite attorney_save_to_csv_batch.
  eexists. split; [reflexivity|]. split; [|exact I].
  apply Forall_app. split; [now repeat constructor|].
  apply Forall_app. split; [|now repeat constructor].
  apply Forall_map, Forall_forall. intros; reflexivity.
Qed.

Lemma trace_grows {A} (Q : Event -> Prop) (m : M Store A) (w : list Event * Store)
    (ev : Event) :
  appends Q (fun _ _ => True) m -> In ev (fst w) -> In ev (trace_of m w).
Proof.
  intros Hm Hin. destruct (Hm w) as (evs & -> & _). apply in_app_iff. now left.
Qed.

(** X15. A name that is left with fewer than two or more than four tokens
    gives no first, middle or last name: nothing is typed into the form,
    and the search button is clicked all the same. *)
Theorem X15_a_name_of_one_or_five_tokens_is_searched_with_nothing_typed (B : Browser)
    (attorney : string) (w : list Event * Store) :
  let cleaned := cleaned_name (substituted attorney) in
  length cleaned < 2 \/ 4 < length cleaned ->
  let m := search_attorney B attorney in
  normalize attorney
  = {| first_name := None; middle_name := None; last_name := None |}
  /\ fills (trace_of m w) = fills (fst w)
  /\ (typing (B attorney) = Ok tt -> search (B attorney) = Ok tt ->
      In (Click "btnSubmit") (trace_of m w)).
Proof.
  intros cleaned Hlen m.
  assert (Hparts : name_parts cleaned
                   = {| first_name := None; middle_name := None; last_name := None |}).
  { unfold name_parts.
    replace (length cleaned =? 2) with false by (symmetry; apply Nat.eqb_neq; lia).
    replace (length cleaned =? 3) with false by (symmetry; apply Nat.eqb_neq; lia).
    replace (length cleaned =? 4) with false by (symmetry; apply Nat.eqb_neq; lia).
    reflexivity. }
  split; [exact Hparts|].
  subst m. unfold search_attorney. fold cleaned. rewrite Hparts.
  cbn [first_name middle_name last_name type_if_set].
  match goal with |- context [bind (emit (Click "btnSubmit")) ?k] => set (rest := k) end.
  assert (Hrest : forall u, appends types_nothing (fun _ _ => True) (rest u)).
  { intros u. unfold rest. abind; [repeat appends_step|]. intros box.
    match goal with |- context [if ?c then _ else _] => destruct c end;
      [repeat appends_step|].
    abind; [repeat appends_step|]. intros candidates.
    abind.
    { unfold choose_link.
      destruct (find_target _ 0 candidates) as [[i link]|]; [repeat appends_step|].
      destruct candidates; repeat appends_step. }
    intros i. abind; [repeat appends_step|]. intros _.
    abind; [repeat appends_step|]. intros [new_page_url d].
    do 7 (abind; [repeat appends_step|]; intros _).
    abind; [apply attorney_save_to_csv_types_nothing | intros _; repeat appends_step]. }
  split.
  - assert (Happ : appends types_nothing (fun _ _ => True)
                     (search_attorney B attorney)).
    { unfold search_attorney. fold cleaned. rewrite Hparts.
      cbn [first_name middle_name last_name type_if_set]. fold rest.
      do 5 (abind; [repeat appends_step|]; intros _).
      abind; [destruct (captcha_visible _); repeat appends_step|]. intros _.
      abind; [repeat appends_step|]. intros _.
      abind; [repeat appends_step | apply Hrest]. }
    destruct (Happ w) as (evs & Htr & Hq & _).
    unfold search_attorney in Htr. fold cleaned in Htr. rewrite Hparts in Htr.
    cbn [first_name middle_name last_name type_if_set] in Htr. fold rest in Htr.
    rewrite Htr, fills_app, (fills_no_fill evs Hq). apply app_nil_r.
  - intros Htyping Hsearch. unfold trace_of. rewrite Htyping. mstep.
    destruct (captcha_visible (B attorney)); mstep; rewrite Hsearch; mstep;
      apply (trace_grows types_nothing (rest tt) _ _ (Hrest tt));
      cbn [fst]; apply in_app_iff; right; now left.
Qed.

Let keeps_attorney_file : Store -> Store -> Prop :=
  fun s s' => Stated.attorney_file_ok s -> Stated.attorney_file_ok s'.

#[local] Instance keeps_attorney_file_preorder : PreOrder keeps_attorney_file.
Proof. split; red; unfold keeps_attorney_file; auto. Qed.

Let any_attorney_event : Event -> Prop := fun _ => True.

Lemma attorney_save_to_csv_keeps (scraped_data : list AttorneyDetails) :
  appends any_attorney_event keeps_attorney_file (save_to_csv scraped_data).
Proof.
  intros [tr st]. unfold trace_of, store_of. rewrite attorney_save_to_csv_batch.
  eexists. split; [reflexivity|]. split; [apply Forall_forall; intros; exact I|].
  unfold keeps_attorney_file, Stated.attorney_file_ok. cbn [fst snd].
  destruct st as [rows|].
  - intros (old & ->). exists (old ++ scraped_data). cbn [app]. now rewrite map_app.
  - intros _. now exists scraped_data.
Qed.

Lemma process_attorney_keeps (B : Browser) (attorney : string) :
  appends any_attorney_event keeps_attorney_file (process_attorney B attorney).
Proof.
  unfold process_attorney.
  apply appends_try; try typeclasses eauto; [|intros; repeat appends_step].
  unfold search_attorney.
  do 2 (abind; [repeat appends_step|]; intros _).
  do 3 (abind; [unfold type_if_set;
                match goal with |- context [match ?v with Some _ => _ | None => _ end] =>
                  destruct v as [v'|]; [destruct (truthy v')|]
                end; repeat appends_step|]; intros _).
  abind; [destruct (captcha_visible _); repeat appends_step|]. intros _.
  do 2 (abind; [repeat appends_step|]; intros _).
  abind; [repeat appends_step|]. intros box.
  match goal with |- context [if ?c then _ else _] => destruct c end;
    [repeat appends_step|].
  abind; [repeat appends_step|]. intros candidates.
  abind.
  { unfold choose_link.
    destruct (find_target _ 0 candidates) as [[i link]|]; [repeat appends_step|].
    destruct candidates; repeat appends_step. }
  intros i. abind; [repeat appends_step|]. intros _.
  abind; [repeat appends_step|]. intros [new_page_url d].
  do 7 (abind; [repeat appends_step|]; intros _).
  abind; [apply attorney_save_to_csv_keeps | intros _; repeat appends_step].
Qed.

Lemma process_attorney_opens (B : Browser) (attorney : string) :
  Stated.opens_at_most 1 (process_attorney B attorney).
Proof.
  intros w. pose proof (process_attorney_writes B attorney w) as H. cbv zeta in H.
  destruct H as [[H _] | (d & H & _)]; rewrite H; lia.
Qed.

(** X16. The run of the attorney scraper never ends with an exception and
    keeps [attorney_details.csv] well formed: when the file, if there is
    one, starts with the header and holds rows of attorney details, so it
    does after the run, and every row has four cells. The file is opened
    at most once for every name of the list. *)
Theorem X16_the_attorney_run_keeps_the_file_well_formed (B : Browser)
    (attorneys_list : list string) (w : list Event * Store) :
  Stated.attorney_file_ok (snd w) ->
  let m := run B attorneys_list in
  outcome_of m w = Ok tt
  /\ Stated.attorney_file_ok (store_of m w)
  /\ (forall rows, store_of m w = Some rows -> Forall (fun row => length row = 4) rows)
  /\ csv_opens (trace_of m w) <= csv_opens (fst w) + length attorneys_list.
Proof.
  intros Hok. cbv zeta.
  assert (Hkeeps : appends any_attorney_event keeps_attorney_file (run B attorneys_list)).
  { unfold run. abind; [repeat appends_step|]. intros _.
    apply appends_try; try typeclasses eauto; [|intros; repeat appends_step].
    abind; [|intros; repeat appends_step].
    aeach. intros attorney. apply process_attorney_keeps. }
  assert (Hfile : Stated.attorney_file_ok (store_of (run B attorneys_list) w)).
  { destruct (Hkeeps w) as (_ & _ & _ & H). now apply H. }
  split; [|split; [exact Hfile|split]].
  - unfold outcome_of, run. rewrite bind_emit. unfold try_except, bind.
    match goal with |- context [for_each ?body ?l ?w0] =>
      destruct (for_each body l w0) as [w1 [[]|e]]
    end; reflexivity.
  - intros rows Hrows. unfold Stated.attorney_file_ok in Hfile. rewrite Hrows in Hfile.
    destruct Hfile as (items & ->). constructor; [reflexivity|].
    apply Forall_map, Forall_forall. intros; reflexivity.
  - assert (Hopens : Stated.opens_at_most (0 + ((1 * length attorneys_list + (0 + 0)) + 0))
                       (run B attorneys_list)).
    { unfold run. apply opens_at_most_bind; [now apply opens_at_most_emit|]. intros _.
      apply opens_at_most_try; [|intros e; now apply opens_at_most_emit].
      apply opens_at_most_bind.
      - apply opens_at_most_for_each. intros attorney. apply process_attorney_opens.
      - intros _. apply opens_at_most_bind; [now apply opens_at_most_emit|]. intros _.
        now apply opens_at_most_emit. }
    specialize (Hopens w). lia.
Qed.

(** X17. Two lists of attorney details saved one after the other leave
    the file that one call would leave for the two lists together: the
    header is written by the first call only when there was no file, and
    the rows follow in order. *)
Theorem X17_attorney_batches_are_appended_to_the_file (batch1 batch2 : list AttorneyDetails)
    (w : list Event * Store) :
  let two_calls := save_to_csv batch1 ;;; save_to_csv batch2 in
  let one_call := save_to_csv (batch1 ++ batch2) in
  store_of two_calls w = store_of one_call w
  /\ csv_rows (trace_of two_calls w) = csv_rows (trace_of one_call w)
  /\ store_of two_calls w
     = Some (match snd w with
             | Some rows => rows
             | None => [csv_header]
             end ++ map csv_row batch1 ++ map csv_row batch2)
  /\ csv_opens (trace_of two_calls w) = csv_opens (fst w) + 2.
Proof.
  destruct w as [tr st]. cbv zeta. unfold store_of, trace_of.
  rewrite (bind_ok _ _ _ _ _ (attorney_save_to_csv_batch batch1 tr st)).
  rewrite !attorney_save_to_csv_batch. cbn [fst snd].
  rewrite !csv_rows_app, !csv_opens_app, !csv_rows_map, !csv_opens_rows.
  destruct st as [rows|]; cbn [app csv_rows csv_opens flat_map List.filter length];
    rewrite ?map_app, ?app_nil_r, <- ?app_assoc; cbn [app];
    repeat split; try reflexivity; lia.
Qed.

(** X18. The list of names read from [scraped_data.csv] has no name
    twice; a name is in it exactly when it is the stripped value of a
    non-empty "Estate Attorney" cell, so that a cell of blanks gives the
    empty name. Neither the trace nor the store changes. When the file
    does not exist, a line is printed and the list is empty. *)
Theorem X18_get_attorneys_list_gives_every_name_once (file : option (list (option string)))
    (w : list Event * Store) :
  match file with
  | Some reader =>
      exists names,
        get_attorneys_list file w = (w, Ok names)
        /\ NoDup names
        /\ (forall name,
              In name names
              <-> exists value,
                    In (Some value) reader /\ value <> "" /\ name = strip value)
  | None =>
      get_attorneys_list file w
      = ((fst w ++ [Stdout "Error: scraped_data.csv does not exist."], snd w), Ok [])
  end.
Proof.
  destruct file as [reader|]; [|reflexivity].
  exists (elements (attorney_names reader)). split; [reflexivity|].
  split; [apply NoDup_elements|].
  intros name. rewrite <- list_elem_of_In, elem_of_elements. unfold attorney_names.
  rewrite elem_of_list_to_set, list_elem_of_In, in_flat_map. split.
  - intros ([value|] & Hin & Hname); [|destruct Hname].
    destruct value as [|c value]; [destruct Hname|].
    destruct Hname as [<- | []]. now exists (String c value).
  - intros (value & Hin & Hne & ->). exists (Some value). split; [exact Hin|].
    destruct value; [congruence | now left].
Qed.

Lemma field_of_first (all_spans : list Span) (label : string) :
  Stated.first_label_decides all_spans label (field_of all_spans label).
Proof.
  unfold field_of, Stated.first_label_decides.
  induction all_spans as [|s rest IH]; [left; split; [constructor | reflexivity]|].
  cbn [List.find]. destruct (String.eqb (get_text s) label) eqn:E.
  - apply String.eqb_eq in E. right. exists [], s, rest.
    split; [reflexivity|]. split; [constructor|]. now split.
  - apply String.eqb_neq in E. destruct IH as [[Hnone ->] | (before & s' & after & -> & Hb & Hs & ->)].
    + left. split; [now constructor | reflexivity].
    + right. exists (s :: before), s', after. split; [reflexivity|].
      split; [now constructor|]. now split.
Qed.

(** X19. [extract_attorney_details] never fails and gives the four fields
    whatever the page holds: each field is the text of the value cell next
    to the first span that carries its label, and the empty string when no
    span carries the label or when that span has no value cell; spans
    with the same label further down the page are not looked at. *)
Theorem X19_the_first_label_of_a_page_decides (all_spans : list Span)
    (w : list Event * Store) :
  exists details,
    extract_attorney_details all_spans w
    = ((fst w ++ [Log INFO ("Extracted the attorney: " +:+ Estate_Attorney details
                            +:+ " complete details")], snd w), Ok details)
    /\ Stated.first_label_decides all_spans "Name:" (Estate_Attorney details)
    /\ Stated.first_label_decides all_spans "Email:" (Email details)
    /\ Stated.first_label_decides all_spans "Business Address:" (Address details)
    /\ Stated.first_label_decides all_spans "Business Phone:" (Phone details).
Proof.
  eexists. split; [reflexivity|]. cbn [Estate_Attorney Email Address Phone].
  repeat split; apply field_of_first.
Qed.

End AttorneySearch.

(** "Madonna" is one token. *)
Lemma X15_witness :
  let m := NYAttorney.search_attorney Sample.attorney_browser "Madonna" in
  NYAttorney.normalize "Madonna"
  = {| NYAttorney.first_name := None; NYAttorney.middle_name := None;
       NYAttorney.last_name := None |}
  /\ fills (trace_of m ([], None)) = []
  /\ In (Click "btnSubmit") (trace_of m ([], None)).
Proof.
  destruct (X15_a_name_of_one_or_five_tokens_is_searched_with_nothing_typed
              Sample.attorney_browser "Madonna" ([], None))
    as (Hnames & Hfills & Hclick); [left; vm_compute; lia|].
  cbv zeta. split; [exact Hnames|]. split; [exact Hfills|].
  apply Hclick; reflexivity.
Defined.

(** The sample browser and two names, from a state without a file. *)
Lemma X16_witness :
  let m := NYAttorney.run Sample.attorney_browser ["John Smith"; "Nobody Known"] in
  outcome_of m ([], None) = Ok tt
  /\ Stated.attorney_file_ok (store_of m ([], None))
  /\ csv_opens (trace_of m ([], None)) <= 0 + 2.
Proof.
  destruct (X16_the_attorney_run_keeps_the_file_well_formed Sample.attorney_browser
              ["John Smith"; "Nobody Known"] ([], None) I)
    as (Hout & Hfile & _ & Hopens).
  cbv zeta. split; [exact Hout|]. split; [exact Hfile | exact Hopens].
Defined.

(** ** New York: what is typed into the search forms *)

Section TypedValues.
Context {St : Type}.

Lemma types_along_quiet {A} (R : St -> St -> Prop) (m : M St A) :
  appends (fun ev => is_fill ev = false) R m -> Stated.types_along [] m.
Proof.
  intros Hm w. destruct (Hm w) as (evs & Htr & Hq & _). exists [].
  rewrite Htr, fills_app, (fills_no_fill evs Hq). split; [reflexivity|].
  destruct (outcome_of m w); [reflexivity | now exists []].
Qed.

Lemma types_along_fill (selector value : string) :
  Stated.types_along (S:=St) [value] (emit (Fill selector value)).
Proof. intros w. exists [value]. unfold trace_of. cbn. now rewrite fills_app. Qed.

Lemma types_along_bind {A B} (plan1 plan2 : list string) (m : M St A)
    (k : A -> M St B) :
  Stated.types_along plan1 m -> (forall a, Stated.types_along plan2 (k a)) ->
  Stated.types_along (plan1 ++ plan2) (bind m k).
Proof.
  intros Hm Hk w. destruct (Hm w) as (typed1 & Htr1 & Hout1).
  unfold trace_of, outcome_of, bind in *.
  destruct (m w) as [w1 [a|e]]; cbn [fst snd] in *.
  - subst typed1. destruct (Hk a w1) as (typed2 & Htr2 & Hout2).
    unfold trace_of, outcome_of in *. exists (plan1 ++ typed2).
    rewrite Htr2, Htr1, app_assoc. split; [reflexivity|].
    destruct (snd (k a w1)); [now subst|].
    destruct Hout2 as (rest & ->). exists rest. now rewrite app_assoc.
  - exists typed1. split; [exact Htr1|]. destruct Hout1 as (rest & ->).
    exists (rest ++ plan2). now rewrite app_assoc.
Qed.

Lemma types_along_for_each {X} (plan : X -> list string) (body : X -> M St unit)
    (l : list X) :
  (forall x, Stated.types_along (plan x) (body x)) ->
  Stated.types_along (flat_map plan l) (for_each body l).
Proof.
  intros Hbody. induction l as [|x l IH]; cbn [flat_map for_each].
  - intros w. exists []. unfold trace_of, outcome_of. cbn. now rewrite app_nil_r.
  - apply types_along_bind; [apply Hbody | intros _; exact IH].
Qed.

End TypedValues.

Section CourtSearchPlan.
Import NYCourt.

#[local] Existing Instance any_store_preorder.

Let quiet {A} (m : M Store A) : Prop :=
  appends (fun ev => is_fill ev = false) (fun _ _ => True) m.

Lemma navigate_quiet session attempts : quiet (navigate session attempts).
Proof.
  unfold quiet. induction attempts as [|attempt rest IH]; cbn [navigate].
  - repeat appends_step.
  - abind.
    + appends_step; [repeat appends_step|].
      destruct (attempt <? _); repeat appends_step.
    + intros [|]; [repeat appends_step | exact IH].
Qed.

Lemma scrape_link_quiet view county_name month_name i :
  quiet (scrape_link view county_name month_name i).
Proof.
  unfold quiet, scrape_link. abind; [repeat appends_step|]. intros _.
  destruct (negb _); [repeat appends_step|].
  abind; [repeat appends_step|]. intros _.
  abind; [repeat appends_step|]. intros navigated.
  destruct (negb navigated); [repeat appends_step|].
  abind; [repeat appends_step|]. intros _.
  abind; [repeat appends_step|]. intros [attorney_info|]; [|repeat appends_step].
  abind; [repeat appends_step|]. intros _.
  abind; [|intros _; repeat appends_step].
  unfold append_record.
  apply (appends_update _ (fun _ _ => True)
           (fun st => {| scraped_data := scraped_data st ++ [attorney_info];
                         csv_file := csv_file st |})).
  intros s. exact I.
Qed.

Lemma get_attorney_info_quiet depth pages here county_name month_name :
  quiet (get_attorney_info depth pages here county_name month_name).
Proof.
  unfold quiet, get_attorney_info. revert here.
  induction depth as [|depth IH]; intros here; cbn [get_attorney_info_within].
  - repeat appends_step.
  - abind; [repeat appends_step|]. intros found.
    destruct (negb found); [repeat appends_step|].
    abind; [repeat appends_step|]. intros [n|]; [|repeat appends_step].
    abind; [aeach; intros; apply scrape_link_quiet|]. intros _.
    abind; [repeat appends_step|]. intros _.
    unfold get_next_page.
    abind; [repeat appends_step|]. intros _.
    abind; [repeat appends_step|]. intros [total|]; [|repeat appends_step].
    abind; [repeat appends_step|]. intros _.
    aeach. intros i. unfold scrape_page_link.
    abind; [repeat appends_step|]. intros _.
    abind; [repeat appends_step|]. intros _.
    abind; [repeat appends_step|]. intros navigated.
    destruct (negb navigated); [repeat appends_step|].
    abind; [apply IH | intros _; repeat appends_step].
Qed.

Lemma save_county_quiet proceeding_type county_name :
  quiet (save_county proceeding_type county_name).
Proof.
  unfold quiet, save_county. abind; [repeat appends_step|]. intros st.
  destruct (scraped_data st) as [|r batch]; [repeat appends_step|].
  abind; [repeat appends_step|]. intros _.
  intros [tr st0]. unfold trace_of, store_of. rewrite court_save_to_csv_run.
  eexists. split; [reflexivity|]. split; [|exact I].
  apply Forall_app. split; [now repeat constructor|].
  apply Forall_app. split; [|now repeat constructor].
  apply Forall_map, Forall_forall. intros; reflexivity.
Qed.

Lemma search_month_plan B depth proceeding_type county_value county_name range_info :
  Stated.types_along (Stated.month_plan proceeding_type county_value range_info)
    (search_month B depth proceeding_type county_value county_name range_info).
Proof.
  unfold search_month.
  change (Stated.month_plan proceeding_type county_value range_info)
    with ([] ++ [] ++ [county_value] ++ [proceeding_type]
          ++ [start_date range_info] ++ [end_date range_info] ++ []).
  apply types_along_bind;
    [apply (types_along_quiet (fun _ _ => True)), navigate_quiet|]. intros _.
  apply types_along_bind;
    [apply (types_along_quiet (fun _ _ => True)); repeat appends_step|]. intros _.
  do 4 (apply types_along_bind; [apply types_along_fill|]; intros _).
  apply (types_along_quiet (fun _ _ => True)).
  do 3 (abind; [repeat appends_step|]; intros _).
  abind; [repeat appends_step|]. intros [|]; [repeat appends_step|].
  abind; [repeat appends_step|]. intros _.
  abind; [apply get_attorney_info_quiet | intros _; repeat appends_step].
Qed.

Lemma scrape_county_plan B depth monthly_ranges proceeding_type county :
  Stated.types_along
    (flat_map (Stated.month_plan proceeding_type (fst county)) monthly_ranges)
    (scrape_county B depth monthly_ranges proceeding_type county).
Proof.
  destruct county as [county_value county_name]. unfold scrape_county. cbn [fst].
  rewrite <- (app_nil_r (flat_map _ monthly_ranges)).
  apply types_along_bind;
    [|intros _; apply (types_along_quiet (fun _ _ => True)), save_county_quiet].
  unfold search_months.
  change (flat_map (Stated.month_plan proceeding_type county_value) monthly_ranges)
    with ([] ++ [] ++ flat_map (Stated.month_plan proceeding_type county_value)
                        monthly_ranges).
  apply types_along_bind;
    [apply (types_along_quiet (fun _ _ => True)); repeat appends_step|]. intros st.
  apply types_along_bind.
  - intros w. exists []. unfold trace_of, outcome_of. cbn. now rewrite app_nil_r.
  - intros _. apply types_along_for_each. intros range_info. apply search_month_plan.
Qed.

Lemma county_plan_length (proceeding_type : string) (all_countys : list (string * string)) :
  length (flat_map (fun county : string * string =>
                      flat_map (Stated.month_plan proceeding_type (fst county))
                        (generate_monthly_ranges 2024)) all_countys)
  = 48 * length all_countys.
Proof.
  assert (Hmonths : forall county_value ranges,
             length (flat_map (Stated.month_plan proceeding_type county_value) ranges)
             = 4 * length ranges).
  { intros county_value ranges. induction ranges as [|r l IH]; [reflexivity|].
    cbn [flat_map length app Stated.month_plan]. rewrite IH. lia. }
  induction all_countys as [|c l IH]; [reflexivity|].
  cbn [flat_map]. rewrite length_app, IH, Hmonths.
  unfold generate_monthly_ranges. rewrite length_map, length_seq. cbn [length]. lia.
Qed.

(** X20. The run of the New York court scraper fills the search form in a
    fixed order: for each of the two proceeding types, for each county,
    for each month of 2024 it selects the county and the proceeding type
    and types the first and the last day of the month, 96 values for a
    county. Whatever the site answers, the values typed are the first
    values of this plan, and all of them when the run ends with exit
    status 0. *)
Theorem X20_the_searches_of_the_court_run (B : Browser) (depth : nat)
    (all_countys : list (string * string)) (w : list Event * Store) :
  let m := run B depth all_countys in
  let plan :=
    Stated.search_plan (generate_monthly_ranges 2024) all_countys proceeding_types in
  exists typed,
    fills (trace_of m w) = fills (fst w) ++ typed
    /\ (exists rest, plan = typed ++ rest)
    /\ (outcome_of m w = Ok 0 -> typed = plan)
    /\ length plan = 96 * length all_countys
    /\ map (fun range_info => (month_name range_info, start_date range_info,
                               end_date range_info))
         (generate_monthly_ranges 2024)
       = [("January", "01/01/2024", "01/31/2024"); ("February", "02/01/2024", "02/29/2024");
          ("March", "03/01/2024", "03/31/2024"); ("April", "04/01/2024", "04/30/2024");
          ("May", "05/01/2024", "05/31/2024"); ("June", "06/01/2024", "06/30/2024");
          ("July", "07/01/2024", "07/31/2024"); ("August", "08/01/2024", "08/31/2024");
          ("September", "09/01/2024", "09/30/2024"); ("October", "10/01/2024", "10/31/2024");
          ("November", "11/01/2024", "11/30/2024"); ("December", "12/01/2024", "12/31/2024")].
Proof.
  cbv zeta.
  set (plan := Stated.search_plan (generate_monthly_ranges 2024) all_countys
                 proceeding_types).
  assert (Hbody : Stated.types_along (plan ++ [])
            (for_each (scrape_proceeding_type B depth (generate_monthly_ranges 2024)
                         all_countys) proceeding_types ;;;
             emit (Log INFO "Scraped complete data for both proceeding types PROBATE & PRELIMINARY PETITIONS and ADMINISTRATION PETITIONS.") ;;;
             emit (Log INFO "Tab closed. Script finished successfully. Scraped all records.") ;;;
             ret 0)).
  { apply types_along_bind;
      [|intros _; apply (types_along_quiet (fun _ _ => True)); repeat appends_step].
    apply types_along_for_each. intros proceeding_type. unfold scrape_proceeding_type.
    change (flat_map _ all_countys) with ([] ++ flat_map
      (fun county => flat_map (Stated.month_plan proceeding_type (fst county))
                       (generate_monthly_ranges 2024)) all_countys).
    apply types_along_bind;
      [apply (types_along_quiet (fun _ _ => True)); repeat appends_step|]. intros _.
    apply types_along_for_each. intros county. apply scrape_county_plan. }
  rewrite app_nil_r in Hbody.
  unfold trace_of, outcome_of, run. rewrite bind_emit. unfold try_except.
  match goal with |- context [bind (for_each ?f ?l) ?k ?w1] =>
    specialize (Hbody w1); destruct Hbody as (typed & Htr & Hout);
    unfold trace_of, outcome_of in Htr, Hout;
    cbn [fst snd] in Htr; rewrite fills_app, app_nil_r in Htr;
    destruct (bind (for_each f l) k w1) as [w2 [status|e]]
  end; cbn [fst snd] in *.
  - exists typed. split; [exact Htr|].
    split; [exists []; rewrite app_nil_r; now symmetry|].
    split; [intros _; exact Hout|]. split; [|reflexivity].
    unfold plan, Stated.search_plan. cbn [proceeding_types flat_map]. rewrite !length_app.
    cbn [length]. rewrite Nat.add_0_r.
    rewrite !county_plan_length. lia.
  - exists typed. rewrite bind_emit, ret_run. change (any_Exception e) with true.
    cbn [fst snd]. rewrite fills_app, app_nil_r. split; [exact Htr|]. split; [exact Hout|].
    split; [discriminate|]. split; [|reflexivity].
    unfold plan, Stated.search_plan. cbn [proceeding_types flat_map]. rewrite !length_app.
    cbn [length]. rewrite Nat.add_0_r.
    rewrite !county_plan_length. lia.
Qed.

End CourtSearchPlan.

Section AttorneySearchPlan.
Import NYAttorney.

#[local] Existing Instance any_file_preorder.

Lemma type_if_set_run (which : string) (value : option string)
    (w : list Event * Store) :
  type_if_set which value w
  = ((fst w ++ map (Fill (field_name which)) (Stated.typed_name value), snd w), Ok tt).
Proof.
  unfold type_if_set, Stated.typed_name. destruct value as [v|].
  - destruct (truthy v); [reflexivity|]. cbn. rewrite app_nil_r. now destruct w.
  - cbn. rewrite app_nil_r. now destruct w.
Qed.

Lemma fills_typed (selector : string) (values : list string) :
  fills (map (Fill selector) values) = values.
Proof.
  unfold fills. induction values as [|v l IH]; [reflexivity|].
  cbn [map flat_map app]. now rewrite IH.
Qed.

Lemma search_attorney_types (B : Browser) (attorney : string) (w : list Event * Store) :
  typing (B attorney) = Ok tt ->
  fills (trace_of (search_attorney B attorney) w)
  = fills (fst w) ++ Stated.attorney_plan attorney.
Proof.
  intros Htyping.
  unfold trace_of, search_attorney, Stated.attorney_plan, normalize. mstep.
  rewrite Htyping. mstep.
  rewrite (bind_ok _ _ _ _ _ (type_if_set_run _ _ _)). cbn [fst snd].
  rewrite (bind_ok _ _ _ _ _ (type_if_set_run _ _ _)). cbn [fst snd].
  rewrite (bind_ok _ _ _ _ _ (type_if_set_run _ _ _)). cbn [fst snd].
  match goal with |- fills (fst (fst (?rest ?w3))) = _ =>
    assert (Hrest : appends (fun ev => is_fill ev = false) (fun _ _ => True) rest);
    [|destruct (Hrest w3) as (evs & Htr & Hq & _); unfold trace_of in Htr; rewrite Htr]
  end.
  { abind; [destruct (captcha_visible _); repeat appends_step|]. intros _.
    abind; [repeat appends_step|]. intros _.
    abind; [repeat appends_step|]. intros _.
    abind; [repeat appends_step|]. intros box.
    match goal with |- context [if ?c then _ else _] => destruct c end;
      [repeat appends_step|].
    abind; [repeat appends_step|]. intros candidates.
    abind.
    { unfold choose_link.
      destruct (find_target _ 0 candidates) as [[i link]|]; [repeat appends_step|].
      destruct candidates; repeat appends_step. }
    intros i. abind; [repeat appends_step|]. intros _.
    abind; [repeat appends_step|]. intros [new_page_url d].
    do 7 (abind; [repeat appends_step|]; intros _).
    abind; [apply attorney_save_to_csv_types_nothing | intros _; repeat appends_step]. }
  cbn [fst]. rewrite !fills_app, (fills_no_fill evs Hq), !fills_typed.
  cbn [fills flat_map app]. now rewrite !app_nil_r, <- !app_assoc.
Qed.

Lemma process_attorney_types (B : Browser) (attorney : string)
    (w : list Event * Store) :
  typing (B attorney) = Ok tt ->
  fills (trace_of (process_attorney B attorney) w)
  = fills (fst w) ++ Stated.attorney_plan attorney.
Proof.
  intros Htyping. rewrite <- (search_attorney_types B attorney w Htyping).
  unfold trace_of, process_attorney, try_except.
  destruct (search_attorney B attorney w) as [w1 [[]|e]]; [reflexivity|].
  change (any_Exception e) with true. cbv iota. rewrite emit_run. cbn [fst].
  rewrite fills_app. cbn. now rewrite app_nil_r.
Qed.

(** X21. When the name fields can be cleared and typed for every name of
    the list, the run of the attorney scraper goes through every name, in
    the order of the list and whatever else happened with the names before
    it (a search without results, a page that does not load): the values
    typed into the form are, name after name, the first, the last and the
    middle name that the normalization gives, those that are set. *)
Theorem X21_every_name_of_the_list_is_typed (B : Browser) (attorneys_list : list string)
    (w : list Event * Store) :
  Forall (fun attorney => typing (B attorney) = Ok tt) attorneys_list ->
  fills (trace_of (run B attorneys_list) w)
  = fills (fst w) ++ flat_map Stated.attorney_plan attorneys_list.
Proof.
  intros Htyping. unfold trace_of, run. rewrite bind_emit. unfold try_except.
  assert (Hloop : forall l w0,
             Forall (fun attorney => typing (B attorney) = Ok tt) l ->
             exists w1, for_each (process_attorney B) l w0 = (w1, Ok tt)
                        /\ fills (fst w1)
                           = fills (fst w0) ++ flat_map Stated.attorney_plan l).
  { induction l as [|a l IH]; intros w0 Hl.
    - exists w0. split; [reflexivity|]. cbn. now rewrite app_nil_r.
    - inversion Hl as [|a' l' Ha Hrest]; subst.
      pose proof (process_attorney_total B a w0) as Hok.
      pose proof (process_attorney_types B a w0 Ha) as Hty. unfold trace_of in Hty.
      destruct (process_attorney B a w0) as [w1 r] eqn:E. cbn [fst snd] in *. subst r.
      destruct (IH w1 Hrest) as (w2 & Hrun & Hfills). exists w2.
      rewrite for_each_cons, (bind_ok _ _ _ _ _ E). split; [exact Hrun|].
      rewrite Hfills, Hty. cbn [flat_map]. now rewrite app_assoc. }
  match goal with |- context [bind (for_each ?f ?l) ?k ?w0] =>
    destruct (Hloop l w0 Htyping) as (w1 & Hrun & Hfills);
    rewrite (bind_ok _ _ _ _ _ Hrun)
  end.
  mstep. cbn [fst] in Hfills. rewrite fills_app in Hfills.
  rewrite !fills_app, Hfills. cbn [fills flat_map app].
  rewrite ?app_nil_r. reflexivity.
Qed.

End AttorneySearchPlan.

(** Three names on the sample site: the first is found, the result page of
    the second does not load, the third has a suffix and a middle name. *)
Lemma X21_witness :
  let names := ["John Smith"; "Nobody Known"; "Mary Ann Doe Jr"] in
  fills (trace_of (NYAttorney.run Sample.attorney_browser names) ([], None))
  = [] ++ flat_map Stated.attorney_plan names
  /\ flat_map Stated.attorney_plan names
     = ["John"; "Smith"; "Nobody"; "Known"; "Mary"; "Doe"; "Ann"].
Proof.
  split; [|reflexivity].
  apply (X21_every_name_of_the_list_is_typed Sample.attorney_browser
           ["John Smith"; "Nobody Known"; "Mary Ann Doe Jr"] ([], None)).
  repeat constructor.
Defined.

(** ** North Carolina: a captcha that is not solved *)

Section Captcha.
Import NC.

(** X22. [solve_recaptcha_v2] never raises: an error of the solving
    service is logged and the answer is [None]. The search goes on all the
    same: the token is injected, the submit button is clicked right after
    the error line, and the run continues with what the site shows. *)
Theorem X22_a_failed_captcha_solve_does_not_stop_the_search (P : Portal)
    (B : Browser) (fuel record_num : nat) (w : list Event * Store) (e : exn) :
  let session := B (record_number_of record_num) in
  Stated.reaches_banner session ->
  solver session = Raise e ->
  solve_recaptcha_v2 session w
  = ((fst w ++ [Log INFO "Sending reCAPTCHA V2 task to 2Captcha...";
                Log ERROR ("Error solving reCAPTCHA: " +:+ exn_name e)], snd w),
     Ok None)
  /\ exists after,
       trace_of (search_loop P B (S fuel) record_num) w
       = fst w
         ++ [Log INFO ("Searching Record Number " +:+ record_number_of record_num);
             Fill "#caseCriteria_SearchCriteria" (record_number_of record_num);
             Log INFO "Sending reCAPTCHA V2 task to 2Captcha...";
             Log ERROR ("Error solving reCAPTCHA: " +:+ exn_name e);
             Click "#btnSSSubmit"]
         ++ after.
Proof.
  intros session ((key & Hkey) & Hfill & Hsubmit) Hsolver.
  assert (Hsolve : forall w0,
             solve_recaptcha_v2 session w0
             = ((fst w0 ++ [Log INFO "Sending reCAPTCHA V2 task to 2Captcha...";
                            Log ERROR ("Error solving reCAPTCHA: " +:+ exn_name e)],
                 snd w0), Ok None)).
  { intros w0. unfold solve_recaptcha_v2. mstep. unfold try_except. rewrite Hsolver.
    mstep. now rewrite <- app_assoc. }
  split; [apply Hsolve|].
  unfold trace_of. cbn [search_loop]. fold session. mstep. rewrite Hkey. mstep.
  rewrite Hfill. mstep. rewrite (bind_ok _ _ _ _ _ (Hsolve _)). cbn [fst snd].
  rewrite Hsubmit. mstep.
  match goal with |- context [bind (lift (banner session)) ?k ?w1] =>
    assert (Hrest : appends (fun ev => is_csv ev = false) grows
                      (bind (lift (banner session)) k));
    [|destruct (Hrest w1) as (evs & Htr & _); unfold trace_of in Htr; rewrite Htr]
  end.
  { abind; [repeat appends_step|]. intros message.
    match goal with |- context [if ?c then _ else _] => destruct c end;
      [repeat appends_step|].
    abind; [repeat appends_step|]. intros _.
    abind; [unfold set_page_size; abind; [repeat appends_step|];
            intros [[|]|]; repeat appends_step|]. intros _.
    abind; [repeat appends_step|]. intros all_cases.
    abind; [apply (appends_weaken _ (fun ev => is_csv ev = false) grows grows _
                     lookup_no_csv (fun _ _ H => H)), scrape_cases_appends|].
    intros _.
    do 4 (abind; [repeat appends_step|]; intros _).
    apply search_loop_appends. }
  cbn [fst]. rewrite <- !app_assoc. cbn [app]. eexists. reflexivity.
Qed.

End Captcha.

(** The sample browser whose captcha service does not answer. *)
Lemma X22_witness :
  exists after,
    trace_of (NC.search_loop Sample.portal Sample.captcha_down 1 0) ([], [])
    = [] ++ [Log INFO "Searching Record Number 24E0000*";
             Fill "#caseCriteria_SearchCriteria" "24E0000*";
             Log INFO "Sending reCAPTCHA V2 task to 2Captcha...";
             Log ERROR "Error solving reCAPTCHA: OSError";
             Click "#btnSSSubmit"]
         ++ after.
Proof.
  refine (proj2 (X22_a_failed_captcha_solve_does_not_stop_the_search Sample.portal
                   Sample.captcha_down 0 0 ([], []) OSError _ eq_refl)).
  split; [now exists (Some "6Lc-sample-site-key") | split; reflexivity].
Defined.
